(** * Interactive-Chess: the Board legality engine, its mutations and its
      FEN serialization, embedded from [src/_board/board.py] and
      [src/_board/tile.py].

    Python objects that are shared and mutated in place (the pieces) live in
    an object store carried by the board; a tile, the selection and a history
    record hold references into that store.  Methods are computations in a
    state-and-exception monad over the board: a Python exception leaves the
    mutations made before it in place. *)

From Stdlib Require Import ZArith String Ascii List Lia Bool DecimalString.
From stdpp Require Import base option list.
Import ListNotations.

Local Open Scope Z_scope.

(** ** Data model *)

Inductive Color := WHITE | BLACK.

Inductive PieceType := KING | QUEEN | ROOK | BISHOP | KNIGHT | PAWN.

#[global] Instance Color_eq_dec : EqDecision Color.
Proof. solve_decision. Defined.

#[global] Instance PieceType_eq_dec : EqDecision PieceType.
Proof. solve_decision. Defined.

(** A square is a tuple [(file, rank)] of Python integers. *)
Definition Pos : Type := Z * Z.

(** A piece object.  The classes of [_pieces] are not part of the embedded
    sources; the attributes are the ones [board.py] reads and writes. *)
Record Piece := mkPiece {
  color : Color;
  piece_type : PieceType;
  current_pos : Pos;
  has_moved : bool
}.

(** A reference to a piece object: its index in the object store. *)
Abbreviation ref := nat.

(** [tile.py], dataclass [Tile]. *)
Record Tile := mkTile {
  file : Z;
  rank : Z;
  is_light_square : bool;
  piece_here : option ref;
  highlighted : bool;
  prev : bool;
  clicked : bool
}.

(** One dictionary of [move_history]. *)
Record MoveRecord := mkMoveRecord {
  mr_Piece : option ref;
  mr_From : option Pos;
  mr_To : option Pos;
  mr_Captured : option ref;
  mr_FEN : string
}.

(** [board.py], class [Board], with the store of the piece objects. *)
Record Board := mkBoard {
  grid : list (list Tile);
  pieces : list Piece;
  selected_piece : option ref;
  checking_for_checks : bool;
  en_passant_target : option Pos;
  move_history : list MoveRecord;
  current_index : Z;
  material_differential : Z;
  checkmate : bool;
  stalemate : bool;
  mate_color : option Color;
  resigned : bool
}.

Definition set_grid (g : list (list Tile)) (b : Board) : Board :=
  mkBoard g (pieces b) (selected_piece b) (checking_for_checks b)
    (en_passant_target b) (move_history b) (current_index b)
    (material_differential b) (checkmate b) (stalemate b) (mate_color b)
    (resigned b).

Definition set_pieces (ps : list Piece) (b : Board) : Board :=
  mkBoard (grid b) ps (selected_piece b) (checking_for_checks b)
    (en_passant_target b) (move_history b) (current_index b)
    (material_differential b) (checkmate b) (stalemate b) (mate_color b)
    (resigned b).

Definition set_selected_piece (s : option ref) (b : Board) : Board :=
  mkBoard (grid b) (pieces b) s (checking_for_checks b)
    (en_passant_target b) (move_history b) (current_index b)
    (material_differential b) (checkmate b) (stalemate b) (mate_color b)
    (resigned b).

Definition set_checking_for_checks (f : bool) (b : Board) : Board :=
  mkBoard (grid b) (pieces b) (selected_piece b) f
    (en_passant_target b) (move_history b) (current_index b)
    (material_differential b) (checkmate b) (stalemate b) (mate_color b)
    (resigned b).

Definition set_en_passant_target (t : option Pos) (b : Board) : Board :=
  mkBoard (grid b) (pieces b) (selected_piece b) (checking_for_checks b)
    t (move_history b) (current_index b)
    (material_differential b) (checkmate b) (stalemate b) (mate_color b)
    (resigned b).

Definition set_move_history (h : list MoveRecord) (b : Board) : Board :=
  mkBoard (grid b) (pieces b) (selected_piece b) (checking_for_checks b)
    (en_passant_target b) h (current_index b)
    (material_differential b) (checkmate b) (stalemate b) (mate_color b)
    (resigned b).

Definition set_current_index (i : Z) (b : Board) : Board :=
  mkBoard (grid b) (pieces b) (selected_piece b) (checking_for_checks b)
    (en_passant_target b) (move_history b) i
    (material_differential b) (checkmate b) (stalemate b) (mate_color b)
    (resigned b).

Definition set_material_differential (m : Z) (b : Board) : Board :=
  mkBoard (grid b) (pieces b) (selected_piece b) (checking_for_checks b)
    (en_passant_target b) (move_history b) (current_index b)
    m (checkmate b) (stalemate b) (mate_color b) (resigned b).

Definition set_terminal (cm : bool) (mc : option Color) (rs : bool)
    (b : Board) : Board :=
  mkBoard (grid b) (pieces b) (selected_piece b) (checking_for_checks b)
    (en_passant_target b) (move_history b) (current_index b)
    (material_differential b) cm (stalemate b) mc rs.

(** ** Computations: state and exceptions *)

Inductive exn :=
  | AttributeError
  | IndexError
  | KeyError
  | ReferenceError.

(** The outcome of running a method on a board: it returns a value, or an
    exception propagates, both with the board as the method left it; or the
    recursion budget of the model ran out. *)
Inductive result (A : Type) :=
  | Ret (a : A) (b : Board)
  | Raise (e : exn) (b : Board)
  | OutOfFuel.

Arguments Ret {A} a b.
Arguments Raise {A} e b.
Arguments OutOfFuel {A}.

Definition M (A : Type) : Type := Board -> result A.

Definition ret {A} (a : A) : M A := fun b => Ret a b.

Definition bind {A B} (m : M A) (k : A -> M B) : M B :=
  fun b =>
    match m b with
    | Ret a b' => k a b'
    | Raise e b' => Raise e b'
    | OutOfFuel => OutOfFuel
    end.

Definition raise {A} (e : exn) : M A := fun b => Raise e b.

Definition get_board : M Board := fun b => Ret b b.

Definition modify (f : Board -> Board) : M unit := fun b => Ret tt (f b).

(** [try: m finally: fin]. *)
Definition try_finally {A} (m : M A) (fin : M unit) : M A :=
  fun b =>
    match m b with
    | Ret a b' =>
        match fin b' with
        | Ret _ b'' => Ret a b''
        | Raise e b'' => Raise e b''
        | OutOfFuel => OutOfFuel
        end
    | Raise e b' =>
        match fin b' with
        | Ret _ b'' => Raise e b''
        | Raise e' b'' => Raise e' b''
        | OutOfFuel => OutOfFuel
        end
    | OutOfFuel => OutOfFuel
    end.

Declare Scope py_scope.
Delimit Scope py_scope with py.
Notation "x <- m ;; k" := (bind m (fun x => k))
  (at level 100, m at next level, right associativity) : py_scope.
Notation "m ;;; k" := (bind m (fun _ => k))
  (at level 100, right associativity) : py_scope.
Local Open Scope py_scope.

(** [for x in l: body x], threading a local accumulator. *)
Fixpoint for_fold {A S} (l : list A) (body : S -> A -> M S) (s : S) : M S :=
  match l with
  | [] => ret s
  | x :: l' => s' <- body s x ;; for_fold l' body s'
  end.

(** [for x in l: body x] for a body executed for its effects. *)
Definition for_each {A} (l : list A) (body : A -> M unit) : M unit :=
  for_fold l (fun _ x => body x) tt.

(** A loop that leaves through [return v] the first time its body yields
    [Some v]. *)
Fixpoint for_first {A R} (l : list A) (body : A -> M (option R))
    : M (option R) :=
  match l with
  | [] => ret None
  | x :: l' =>
      o <- body x ;;
      match o with
      | Some v => ret (Some v)
      | None => for_first l' body
      end
  end.

(** [range(8)] and [range(7, -1, -1)]. *)
Definition range8 : list Z := [0; 1; 2; 3; 4; 5; 6; 7].
Definition range8_down : list Z := [7; 6; 5; 4; 3; 2; 1; 0].

(** The state a computation leaves behind, whether it returned or raised. *)
Definition final_state {A} (r : result A) : option Board :=
  match r with
  | Ret _ b => Some b
  | Raise _ b => Some b
  | OutOfFuel => None
  end.

(** ** Lists indexed the Python way *)

(** [l[i]] accepts [-len <= i < len]; anything else is an [IndexError]. *)
Definition py_index (len : nat) (i : Z) : option nat :=
  if (0 <=? i) && (i <? Z.of_nat len) then Some (Z.to_nat i)
  else if (- Z.of_nat len <=? i) && (i <? 0)
       then Some (Z.to_nat (Z.of_nat len + i))
       else None.

(** [grid[rank][file]] *)
Definition tile_at (g : list (list Tile)) (f r : Z) : option Tile :=
  match py_index (length g) r with
  | None => None
  | Some ri =>
      match g !! ri with
      | None => None
      | Some row =>
          match py_index (length row) f with
          | None => None
          | Some fi => row !! fi
          end
      end
  end.

Definition with_piece_here (o : option ref) (t : Tile) : Tile :=
  mkTile (file t) (rank t) (is_light_square t) o (highlighted t) (prev t)
    (clicked t).

(** [grid[rank][file].piece_here = o], on the grid value. *)
Definition grid_put (g : list (list Tile)) (f r : Z) (o : option ref)
    : option (list (list Tile)) :=
  match py_index (length g) r with
  | None => None
  | Some ri =>
      match g !! ri with
      | None => None
      | Some row =>
          match py_index (length row) f with
          | None => None
          | Some fi =>
              Some (alter (alter (with_piece_here o) fi) ri g)
          end
      end
  end.

Definition get_tile (f r : Z) : M Tile :=
  fun b =>
    match tile_at (grid b) f r with
    | Some t => Ret t b
    | None => Raise IndexError b
    end.

Definition set_piece_here (f r : Z) (o : option ref) : M unit :=
  fun b =>
    match grid_put (grid b) f r o with
    | Some g => Ret tt (set_grid g b)
    | None => Raise IndexError b
    end.

(** [tile.py], [Tile.get_piece_here]. *)
Definition get_piece_here (t : Tile) : option ref := piece_here t.

(** Reading the attributes of a piece object.  A reference held by the board
    always designates an object of the store; [ReferenceError] is the
    model's outcome for a reference that does not. *)
Definition deref (p : ref) : M Piece :=
  fun b =>
    match pieces b !! p with
    | Some P => Ret P b
    | None => Raise ReferenceError b
    end.

Definition with_current_pos (pos : Pos) (P : Piece) : Piece :=
  mkPiece (color P) (piece_type P) pos (has_moved P).

Definition with_has_moved (h : bool) (P : Piece) : Piece :=
  mkPiece (color P) (piece_type P) (current_pos P) h.

(** [piece.current_pos = pos] *)
Definition set_current_pos (p : ref) (pos : Pos) : M unit :=
  fun b =>
    match pieces b !! p with
    | Some _ => Ret tt (set_pieces (alter (with_current_pos pos) p (pieces b)) b)
    | None => Raise ReferenceError b
    end.

(** [piece.has_moved = h] *)
Definition set_has_moved (p : ref) (h : bool) : M unit :=
  fun b =>
    match pieces b !! p with
    | Some _ => Ret tt (set_pieces (alter (with_has_moved h) p (pieces b)) b)
    | None => Raise ReferenceError b
    end.

(** Object creation: the new piece gets the next free reference. *)
Definition new_piece (P : Piece) : M ref :=
  fun b => Ret (length (pieces b)) (set_pieces (pieces b ++ [P]) b).

(** ** The piece classes, as far as the board uses them *)

(** Modelled from the spec: [Color.opposite()] of [_enums/color.py], which is
    not among the embedded sources; the spec gives [Color] two values and an
    [opposite()] operation. *)
Definition opposite (c : Color) : Color :=
  match c with WHITE => BLACK | BLACK => WHITE end.

(** Modelled from the spec: [piece.piece_value.value]; the enum is declared
    in [_pieces], outside the embedded sources.  Section 3 of the spec fixes
    the values, the king being worth 0. *)
Definition piece_value (k : PieceType) : Z :=
  match k with
  | PAWN => 1 | KNIGHT => 3 | BISHOP => 3 | ROOK => 5 | QUEEN => 9 | KING => 0
  end.

(** Modelled from the spec: [piece.piece_type.value], the one-character
    notation symbol of a kind (k, q, r, b, n, p). *)
Definition symbol (k : PieceType) : ascii :=
  match k with
  | KING => "k" | QUEEN => "q" | ROOK => "r"
  | BISHOP => "b" | KNIGHT => "n" | PAWN => "p"
  end%char.

(** Modelled from the spec: the constructors [Pawn(color, pos)], ...,
    [King(color, pos)] of [_pieces]: a piece of that colour and kind standing
    on [pos] that has not moved yet. *)
Definition make_piece (k : PieceType) (c : Color) (pos : Pos) : Piece :=
  mkPiece c k pos false.

(** ** Strings *)

(** [str(n)] for a Python integer. *)
Definition str_int (n : Z) : string :=
  DecimalString.NilZero.string_of_int (Z.to_int n).

Definition is_upper (c : ascii) : bool :=
  let n := nat_of_ascii c in (65 <=? n)%nat && (n <=? 90)%nat.

Definition is_lower (c : ascii) : bool :=
  let n := nat_of_ascii c in (97 <=? n)%nat && (n <=? 122)%nat.

(** [c.isdigit()], on ASCII. *)
Definition is_digit (c : ascii) : bool :=
  let n := nat_of_ascii c in (48 <=? n)%nat && (n <=? 57)%nat.

(** [int(c)] for a digit [c]. *)
Definition int_of_digit (c : ascii) : Z := Z.of_nat (nat_of_ascii c) - 48.

(** [c.upper()] and [c.lower()], on ASCII. *)
Definition upper (c : ascii) : ascii :=
  if is_lower c then ascii_of_nat (nat_of_ascii c - 32) else c.

Definition lower (c : ascii) : ascii :=
  if is_upper c then ascii_of_nat (nat_of_ascii c + 32) else c.

(** [s[:-1]] *)
Fixpoint drop_last (s : string) : string :=
  match s with
  | EmptyString => EmptyString
  | String c EmptyString => EmptyString
  | String c s' => String c (drop_last s')
  end.

(** [s.split(sep)] for a one-character separator: the pieces between the
    separators, so always at least one piece. *)
Fixpoint split (sep : ascii) (s : string) : list string :=
  match s with
  | EmptyString => [EmptyString]
  | String c s' =>
      if Ascii.eqb c sep then EmptyString :: split sep s'
      else match split sep s' with
           | [] => [String c EmptyString]
           | w :: ws => String c w :: ws
           end
  end.

(** [enumerate(l)] *)
Definition enumerate {A} (l : list A) : list (Z * A) :=
  combine (map Z.of_nat (seq 0 (length l))) l.

(** ** The Board methods *)

(** [Board.is_curr_pos] *)
Definition is_curr_pos (b : Board) : bool :=
  current_index b =? Z.of_nat (length (move_history b)) - 1.

(** [Board.get_piece]: selects a piece. *)
Definition get_piece (p : ref) : M unit := modify (set_selected_piece (Some p)).

(** [Board.set_checkmate], [Board.set_stalemate], [Board.set_mate_color] *)
Definition set_checkmate : M unit :=
  modify (fun b => set_terminal true (mate_color b) (resigned b) b).

Definition set_mate_color (c : Color) : M unit :=
  modify (fun b => set_terminal (checkmate b) (Some c) (resigned b) b).

(** [Board.remove_check_indicators].  The loop body calls
    [self.grid[rank][file].clear_check()], and the dataclass [Tile] of
    [tile.py] defines no attribute [clear_check]: once the tile is fetched
    the attribute lookup raises [AttributeError]. *)
Definition remove_check_indicators : M unit :=
  for_each range8 (fun rank =>
    for_each range8 (fun file =>
      _ <- get_tile file rank ;;
      raise AttributeError)).

(** [Board.find_king] *)
Definition find_king (c : Color) : M (option Pos) :=
  for_first range8 (fun rank =>
    for_first range8 (fun file =>
      t <- get_tile file rank ;;
      match piece_here t with
      | None => ret None
      | Some p =>
          P <- deref p ;;
          if bool_decide (color P = c) && bool_decide (piece_type P = KING)
          then ret (Some (file, rank))
          else ret None
      end)).

(** [for move in curr: if move not in all_moves: all_moves.append(move)] *)
Definition extend_unique (all_moves curr : list Pos) : list Pos :=
  fold_left
    (fun acc move => if bool_decide (move ∈ acc) then acc else acc ++ [move])
    curr all_moves.

(** [Board.calculate_material] *)
Definition calculate_material : M Z :=
  totals <-
    for_fold range8 (fun totals rank =>
      for_fold range8 (fun (totals : Z * Z) file =>
        t <- get_tile file rank ;;
        match piece_here t with
        | None => ret totals
        | Some p =>
            P <- deref p ;;
            let value := piece_value (piece_type P) in
            if bool_decide (color P = WHITE)
            then ret (fst totals + value, snd totals)
            else ret (fst totals, snd totals + value)
        end) totals) (0, 0) ;;
  ret (fst totals - snd totals).

(** One rank of [Board.board_state]: the inner loop over the files, with the
    locals [fen_row] and [empty_count]. *)
Definition board_state_row (rank : Z) : M string :=
  st <-
    for_fold range8 (fun (st : string * Z) file =>
      let fen_row := fst st in
      let empty_count := snd st in
      t <- get_tile file rank ;;
      match piece_here t with
      | None =>
          let empty_count := empty_count + 1 in
          if file =? 7
          then ret (append fen_row (str_int empty_count), empty_count)
          else ret (fen_row, empty_count)
      | Some p =>
          P <- deref p ;;
          let sym := symbol (piece_type P) in
          let cased :=
            if bool_decide (color P = WHITE) then upper sym else lower sym in
          if 0 <? empty_count
          then ret (append (append fen_row (str_int empty_count))
                      (String cased EmptyString), 0)
          else ret (append fen_row (String cased EmptyString), empty_count)
      end) (EmptyString, 0) ;;
  ret (fst st).

(** [Board.board_state].  With [active_color] the full (simplified) FEN is
    produced; [chr(ord('a') + file)] is modelled for the files whose letter
    is an ASCII character. *)
Definition board_state (active_color : option Color) : M string :=
  fen_string <-
    for_fold range8_down (fun fen_string rank =>
      fen_row <- board_state_row rank ;;
      ret (append fen_string (append fen_row "/"))) EmptyString ;;
  let fen_string := drop_last fen_string in
  match active_color with
  | None => ret fen_string
  | Some c =>
      b <- get_board ;;
      let turn_char := if bool_decide (c = WHITE) then "w" else "b" in
      let castling := "-" in
      let en_passant :=
        match en_passant_target b with
        | Some (f, r) =>
            String (ascii_of_nat (Z.to_nat (97 + f))) (str_int (r + 1))
        | None => "-"
        end in
      ret (append fen_string
            (append " " (append turn_char
              (append " " (append castling
                (append " " (append en_passant
                  (append " " (append (str_int 0)
                    (append " " (str_int 1)))))))))))
  end%string.

(** [grid[rank][file] = t] *)
Definition set_tile (f r : Z) (t : Tile) : M unit :=
  fun b =>
    match py_index (length (grid b)) r with
    | None => Raise IndexError b
    | Some ri =>
        match grid b !! ri with
        | None => Raise IndexError b
        | Some row =>
            match py_index (length row) f with
            | None => Raise IndexError b
            | Some fi =>
                Ret tt (set_grid (<[ri := <[fi := t]> row]> (grid b)) b)
            end
        end
    end.

(** The dictionary of [load_fen] from a lower-case letter to a piece class;
    a missing key is a [KeyError]. *)
Definition piece_class (c : ascii) : option PieceType :=
  if Ascii.eqb c "p" then Some PAWN
  else if Ascii.eqb c "r" then Some ROOK
  else if Ascii.eqb c "n" then Some KNIGHT
  else if Ascii.eqb c "b" then Some BISHOP
  else if Ascii.eqb c "q" then Some QUEEN
  else if Ascii.eqb c "k" then Some KING
  else None.

(** The body of the loop [for char in row] of [load_fen]: what one character
    does to the board and to the local [file_index]. *)
Definition load_fen_char (rank_index : Z) (file_index : Z) (char : ascii)
    : M Z :=
  if is_digit char then ret (file_index + int_of_digit char)
  else
    let c := if is_upper char then WHITE else BLACK in
    let piece_type_char := lower char in
    match piece_class piece_type_char with
    | None => raise KeyError
    | Some k =>
        piece <- new_piece (make_piece k c (file_index, rank_index)) ;;
        (if bool_decide (k = PAWN)
         then
           if (bool_decide (c = WHITE) && negb (rank_index =? 1))
              || (bool_decide (c = BLACK) && negb (rank_index =? 6))
           then set_has_moved piece true
           else ret tt
         else ret tt) ;;;
        set_piece_here file_index rank_index (Some piece) ;;;
        ret (file_index + 1)
    end.

(** The loop [for char in row] of [load_fen], with the local [file_index]. *)
Definition load_fen_row (rank_index : Z) (row : string) : M Z :=
  for_fold (list_ascii_of_string row) (load_fen_char rank_index) 0.

(** [Board.load_fen] *)
Definition load_fen (fen : string) : M unit :=
  for_each range8 (fun file =>
    for_each range8 (fun rank =>
      let is_light := (rank + file) mod 2 =? 1 in
      set_tile file rank (mkTile file rank is_light None false false false))) ;;;
  let rank_rows := split "/" fen in
  for_each (enumerate (rev rank_rows)) (fun ir =>
    _ <- load_fen_row (fst ir) (snd ir) ;; ret tt) ;;;
  m <- calculate_material ;;
  modify (set_material_differential m) ;;;
  remove_check_indicators.

(** [Board.promote]: the right-hand side [Queen(color, (file, rank))] is
    evaluated before the tile is fetched. *)
Definition promote (c : Color) (f r : Z) : M unit :=
  queen <- new_piece (make_piece QUEEN c (f, r)) ;;
  set_piece_here f r (Some queen).

(** [Board.resign] *)
Definition resign (resigning_color : Color) : M unit :=
  modify (set_terminal true (Some (opposite resigning_color)) true).

(** [Board.en_passant] *)
Definition en_passant (piece : ref) (new_pos : Pos) : M unit :=
  P <- deref piece ;;
  let prev_pos := current_pos P in
  b <- get_board ;;
  (if bool_decide (en_passant_target b = Some new_pos)
   then
     let check_square :=
       if bool_decide (color P = WHITE)
       then (fst new_pos, snd new_pos - 1)
       else (fst new_pos, snd new_pos + 1) in
     set_piece_here (fst check_square) (snd check_square) None
   else ret tt) ;;;
  set_piece_here (fst prev_pos) (snd prev_pos) None ;;;
  set_piece_here (fst new_pos) (snd new_pos) (Some piece) ;;;
  set_current_pos piece new_pos ;;;
  set_has_moved piece true ;;;
  modify (set_en_passant_target None).

(** ** The legality engine and [move_piece]

    The methods of the piece classes that the board calls are parameters:
    [_pieces] is not among the embedded sources.
    - [get_moves p b] is [p.get_moves(board)], the pseudo-legal destinations
      of the piece, computed from the board without changing it;
    - [piece_move p pos b] is the effect of [p.move(pos, board)], the piece's
      own relocation hook;
    - [piece_delete p b] is the effect of [p.delete()]. *)

Section Engine.

Variable get_moves : ref -> Board -> list Pos.
Variable piece_move : ref -> Pos -> Board -> Board.
Variable piece_delete : ref -> Board -> Board.

(** The four methods [check_for_checks], [get_all_enemy_moves],
    [get_all_legal] and [check_if_move_into_check] call each other in a
    cycle.  The last three are written over the [check_for_checks] they call;
    [check_for_checks] closes the cycle and spends one unit of the recursion
    budget per call. *)

Section WithCheck.

Variable check_for_checks_rec : Color -> M bool.

(** [Board.check_if_move_into_check] *)
Definition check_if_move_into_check_with (piece : ref) (new_pos : Pos)
    : M bool :=
  P <- deref piece ;;
  let cur := current_pos P in
  next_pos <- get_tile (fst new_pos) (snd new_pos) ;;
  let captured_piece := piece_here next_pos in
  set_piece_here (fst cur) (snd cur) None ;;;
  set_piece_here (fst new_pos) (snd new_pos) (Some piece) ;;;
  set_current_pos piece new_pos ;;;
  P' <- deref piece ;;
  check <- check_for_checks_rec (color P') ;;
  set_piece_here (fst cur) (snd cur) (Some piece) ;;;
  set_piece_here (fst new_pos) (snd new_pos) captured_piece ;;;
  set_current_pos piece cur ;;;
  ret check.

(** [Board.get_all_legal] *)
Definition get_all_legal_with (piece : ref) : M (list Pos) :=
  b <- get_board ;;
  let check_moves := get_moves piece b in
  for_fold check_moves (fun legal_moves move =>
    c <- check_if_move_into_check_with piece move ;;
    if negb c then ret (legal_moves ++ [move]) else ret legal_moves) [].

(** [Board.get_all_enemy_moves] *)
Definition get_all_enemy_moves_with (c : Color) : M (list Pos) :=
  for_fold range8 (fun all_moves rank =>
    for_fold range8 (fun all_moves file =>
      t <- get_tile file rank ;;
      match piece_here t with
      | None => ret all_moves
      | Some p =>
          P <- deref p ;;
          if negb (bool_decide (color P = c))
          then
            curr <- get_all_legal_with p ;;
            ret (extend_unique all_moves curr)
          else ret all_moves
      end) all_moves) [].

(** [Board.get_all_moves] *)
Definition get_all_moves_with (c : Color) : M (list Pos) :=
  for_fold range8 (fun all_moves rank =>
    for_fold range8 (fun all_moves file =>
      t <- get_tile file rank ;;
      match piece_here t with
      | None => ret all_moves
      | Some p =>
          P <- deref p ;;
          if bool_decide (color P = c)
          then
            curr <- get_all_legal_with p ;;
            ret (extend_unique all_moves curr)
          else ret all_moves
      end) all_moves) [].

End WithCheck.

(** [Board.check_for_checks] *)
Fixpoint check_for_checks (fuel : nat) (c : Color) : M bool :=
  match fuel with
  | O => fun _ => OutOfFuel
  | S fuel' =>
      b <- get_board ;;
      if checking_for_checks b then ret false
      else
        modify (set_checking_for_checks true) ;;;
        try_finally
          (king_pos <- find_king c ;;
           match king_pos with
           | None => ret false
           | Some kp =>
               enemy_moves <-
                 get_all_enemy_moves_with (check_for_checks fuel') c ;;
               ret (bool_decide (kp ∈ enemy_moves))
           end)
          (modify (set_checking_for_checks false))
  end.

Definition check_if_move_into_check (fuel : nat) : ref -> Pos -> M bool :=
  check_if_move_into_check_with (check_for_checks fuel).

Definition get_all_legal (fuel : nat) : ref -> M (list Pos) :=
  get_all_legal_with (check_for_checks fuel).

Definition get_all_enemy_moves (fuel : nat) : Color -> M (list Pos) :=
  get_all_enemy_moves_with (check_for_checks fuel).

Definition get_all_moves (fuel : nat) : Color -> M (list Pos) :=
  get_all_moves_with (check_for_checks fuel).

(** [Board.highlight_king_in_check]: [Tile] has no [set_check] either. *)
Definition highlight_king_in_check (fuel : nat) (c : Color) : M unit :=
  chk <- check_for_checks fuel c ;;
  if chk then
    king_pos <- find_king c ;;
    match king_pos with
    | Some kp => _ <- get_tile (fst kp) (snd kp) ;; raise AttributeError
    | None => ret tt
    end
  else ret tt.

(** The castling branch of [move_piece]: the piece found on the rook's
    corner, if any, is put on the square the king passed over. *)
Definition castle_rook (from_file to_file r : Z) : M unit :=
  t <- get_tile from_file r ;;
  match get_piece_here t with
  | Some rook =>
      set_piece_here to_file r (Some rook) ;;;
      set_piece_here from_file r None ;;;
      set_current_pos rook (to_file, r)
  | None => ret tt
  end.

(** [Board.move_piece], the block under [# CASTLING]. *)
Definition castling (piece : ref) (before_move_file f r : Z) : M unit :=
  K <- deref piece ;;
  if bool_decide (piece_type K = KING) && (before_move_file =? 4)
  then
    if bool_decide (color K = WHITE) && (r =? 0) && (f =? 6)
    then castle_rook 7 5 0
    else if bool_decide (color K = WHITE) && (r =? 0) && (f =? 2)
    then castle_rook 0 3 0
    else if bool_decide (color K = BLACK) && (r =? 7) && (f =? 6)
    then castle_rook 7 5 7
    else if bool_decide (color K = BLACK) && (r =? 7) && (f =? 2)
    then castle_rook 0 3 7
    else ret tt
  else ret tt.

(** [Board.move_piece], from [# Check if enemy is in check after move] to
    the end: the check indicators, then the history record. *)
Definition indicate_and_record (fuel : nat) (piece : ref)
    (before_move : Pos) (f r : Z) (captured_piece : option ref) : M unit :=
  K <- deref piece ;;
  let enemy_color :=
    if bool_decide (color K = WHITE) then BLACK else WHITE in
  remove_check_indicators ;;;
  chk <- check_for_checks fuel enemy_color ;;
  (if chk then highlight_king_in_check fuel enemy_color else ret tt) ;;;
  chk' <- check_for_checks fuel (color K) ;;
  (if chk' then highlight_king_in_check fuel (color K) else ret tt) ;;;
  fen <- board_state None ;;
  modify (fun b =>
    set_move_history
      (move_history b ++
         [mkMoveRecord (Some piece) (Some before_move) (Some (f, r))
            captured_piece fen]) b) ;;;
  modify (fun b =>
    set_current_index (Z.of_nat (length (move_history b)) - 1) b) ;;;
  modify (set_selected_piece None).

(** [Board.move_piece], the capture of the occupant of the target tile. *)
Definition capture (captured_piece : option ref) : M unit :=
  match captured_piece with
  | Some cp =>
      C <- deref cp ;;
      let piece_val := piece_value (piece_type C) in
      (if bool_decide (color C = WHITE)
       then modify (fun b =>
              set_material_differential
                (material_differential b - piece_val) b)
       else ret tt) ;;;
      (if bool_decide (color C = BLACK)
       then modify (fun b =>
              set_material_differential
                (material_differential b + piece_val) b)
       else ret tt) ;;;
      modify (piece_delete cp)
  | None => ret tt
  end.

(** [Board.move_piece].  [self.selected_piece.get_position()] reads the
    piece's [current_pos]; on [None] the attribute lookup raises. *)
Definition move_piece (fuel : nat) (f r : Z) : M unit :=
  b0 <- get_board ;;
  if negb (is_curr_pos b0) then ret tt
  else
    match selected_piece b0 with
    | None => raise AttributeError
    | Some sel =>
        S0 <- deref sel ;;
        let before_move := current_pos S0 in
        let before_move_rank := snd before_move in
        let before_move_file := fst before_move in
        t <- get_tile f r ;;
        let captured_piece := piece_here t in
        capture captured_piece ;;;
        modify (piece_move sel (f, r)) ;;;
        b1 <- get_board ;;
        set_piece_here f r (selected_piece b1) ;;;
        set_piece_here before_move_file before_move_rank None ;;;
        m <- calculate_material ;;
        modify (set_material_differential m) ;;;
        b2 <- get_board ;;
        match selected_piece b2 with
        | None => raise AttributeError
        | Some piece =>
            castling piece before_move_file f r ;;;
            b3 <- get_board ;;
            match selected_piece b3 with
            | None => raise AttributeError
            | Some piece =>
                indicate_and_record fuel piece before_move f r captured_piece
            end
        end
    end.

End Engine.

(** ** Grid algebra *)

Definition in_bounds (pos : Pos) : Prop :=
  0 <= fst pos < 8 /\ 0 <= snd pos < 8.

Definition in_boundsb (pos : Pos) : bool :=
  (0 <=? fst pos) && (fst pos <? 8) && (0 <=? snd pos) && (snd pos <? 8).

(** The board is eight rows of eight tiles. *)
Definition wf_grid (g : list (list Tile)) : Prop :=
  length g = 8%nat /\ Forall (fun row => length row = 8%nat) g.

Definition gget (g : list (list Tile)) (fi ri : nat) : option Tile :=
  match g !! ri with
  | Some row => row !! fi
  | None => None
  end.

Definition gput (g : list (list Tile)) (fi ri : nat) (o : option ref)
    : list (list Tile) :=
  alter (alter (with_piece_here o) fi) ri g.

(** The occupant of a square, [None] also off the board. *)
Definition occupant (g : list (list Tile)) (pos : Pos) : option ref :=
  match tile_at g (fst pos) (snd pos) with
  | Some t => piece_here t
  | None => None
  end.

Lemma in_boundsb_spec pos : in_boundsb pos = true <-> in_bounds pos.
Proof. unfold in_boundsb, in_bounds. destruct pos as [f r]; simpl. lia. Qed.

Lemma py_index_in_range (n : nat) (i : Z) :
  0 <= i < Z.of_nat n -> py_index n i = Some (Z.to_nat i).
Proof.
  intros H. unfold py_index.
  destruct (0 <=? i) eqn:E1; [|lia].
  destruct (i <? Z.of_nat n) eqn:E2; [reflexivity|lia].
Qed.

Lemma wf_grid_row g ri :
  wf_grid g -> (ri < 8)%nat ->
  exists row, g !! ri = Some row /\ length row = 8%nat.
Proof.
  intros [Hl Hr] Hlt.
  destruct (lookup_lt_is_Some_2 g ri) as [row Hrow]; [lia|].
  exists row. split; [done|].
  rewrite Forall_lookup in Hr. eauto.
Qed.

Lemma wf_grid_gget g fi ri :
  wf_grid g -> (fi < 8)%nat -> (ri < 8)%nat -> exists t, gget g fi ri = Some t.
Proof.
  intros Hg Hf Hr. destruct (wf_grid_row g ri Hg Hr) as (row & Hrow & Hlen).
  unfold gget. rewrite Hrow.
  destruct (lookup_lt_is_Some_2 row fi) as [t Ht]; [lia|]. eauto.
Qed.

Lemma tile_at_gget g pos :
  wf_grid g -> in_bounds pos ->
  tile_at g (fst pos) (snd pos) = gget g (Z.to_nat (fst pos)) (Z.to_nat (snd pos)).
Proof.
  intros Hg [Hf Hr]. unfold tile_at, gget.
  destruct Hg as [Hl Hrows].
  rewrite py_index_in_range by lia.
  destruct (g !! Z.to_nat (snd pos)) as [row|] eqn:Hrow; [|done].
  rewrite Forall_lookup in Hrows. specialize (Hrows _ _ Hrow).
  simpl in Hrows. rewrite py_index_in_range by lia. done.
Qed.

Lemma grid_put_gput g pos o :
  wf_grid g -> in_bounds pos ->
  grid_put g (fst pos) (snd pos) o
  = Some (gput g (Z.to_nat (fst pos)) (Z.to_nat (snd pos)) o).
Proof.
  intros Hg [Hf Hr]. unfold grid_put, gput.
  destruct (wf_grid_row g (Z.to_nat (snd pos)) Hg) as (row & Hrow & Hlen);
    [lia|].
  destruct Hg as [Hl _].
  rewrite py_index_in_range by lia. rewrite Hrow.
  rewrite py_index_in_range by lia. done.
Qed.

Lemma wf_grid_gput g fi ri o : wf_grid g -> wf_grid (gput g fi ri o).
Proof.
  intros [Hl Hr]. split.
  - unfold gput. by rewrite length_alter.
  - unfold gput. rewrite Forall_lookup in Hr. rewrite Forall_lookup.
    intros i row Hrow.
    destruct (decide (ri = i)) as [->|Hne].
    + rewrite list_lookup_alter_eq in Hrow.
      destruct (g !! i) as [row0|] eqn:E; simplify_eq/=.
      rewrite length_alter. eauto.
    + rewrite list_lookup_alter_ne in Hrow by done. eauto.
Qed.

Lemma with_piece_here_id t : with_piece_here (piece_here t) t = t.
Proof. by destruct t. Qed.

Lemma gget_gput_eq g fi ri o t :
  gget g fi ri = Some t -> gget (gput g fi ri o) fi ri = Some (with_piece_here o t).
Proof.
  unfold gget, gput. intros H.
  rewrite list_lookup_alter_eq.
  destruct (g !! ri) as [row|]; [|done]. simpl.
  rewrite list_lookup_alter_eq, H. done.
Qed.

Lemma gget_gput_ne g fi ri fi' ri' o :
  (fi, ri) <> (fi', ri') -> gget (gput g fi ri o) fi' ri' = gget g fi' ri'.
Proof.
  unfold gget, gput. intros H.
  destruct (decide (ri = ri')) as [->|Hne].
  - rewrite list_lookup_alter_eq.
    destruct (g !! ri') as [row|]; [|done]. simpl.
    rewrite list_lookup_alter_ne; [done|]. congruence.
  - by rewrite list_lookup_alter_ne.
Qed.

Lemma gput_id g fi ri t :
  gget g fi ri = Some t -> gput g fi ri (piece_here t) = g.
Proof.
  unfold gget, gput. intros H.
  transitivity (alter (fun row : list Tile => row) ri g).
  - apply list_alter_ext; [|done]. intros row Hrow. rewrite Hrow in H.
    transitivity (alter (fun x : Tile => x) fi row).
    + apply list_alter_ext; [|done]. intros x Hx. rewrite Hx in H.
      simplify_eq. apply with_piece_here_id.
    + by apply list_alter_id.
  - by apply list_alter_id.
Qed.

Lemma gput_gput_eq g fi ri o o' :
  gput (gput g fi ri o') fi ri o = gput g fi ri o.
Proof.
  unfold gput. rewrite list_alter_alter_eq.
  apply list_alter_ext; [|done]. intros row _. simpl.
  rewrite list_alter_alter_eq. apply list_alter_ext; [|done].
  by intros [].
Qed.

Lemma gput_comm g fi ri fi' ri' o o' :
  (fi, ri) <> (fi', ri') ->
  gput (gput g fi ri o) fi' ri' o' = gput (gput g fi' ri' o') fi ri o.
Proof.
  unfold gput. intros H.
  destruct (decide (ri = ri')) as [->|Hne].
  - rewrite !list_alter_alter_eq. apply list_alter_ext; [|done].
    intros row _. simpl. apply list_alter_alter_ne. congruence.
  - by apply list_alter_alter_ne.
Qed.

(** Putting a mover on another square and taking both changes back gives the
    grid one started from. *)
Lemma gput_rollback g fc rc fn rn p tc tn :
  gget g fc rc = Some tc -> piece_here tc = Some p ->
  gget g fn rn = Some tn ->
  gput (gput (gput (gput g fc rc None) fn rn (Some p)) fc rc (Some p))
       fn rn (piece_here tn) = g.
Proof.
  intros Hc Hp Hn.
  destruct (decide ((fc, rc) = (fn, rn))) as [E|E].
  - simplify_eq. rewrite !gput_gput_eq. by apply gput_id.
  - rewrite (gput_comm g fc rc fn rn) by done.
    rewrite gput_gput_eq.
    rewrite (gput_comm (gput g fn rn (Some p)) fc rc fn rn) by done.
    rewrite gput_gput_eq.
    rewrite (gput_comm g fn rn fc rc) by congruence.
    rewrite <- Hp. rewrite (gput_id g fc rc tc) by done.
    by apply gput_id.
Qed.

(** ** Running computations *)

Lemma bind_Ret {A B} (m : M A) (k : A -> M B) b a b' :
  m b = Ret a b' -> bind m k b = k a b'.
Proof. intros H. unfold bind. by rewrite H. Qed.

Lemma bind_Raise {A B} (m : M A) (k : A -> M B) b e b' :
  m b = Raise e b' -> bind m k b = Raise e b'.
Proof. intros H. unfold bind. by rewrite H. Qed.

(** A loop whose body leaves the board as it found it. *)
Lemma for_fold_stable {A S} (l : list A) (body : S -> A -> M S) (b : Board) :
  (forall s x, x ∈ l -> exists s', body s x b = Ret s' b) ->
  forall s, exists s', for_fold l body s b = Ret s' b.
Proof.
  induction l as [|x l IH]; intros Hbody s; simpl.
  - by exists s.
  - destruct (Hbody s x) as [s1 H1]; [by left|].
    rewrite (bind_Ret _ _ _ _ _ H1).
    apply IH. intros s2 y Hy. apply Hbody. by right.
Qed.

(** The same with the value the loop computes. *)
Lemma for_fold_pure {A S} (l : list A) (body : S -> A -> M S)
    (g : S -> A -> S) (b : Board) :
  (forall s x, x ∈ l -> body s x b = Ret (g s x) b) ->
  forall s, for_fold l body s b = Ret (fold_left g l s) b.
Proof.
  induction l as [|x l IH]; intros Hbody s; simpl.
  - done.
  - rewrite (bind_Ret _ _ _ _ _ (Hbody s x ltac:(by left))).
    apply IH. intros s2 y Hy. apply Hbody. by right.
Qed.

Lemma for_first_stable {A R} (l : list A) (body : A -> M (option R))
    (b : Board) :
  (forall x, x ∈ l -> exists o, body x b = Ret o b) ->
  exists o, for_first l body b = Ret o b.
Proof.
  induction l as [|x l IH]; intros Hbody; simpl.
  - by exists None.
  - destruct (Hbody x) as [o H1]; [by left|].
    rewrite (bind_Ret _ _ _ _ _ H1). destruct o as [v|].
    + by exists (Some v).
    + apply IH. intros y Hy. apply Hbody. by right.
Qed.

Lemma range8_bounds x : x ∈ range8 -> 0 <= x < 8.
Proof.
  unfold range8. rewrite !elem_of_cons, elem_of_nil. lia.
Qed.

Lemma get_tile_in_bounds b pos :
  wf_grid (grid b) -> in_bounds pos ->
  exists t, gget (grid b) (Z.to_nat (fst pos)) (Z.to_nat (snd pos)) = Some t
            /\ get_tile (fst pos) (snd pos) b = Ret t b.
Proof.
  intros Hg Hb. unfold get_tile. rewrite tile_at_gget by done.
  destruct Hb as [Hf Hr].
  destruct (wf_grid_gget (grid b) (Z.to_nat (fst pos)) (Z.to_nat (snd pos)) Hg)
    as [t Ht]; [lia|lia|].
  exists t. by rewrite Ht.
Qed.

Lemma set_piece_here_in_bounds b pos o :
  wf_grid (grid b) -> in_bounds pos ->
  set_piece_here (fst pos) (snd pos) o b
  = Ret tt (set_grid (gput (grid b) (Z.to_nat (fst pos)) (Z.to_nat (snd pos)) o) b).
Proof.
  intros Hg Hb. unfold set_piece_here. by rewrite grid_put_gput.
Qed.

Lemma occupant_gget g pos :
  wf_grid g -> in_bounds pos ->
  occupant g pos
  = match gget g (Z.to_nat (fst pos)) (Z.to_nat (snd pos)) with
    | Some t => piece_here t
    | None => None
    end.
Proof. intros Hg Hb. unfold occupant. by rewrite tile_at_gget. Qed.

(** ** Well-formed boards *)

(** The grid is 8 by 8 and the occupant of a tile is a live piece object
    whose [current_pos] is that tile's square. *)
Record wf_board (b : Board) : Prop := mk_wf_board {
  wf_shape : wf_grid (grid b);
  wf_occ : forall fi ri t p,
    gget (grid b) fi ri = Some t -> piece_here t = Some p ->
    exists P, pieces b !! p = Some P
              /\ current_pos P = (Z.of_nat fi, Z.of_nat ri)
}.

(** The piece [p] stands on the square its [current_pos] names. *)
Definition on_board (b : Board) (p : ref) : Prop :=
  exists P, pieces b !! p = Some P
            /\ in_bounds (current_pos P)
            /\ occupant (grid b) (current_pos P) = Some p.

Lemma gget_lt g fi ri t :
  wf_grid g -> gget g fi ri = Some t -> (fi < 8)%nat /\ (ri < 8)%nat.
Proof.
  intros [Hl Hr] H. unfold gget in H.
  destruct (g !! ri) as [row|] eqn:E; [|done].
  pose proof (lookup_lt_Some _ _ _ E) as H1.
  pose proof (lookup_lt_Some _ _ _ H) as H2.
  rewrite Forall_lookup in Hr. specialize (Hr _ _ E). simpl in Hr. lia.
Qed.

Lemma wf_board_on_board b fi ri t p :
  wf_board b -> gget (grid b) fi ri = Some t -> piece_here t = Some p ->
  on_board b p.
Proof.
  intros Hwf Ht Hp. destruct (wf_occ b Hwf fi ri t p Ht Hp) as (P & HP & Hpos).
  destruct (gget_lt _ _ _ _ (wf_shape b Hwf) Ht) as [Hf Hr].
  exists P. split; [done|]. rewrite Hpos.
  assert (Hb : in_bounds (Z.of_nat fi, Z.of_nat ri)).
  { unfold in_bounds; simpl; lia. }
  split; [done|].
  rewrite occupant_gget by (done || apply Hwf). simpl.
  rewrite !Nat2Z.id, Ht. done.
Qed.

(** The board while a move is tried out: the mover [p] stands on [m], its own
    square is empty and the former occupant of [m] is off the grid. *)
Definition speculate (p : ref) (m : Pos) (b : Board) : Board :=
  match pieces b !! p with
  | Some P =>
      let cur := current_pos P in
      set_pieces (alter (with_current_pos m) p (pieces b))
        (set_grid
           (gput (gput (grid b) (Z.to_nat (fst cur)) (Z.to_nat (snd cur)) None)
                 (Z.to_nat (fst m)) (Z.to_nat (snd m)) (Some p))
           b)
  | None => b
  end.

Lemma Z_to_nat_pair_inj (a b c d : Z) :
  0 <= a -> 0 <= b -> 0 <= c -> 0 <= d ->
  (Z.to_nat a, Z.to_nat b) = (Z.to_nat c, Z.to_nat d) -> (a, b) = (c, d).
Proof. intros ? ? ? ? H. simplify_eq. f_equal; lia. Qed.

Lemma speculate_wf p m b :
  wf_board b -> on_board b p -> in_bounds m -> wf_board (speculate p m b).
Proof.
  intros Hwf (P & HP & Hcur & Hocc) Hm. unfold speculate. rewrite HP.
  pose proof (wf_shape b Hwf) as Hg.
  rewrite occupant_gget in Hocc by done.
  destruct (gget (grid b) (Z.to_nat (fst (current_pos P)))
              (Z.to_nat (snd (current_pos P)))) as [tc|] eqn:Htc; [|done].
  split; simpl.
  - by do 2 apply wf_grid_gput.
  - intros fi ri t q Ht Hq.
    destruct (decide ((Z.to_nat (fst m), Z.to_nat (snd m)) = (fi, ri)))
      as [E|E].
    + simplify_eq.
      destruct (wf_grid_gget
                  (gput (grid b) (Z.to_nat (fst (current_pos P)))
                     (Z.to_nat (snd (current_pos P))) None)
                  (Z.to_nat (fst m)) (Z.to_nat (snd m)))
        as [t0 Ht0]; [by apply wf_grid_gput|destruct Hm; lia..|].
      rewrite (gget_gput_eq _ _ _ _ _ Ht0) in Ht. simplify_eq. simpl in Hq.
      simplify_eq. exists (with_current_pos m P). split.
      * rewrite list_lookup_alter_eq, HP. done.
      * simpl. destruct m as [mf mr]. destruct Hm as [Hm1 Hm2].
        simpl in *. f_equal; lia.
    + rewrite gget_gput_ne in Ht by done.
      destruct (decide ((Z.to_nat (fst (current_pos P)),
                         Z.to_nat (snd (current_pos P))) = (fi, ri)))
        as [E'|E'].
      * simplify_eq. rewrite (gget_gput_eq _ _ _ _ _ Htc) in Ht.
        by simplify_eq.
      * rewrite gget_gput_ne in Ht by done.
        destruct (wf_occ b Hwf fi ri t q Ht Hq) as (Q & HQ & HQpos).
        assert (q <> p) as Hne.
        { intros ->. rewrite HP in HQ. simplify_eq.
          apply E'. rewrite HQpos. simpl. by rewrite !Nat2Z.id. }
        exists Q. split; [|done].
        rewrite list_lookup_alter_ne by done. done.
Qed.

Lemma set_grid_pieces_id b : set_pieces (pieces b) (set_grid (grid b) b) = b.
Proof. by destruct b. Qed.

(** ** Simulate, evaluate, roll back *)

Lemma deref_Some b p P : pieces b !! p = Some P -> deref p b = Ret P b.
Proof. intros H. unfold deref. by rewrite H. Qed.

Lemma set_current_pos_Some b p P pos :
  pieces b !! p = Some P ->
  set_current_pos p pos b
  = Ret tt (set_pieces (alter (with_current_pos pos) p (pieces b)) b).
Proof. intros H. unfold set_current_pos. by rewrite H. Qed.

Lemma alter_current_pos_back (ps : list Piece) p P m :
  ps !! p = Some P ->
  alter (with_current_pos (current_pos P)) p (alter (with_current_pos m) p ps)
  = ps.
Proof.
  intros HP. rewrite list_alter_alter_eq.
  transitivity (alter (fun x : Piece => x) p ps).
  - apply list_alter_ext; [|done]. intros x Hx. rewrite HP in Hx.
    simplify_eq. by destruct x.
  - by apply list_alter_id.
Qed.

(** [check_if_move_into_check] returns what the check evaluation returns on
    the board with the move tried out, and hands the board back as it was,
    provided the check evaluation itself leaves its board as it found it. *)
Lemma check_if_move_into_check_with_spec cfc p P m b v :
  wf_board b -> pieces b !! p = Some P -> in_bounds (current_pos P) ->
  occupant (grid b) (current_pos P) = Some p -> in_bounds m ->
  cfc (color P) (speculate p m b) = Ret v (speculate p m b) ->
  check_if_move_into_check_with cfc p m b = Ret v b.
Proof.
  intros Hwf HP Hcur Hocc Hm Hcfc.
  pose proof (wf_shape b Hwf) as Hg.
  rewrite occupant_gget in Hocc by done.
  destruct (gget (grid b) (Z.to_nat (fst (current_pos P)))
              (Z.to_nat (snd (current_pos P)))) as [tc|] eqn:Htc; [|done].
  destruct (get_tile_in_bounds b m Hg Hm) as (tn & Htn & Hget).
  unfold speculate in Hcfc. rewrite HP in Hcfc.
  unfold check_if_move_into_check_with.
  rewrite (bind_Ret _ _ _ _ _ (deref_Some b p P HP)).
  rewrite (bind_Ret _ _ _ _ _ Hget).
  rewrite (bind_Ret _ _ _ _ _ (set_piece_here_in_bounds b _ None Hg Hcur)).
  set (g1 := gput (grid b) _ _ None) in *.
  assert (Hg1 : wf_grid g1) by by apply wf_grid_gput.
  rewrite (bind_Ret _ _ _ _ _
             (set_piece_here_in_bounds (set_grid g1 b) m (Some p) Hg1 Hm)).
  simpl grid.
  set (g2 := gput g1 _ _ (Some p)) in *.
  assert (Hg2 : wf_grid g2) by by apply wf_grid_gput.
  change (set_grid g2 (set_grid g1 b)) with (set_grid g2 b).
  rewrite (bind_Ret _ _ _ _ _
             (set_current_pos_Some (set_grid g2 b) p P m HP)).
  simpl pieces.
  set (b3 := set_pieces _ (set_grid g2 b)) in *.
  assert (HP3 : pieces b3 !! p = Some (with_current_pos m P)).
  { subst b3. simpl. by rewrite list_lookup_alter_eq, HP. }
  rewrite (bind_Ret _ _ _ _ _ (deref_Some b3 p _ HP3)).
  simpl color.
  rewrite (bind_Ret _ _ _ _ _ Hcfc).
  rewrite (bind_Ret _ _ _ _ _
             (set_piece_here_in_bounds b3 _ (Some p) Hg2 Hcur)).
  simpl grid.
  set (g3 := gput g2 _ _ (Some p)).
  assert (Hg3 : wf_grid g3) by by apply wf_grid_gput.
  rewrite (bind_Ret _ _ _ _ _
             (set_piece_here_in_bounds (set_grid g3 b3) m (piece_here tn)
                Hg3 Hm)).
  simpl grid.
  set (g4 := gput g3 _ _ (piece_here tn)).
  assert (Hg4eq : g4 = grid b).
  { subst g4 g3 g2 g1. by apply (gput_rollback _ _ _ _ _ p tc tn). }
  rewrite (bind_Ret _ _ _ _ _
             (set_current_pos_Some (set_grid g4 (set_grid g3 b3)) p _
                (current_pos P) HP3)).
  unfold ret. f_equal. subst b3. simpl pieces.
  rewrite (alter_current_pos_back (pieces b) p P m HP).
  rewrite Hg4eq. by destruct b.
Qed.

Lemma speculate_flag p m b :
  checking_for_checks (speculate p m b) = checking_for_checks b.
Proof. unfold speculate. by destruct (pieces b !! p). Qed.

Lemma fold_left_keep {A} (keep : A -> bool) (l : list A) (acc : list A) :
  fold_left (fun legal x => if keep x then legal ++ [x] else legal) l acc
  = acc ++ List.filter keep l.
Proof.
  revert acc. induction l as [|x l IH]; intros acc; simpl.
  - by rewrite app_nil_r.
  - rewrite IH. destruct (keep x); [|done].
    by rewrite <- app_assoc.
Qed.

Lemma find_king_stable c b :
  wf_grid (grid b) ->
  (forall fi ri t p, gget (grid b) fi ri = Some t -> piece_here t = Some p ->
     is_Some (pieces b !! p)) ->
  exists o, find_king c b = Ret o b.
Proof.
  intros Hg Hlive. unfold find_king.
  apply for_first_stable. intros r Hr.
  apply for_first_stable. intros f Hf.
  apply range8_bounds in Hr, Hf.
  destruct (get_tile_in_bounds b (f, r) Hg) as (t & Ht & Hget);
    [by split|].
  simpl in Hget. rewrite (bind_Ret _ _ _ _ _ Hget).
  destruct (piece_here t) as [p|] eqn:Hp; [|by eexists].
  destruct (Hlive _ _ _ _ Ht Hp) as [P HP].
  rewrite (bind_Ret _ _ _ _ _ (deref_Some b p P HP)).
  destruct (_ && _); by eexists.
Qed.

Lemma wf_board_live b :
  wf_board b ->
  forall fi ri t p, gget (grid b) fi ri = Some t -> piece_here t = Some p ->
    is_Some (pieces b !! p).
Proof.
  intros Hwf fi ri t p Ht Hp.
  destruct (wf_occ b Hwf _ _ _ _ Ht Hp) as (P & HP & _). by exists P.
Qed.

Section Legality.

Variable get_moves : ref -> Board -> list Pos.

(** The pseudo-legal destinations of a piece are squares of the board. *)
Hypothesis get_moves_in_bounds :
  forall p b m, wf_board b -> m ∈ get_moves p b -> in_bounds m.

(** What the check evaluation [cfc] answers for the move [m] of [p] tried
    out on [b]. *)
Definition tried_in_check (cfc : Color -> M bool) (p : ref) (m : Pos)
    (b : Board) : bool :=
  match pieces b !! p with
  | Some P =>
      match cfc (color P) (speculate p m b) with
      | Ret v _ => v
      | _ => false
      end
  | None => false
  end.

(** A check evaluation that answers and leaves the board as it found it, on
    the well-formed boards whose guard flag is [flag]. *)
Definition stable_check (flag : bool) (cfc : Color -> M bool) : Prop :=
  forall c b, wf_board b -> checking_for_checks b = flag ->
    exists v, cfc c b = Ret v b.

Lemma check_if_move_into_check_with_stable flag cfc p m b :
  stable_check flag cfc ->
  wf_board b -> checking_for_checks b = flag -> on_board b p -> in_bounds m ->
  check_if_move_into_check_with cfc p m b
  = Ret (tried_in_check cfc p m b) b.
Proof.
  intros Hst Hwf Hflag Hon Hm.
  pose proof Hon as (P & HP & Hcur & Hocc).
  destruct (Hst (color P) (speculate p m b)) as [v Hv].
  { by apply speculate_wf. }
  { by rewrite speculate_flag. }
  unfold tried_in_check. rewrite HP, Hv.
  by apply (check_if_move_into_check_with_spec cfc p P m b v).
Qed.

Lemma get_all_legal_with_stable flag cfc p b :
  stable_check flag cfc ->
  wf_board b -> checking_for_checks b = flag -> on_board b p ->
  get_all_legal_with get_moves cfc p b
  = Ret (List.filter (fun m => negb (tried_in_check cfc p m b))
           (get_moves p b)) b.
Proof.
  intros Hst Hwf Hflag Hon. unfold get_all_legal_with.
  unfold get_board at 1. unfold bind at 1.
  rewrite (for_fold_pure (get_moves p b) _
             (fun legal m =>
                if negb (tried_in_check cfc p m b) then legal ++ [m]
                else legal)).
  - by rewrite fold_left_keep.
  - intros legal m Hin.
    rewrite (bind_Ret _ _ _ _ _
               (check_if_move_into_check_with_stable flag cfc p m b
                  Hst Hwf Hflag Hon (get_moves_in_bounds p b m Hwf Hin))).
    by destruct (negb _).
Qed.

Lemma get_all_enemy_moves_with_stable flag cfc c b :
  stable_check flag cfc ->
  wf_board b -> checking_for_checks b = flag ->
  exists l, get_all_enemy_moves_with get_moves cfc c b = Ret l b.
Proof.
  intros Hst Hwf Hflag. unfold get_all_enemy_moves_with.
  apply for_fold_stable. intros acc r Hr.
  apply for_fold_stable. intros acc' f Hf.
  apply range8_bounds in Hr, Hf.
  destruct (get_tile_in_bounds b (f, r) (wf_shape b Hwf)) as (t & Ht & Hget);
    [by split|].
  simpl in Hget. rewrite (bind_Ret _ _ _ _ _ Hget).
  destruct (piece_here t) as [p|] eqn:Hp; [|by eexists].
  pose proof (wf_board_on_board b _ _ t p Hwf Ht Hp) as Hon.
  pose proof Hon as (P & HP & _).
  rewrite (bind_Ret _ _ _ _ _ (deref_Some b p P HP)).
  destruct (negb _); [|by eexists].
  rewrite (bind_Ret _ _ _ _ _
             (get_all_legal_with_stable flag cfc p b Hst Hwf Hflag Hon)).
  by eexists.
Qed.

(** The guard: a call made while an evaluation is in flight answers [False]
    at once and touches nothing. *)
Lemma check_for_checks_guard n c b :
  checking_for_checks b = true ->
  check_for_checks get_moves (S n) c b = Ret false b.
Proof.
  intros Hflag. simpl. unfold bind, get_board. by rewrite Hflag.
Qed.

Lemma nested_check_stable n :
  stable_check true (check_for_checks get_moves (S n)).
Proof.
  intros c b _ Hflag. exists false. by apply check_for_checks_guard.
Qed.

Lemma wf_board_set_flag f b :
  wf_board b -> wf_board (set_checking_for_checks f b).
Proof. intros [Hg Ho]. by split. Qed.

Lemma set_flag_back b :
  checking_for_checks b = false ->
  set_checking_for_checks false (set_checking_for_checks true b) = b.
Proof. destruct b; simpl. by intros ->. Qed.

(** With two units of budget the evaluation answers on every well-formed
    board, whatever the guard flag, and hands the board back unchanged. *)
Lemma check_for_checks_stable n c b :
  wf_board b -> exists v, check_for_checks get_moves (S (S n)) c b = Ret v b.
Proof.
  intros Hwf.
  destruct (checking_for_checks b) eqn:Hflag.
  { exists false. by apply check_for_checks_guard. }
  cbn [check_for_checks]. unfold get_board at 1. unfold bind at 1.
  rewrite Hflag. unfold modify at 1. unfold bind at 1.
  set (b1 := set_checking_for_checks true b).
  assert (Hwf1 : wf_board b1) by by apply wf_board_set_flag.
  unfold try_finally.
  destruct (find_king_stable c b1 (wf_shape b1 Hwf1) (wf_board_live b1 Hwf1))
    as [o Ho].
  rewrite (bind_Ret _ _ _ _ _ Ho).
  destruct o as [kp|].
  - destruct (get_all_enemy_moves_with_stable true
                (check_for_checks get_moves (S n)) c b1
                (nested_check_stable n) Hwf1 eq_refl) as [l Hl].
    rewrite (bind_Ret _ _ _ _ _ Hl). unfold ret, modify.
    subst b1. rewrite set_flag_back by done. by eexists.
  - unfold ret, modify. subst b1. rewrite set_flag_back by done. by eexists.
Qed.

Lemma top_check_stable flag n :
  stable_check flag (check_for_checks get_moves (S (S n))).
Proof. intros c b Hwf _. by apply check_for_checks_stable. Qed.

End Legality.

(** ** Construction of the board *)

(** The grid built by [Board.__init__]: one tile per square, light when
    [(file + rank) % 2 == 1]. *)
Definition empty_grid : list (list Tile) :=
  map (fun rank =>
         map (fun file =>
                mkTile file rank ((file + rank) mod 2 =? 1) None
                  false false false) range8) range8.

Definition blank_board : Board :=
  mkBoard empty_grid [] None false None [] (-1) 0 false false None false.

(** [self.grid[rank][file].piece_here = Kind(color, (file, rank))] *)
Definition place (k : PieceType) (c : Color) (f r : Z) : M unit :=
  p <- new_piece (make_piece k c (f, r)) ;;
  set_piece_here f r (Some p).

(** [Board.initialize_pieces] *)
Definition initialize_pieces : M unit :=
  for_each range8 (fun file =>
    place PAWN WHITE file 1 ;;;
    place PAWN BLACK file 6) ;;;
  place KING WHITE 4 0 ;;;
  place KING BLACK 4 7 ;;;
  place QUEEN WHITE 3 0 ;;;
  place QUEEN BLACK 3 7 ;;;
  place ROOK WHITE 0 0 ;;;
  place ROOK WHITE 7 0 ;;;
  place ROOK BLACK 0 7 ;;;
  place ROOK BLACK 7 7 ;;;
  place KNIGHT WHITE 1 0 ;;;
  place KNIGHT WHITE 6 0 ;;;
  place KNIGHT BLACK 1 7 ;;;
  place KNIGHT BLACK 6 7 ;;;
  place BISHOP WHITE 2 0 ;;;
  place BISHOP WHITE 5 0 ;;;
  place BISHOP BLACK 2 7 ;;;
  place BISHOP BLACK 5 7 ;;;
  fen <- board_state None ;;
  modify (fun b =>
    set_move_history
      (move_history b ++ [mkMoveRecord None None None None fen]) b) ;;;
  modify (fun b =>
    set_current_index (Z.of_nat (length (move_history b)) - 1) b).

(** [Board()]: the board a game starts from. *)
Definition new_board : Board :=
  Eval vm_compute in
  match initialize_pieces blank_board with
  | Ret _ b => b
  | Raise _ b => b
  | OutOfFuel => blank_board
  end.

(** ** Standard piece behaviour, for concrete runs *)

(** The colour of the piece on a square, if any. *)
Definition color_at (b : Board) (pos : Pos) : option Color :=
  match occupant (grid b) pos with
  | Some q =>
      match pieces b !! q with
      | Some Q => Some (color Q)
      | None => None
      end
  | None => None
  end.

Definition kind_at (b : Board) (pos : Pos) : option PieceType :=
  match occupant (grid b) pos with
  | Some q =>
      match pieces b !! q with
      | Some Q => Some (piece_type Q)
      | None => None
      end
  | None => None
  end.

(** Modelled from the spec: a sliding piece goes along a direction up to the
    first occupied square, which it takes when an enemy stands there. *)
Fixpoint slide (b : Board) (c : Color) (f r df dr : Z) (n : nat) : list Pos :=
  match n with
  | O => []
  | S n' =>
      let pos := (f + df, r + dr) in
      if in_boundsb pos then
        match color_at b pos with
        | None => pos :: slide b c (f + df) (r + dr) df dr n'
        | Some c' => if bool_decide (c' = c) then [] else [pos]
        end
      else []
  end.

Definition rook_dirs : list (Z * Z) := [(1, 0); (-1, 0); (0, 1); (0, -1)].
Definition bishop_dirs : list (Z * Z) := [(1, 1); (1, -1); (-1, 1); (-1, -1)].
Definition knight_offsets : list (Z * Z) :=
  [(1, 2); (2, 1); (2, -1); (1, -2); (-1, -2); (-2, -1); (-2, 1); (-1, 2)].

Definition slides (b : Board) (c : Color) (pos : Pos) (dirs : list (Z * Z))
    : list Pos :=
  flat_map (fun d => slide b c (fst pos) (snd pos) (fst d) (snd d) 8) dirs.

(** Modelled from the spec: fixed-offset moves onto squares not held by a
    piece of the mover's colour. *)
Definition steps (b : Board) (c : Color) (pos : Pos)
    (offsets : list (Z * Z)) : list Pos :=
  List.filter (fun t => negb (bool_decide (color_at b t = Some c)))
    (map (fun d => (fst pos + fst d, snd pos + snd d)) offsets).

Definition is_empty (b : Board) (pos : Pos) : bool :=
  match occupant (grid b) pos with Some _ => false | None => true end.

Definition is_enemy (b : Board) (c : Color) (pos : Pos) : bool :=
  match color_at b pos with
  | Some c' => negb (bool_decide (c' = c))
  | None => false
  end.

(** Modelled from the spec: a pawn moves one square forward when that square
    is empty, two from its unmoved state when both are empty, takes one square
    diagonally forward when an enemy stands there, and takes en passant onto
    the recorded [en_passant_target] when that is such a diagonal square. *)
Definition pawn_moves (b : Board) (P : Piece) : list Pos :=
  let '(f, r) := current_pos P in
  let d := match color P with WHITE => 1 | BLACK => -1 end in
  let one := (f, r + d) in
  let two := (f, r + 2 * d) in
  let diags := [(f - 1, r + d); (f + 1, r + d)] in
  (if is_empty b one then [one] else [])
  ++ (if is_empty b one && is_empty b two && negb (has_moved P)
      then [two] else [])
  ++ List.filter (fun t =>
       is_enemy b (color P) t
       || bool_decide (en_passant_target b = Some t)) diags.

(** Modelled from the spec: a rook of the king's colour that has not moved
    stands on [corner] and the squares [between] are empty. *)
Definition can_castle (b : Board) (c : Color) (corner : Pos)
    (between : list Pos) : bool :=
  match occupant (grid b) corner with
  | Some q =>
      match pieces b !! q with
      | Some Q =>
          bool_decide (piece_type Q = ROOK) && bool_decide (color Q = c)
          && negb (has_moved Q) && forallb (is_empty b) between
      | None => false
      end
  | None => false
  end.

Definition king_offsets : list (Z * Z) :=
  [(1, 0); (1, 1); (0, 1); (-1, 1); (-1, 0); (-1, -1); (0, -1); (1, -1)].

(** Modelled from the spec: the king steps to the eight neighbours and, not
    having moved, castles towards a rook that has not moved over empty
    squares. *)
Definition king_moves (b : Board) (P : Piece) : list Pos :=
  let '(f, r) := current_pos P in
  steps b (color P) (f, r) king_offsets
  ++ (if negb (has_moved P)
         && can_castle b (color P) (7, r) [(f + 1, r); (f + 2, r)]
      then [(f + 2, r)] else [])
  ++ (if negb (has_moved P)
         && can_castle b (color P) (0, r) [(f - 1, r); (f - 2, r); (f - 3, r)]
      then [(f - 2, r)] else []).

(** Modelled from the spec: [piece.get_moves(board)] of section 4.2, the
    pseudo-legal destinations of a piece on the board; the piece classes are
    not among the embedded sources.  No filtering for self-check. *)
Definition std_get_moves (p : ref) (b : Board) : list Pos :=
  match pieces b !! p with
  | None => []
  | Some P =>
      List.filter in_boundsb
        match piece_type P with
        | KING => king_moves b P
        | QUEEN => slides b (color P) (current_pos P) (rook_dirs ++ bishop_dirs)
        | ROOK => slides b (color P) (current_pos P) rook_dirs
        | BISHOP => slides b (color P) (current_pos P) bishop_dirs
        | KNIGHT => steps b (color P) (current_pos P) knight_offsets
        | PAWN => pawn_moves b P
        end
  end.

(** Modelled from the spec: [piece.move(pos, board)], the relocation hook: the
    piece records its new square and that it has moved. *)
Definition std_piece_move (p : ref) (pos : Pos) (b : Board) : Board :=
  set_pieces
    (alter (fun P => with_has_moved true (with_current_pos pos P)) p
       (pieces b)) b.

(** Modelled from the spec: [piece.delete()]; the board keeps no trace of a
    captured piece beyond the history record that names it. *)
Definition std_piece_delete (p : ref) (b : Board) : Board := b.

(** ** Termination of the check evaluation *)

(** The outcome is not a budget overrun and leaves the guard flag set. *)
Definition flagged {A} (r : result A) : Prop :=
  match r with
  | Ret _ b => checking_for_checks b = true
  | Raise _ b => checking_for_checks b = true
  | OutOfFuel => False
  end.

Definition keeps_flag {A} (m : M A) : Prop :=
  forall b, checking_for_checks b = true -> flagged (m b).

(** The computation only reads the board: it returns or raises on the board
    it was given. *)
Definition readonly {A} (m : M A) : Prop :=
  forall b, (exists a, m b = Ret a b) \/ (exists e, m b = Raise e b).

Lemma keeps_flag_bind {A B} (m : M A) (k : A -> M B) :
  keeps_flag m -> (forall a, keeps_flag (k a)) -> keeps_flag (bind m k).
Proof.
  intros Hm Hk b Hb. unfold bind. specialize (Hm b Hb).
  destruct (m b) as [a b'|e b'|]; simpl in *; [|done|done].
  by apply Hk.
Qed.

Lemma keeps_flag_ret {A} (a : A) : keeps_flag (ret a).
Proof. by intros b Hb. Qed.

Lemma keeps_flag_raise {A} e : keeps_flag (@raise A e).
Proof. by intros b Hb. Qed.

Lemma keeps_flag_get_board : keeps_flag get_board.
Proof. by intros b Hb. Qed.

Lemma keeps_flag_get_tile f r : keeps_flag (get_tile f r).
Proof. intros b Hb. unfold get_tile. by destruct (tile_at _ _ _). Qed.

Lemma keeps_flag_deref p : keeps_flag (deref p).
Proof. intros b Hb. unfold deref. by destruct (_ !! _). Qed.

Lemma keeps_flag_set_piece_here f r o : keeps_flag (set_piece_here f r o).
Proof. intros b Hb. unfold set_piece_here. by destruct (grid_put _ _ _ _). Qed.

Lemma keeps_flag_set_current_pos p pos : keeps_flag (set_current_pos p pos).
Proof. intros b Hb. unfold set_current_pos. by destruct (_ !! _). Qed.

Lemma keeps_flag_for_fold {A S} (l : list A) (body : S -> A -> M S) :
  (forall s x, keeps_flag (body s x)) -> forall s, keeps_flag (for_fold l body s).
Proof.
  intros Hbody. induction l as [|x l IH]; intros s; simpl.
  - apply keeps_flag_ret.
  - apply keeps_flag_bind; [apply Hbody|apply IH].
Qed.

Create HintDb flag_db.
#[local] Hint Resolve keeps_flag_ret keeps_flag_raise keeps_flag_get_board
  keeps_flag_get_tile keeps_flag_deref keeps_flag_set_piece_here
  keeps_flag_set_current_pos : flag_db.

Ltac keeps_flag_steps :=
  repeat first
    [ apply keeps_flag_bind; [|intros ?]
    | progress eauto with flag_db ].

Lemma keeps_flag_check_if_move_into_check cfc p m :
  (forall c, keeps_flag (cfc c)) ->
  keeps_flag (check_if_move_into_check_with cfc p m).
Proof.
  intros Hcfc. unfold check_if_move_into_check_with. keeps_flag_steps.
Qed.

Lemma keeps_flag_get_all_legal gm cfc p :
  (forall c, keeps_flag (cfc c)) ->
  keeps_flag (get_all_legal_with gm cfc p).
Proof.
  intros Hcfc. unfold get_all_legal_with.
  apply keeps_flag_bind; [apply keeps_flag_get_board|intros b].
  apply keeps_flag_for_fold. intros legal m.
  apply keeps_flag_bind;
    [by apply keeps_flag_check_if_move_into_check|intros c].
  destruct (negb c); apply keeps_flag_ret.
Qed.

Lemma keeps_flag_get_all_enemy_moves gm cfc c :
  (forall c', keeps_flag (cfc c')) ->
  keeps_flag (get_all_enemy_moves_with gm cfc c).
Proof.
  intros Hcfc. unfold get_all_enemy_moves_with.
  apply keeps_flag_for_fold. intros acc r.
  apply keeps_flag_for_fold. intros acc' f.
  apply keeps_flag_bind; [apply keeps_flag_get_tile|intros t].
  destruct (piece_here t) as [p|]; [|apply keeps_flag_ret].
  apply keeps_flag_bind; [apply keeps_flag_deref|intros P].
  destruct (negb _); [|apply keeps_flag_ret].
  apply keeps_flag_bind; [by apply keeps_flag_get_all_legal|intros l].
  apply keeps_flag_ret.
Qed.

Lemma keeps_flag_check_for_checks gm n c :
  keeps_flag (check_for_checks gm (S n) c).
Proof.
  intros b Hb. simpl. unfold bind, get_board. by rewrite Hb.
Qed.

Lemma readonly_bind {A B} (m : M A) (k : A -> M B) :
  readonly m -> (forall a, readonly (k a)) -> readonly (bind m k).
Proof.
  intros Hm Hk b. unfold bind.
  destruct (Hm b) as [[a ->]|[e ->]]; [apply Hk|right; by eexists].
Qed.

Lemma readonly_ret {A} (a : A) : readonly (ret a).
Proof. intros b. left. by eexists. Qed.

Lemma readonly_raise {A} e : readonly (@raise A e).
Proof. intros b. right. by eexists. Qed.

Lemma readonly_get_tile f r : readonly (get_tile f r).
Proof.
  intros b. unfold get_tile.
  destruct (tile_at _ _ _); [left|right]; by eexists.
Qed.

Lemma readonly_deref p : readonly (deref p).
Proof.
  intros b. unfold deref. destruct (_ !! _); [left|right]; by eexists.
Qed.

Lemma readonly_get_board : readonly get_board.
Proof. intros b. left. by eexists. Qed.

Lemma readonly_for_fold {A S} (l : list A) (body : S -> A -> M S) :
  (forall s x, readonly (body s x)) -> forall s, readonly (for_fold l body s).
Proof.
  intros Hbody. induction l as [|x l IH]; intros s; simpl.
  - apply readonly_ret.
  - apply readonly_bind; [apply Hbody|apply IH].
Qed.

Lemma readonly_for_first {A R} (l : list A) (body : A -> M (option R)) :
  (forall x, readonly (body x)) -> readonly (for_first l body).
Proof.
  intros Hbody. induction l as [|x l IH]; simpl.
  - apply readonly_ret.
  - apply readonly_bind; [apply Hbody|intros [v|]];
      [apply readonly_ret|apply IH].
Qed.

Lemma readonly_find_king c : readonly (find_king c).
Proof.
  unfold find_king. apply readonly_for_first. intros r.
  apply readonly_for_first. intros f.
  apply readonly_bind; [apply readonly_get_tile|intros t].
  destruct (piece_here t); [|apply readonly_ret].
  apply readonly_bind; [apply readonly_deref|intros P].
  destruct (_ && _); apply readonly_ret.
Qed.

Lemma readonly_calculate_material : readonly calculate_material.
Proof.
  unfold calculate_material.
  apply readonly_bind; [|intros; apply readonly_ret].
  apply readonly_for_fold. intros acc r.
  apply readonly_for_fold. intros acc' f.
  apply readonly_bind; [apply readonly_get_tile|intros t].
  destruct (piece_here t); [|apply readonly_ret].
  apply readonly_bind; [apply readonly_deref|intros P].
  destruct (bool_decide _); apply readonly_ret.
Qed.

Lemma check_for_checks_unfold gm n c :
  check_for_checks gm (S n) c
  = (b <- get_board ;;
     if checking_for_checks b then ret false
     else
       modify (set_checking_for_checks true) ;;;
       try_finally
         (king_pos <- find_king c ;;
          match king_pos with
          | None => ret false
          | Some kp =>
              enemy_moves <-
                get_all_enemy_moves_with gm (check_for_checks gm n) c ;;
              ret (bool_decide (kp ∈ enemy_moves))
          end)
         (modify (set_checking_for_checks false))).
Proof. reflexivity. Qed.

Lemma check_for_checks_terminates gm n c b :
  check_for_checks gm (S (S n)) c b <> OutOfFuel.
Proof.
  destruct (checking_for_checks b) eqn:Hflag.
  { by rewrite (check_for_checks_guard gm (S n) c b Hflag). }
  rewrite check_for_checks_unfold.
  pose proof (keeps_flag_check_for_checks gm n) as Hcfc.
  set (cfc := check_for_checks gm (S n)) in *.
  unfold get_board at 1. unfold bind at 1.
  rewrite Hflag. unfold modify at 1. unfold bind at 1.
  set (b1 := set_checking_for_checks true b).
  unfold try_finally, modify.
  destruct (readonly_find_king c b1) as [[o Ho]|[e He]].
  - rewrite (bind_Ret _ _ _ _ _ Ho). destruct o as [kp|]; [|done].
    pose proof (keeps_flag_get_all_enemy_moves gm cfc c Hcfc b1 eq_refl)
      as Hfl.
    unfold bind.
    destruct (get_all_enemy_moves_with gm cfc c b1)
      as [l b2|e b2|]; simpl in Hfl; [| |done]; unfold ret; discriminate.
  - by rewrite (bind_Raise _ _ _ _ _ He).
Qed.

(** ** Deciding well-formedness, for concrete boards *)

Definition wf_gridb (g : list (list Tile)) : bool :=
  (length g =? 8)%nat && forallb (fun row => (length row =? 8)%nat) g.

Definition wf_boardb (b : Board) : bool :=
  wf_gridb (grid b)
  && forallb (fun ri =>
       forallb (fun fi =>
         match gget (grid b) fi ri with
         | Some t =>
             match piece_here t with
             | Some p =>
                 match pieces b !! p with
                 | Some P =>
                     bool_decide
                       (current_pos P = (Z.of_nat fi, Z.of_nat ri))
                 | None => false
                 end
             | None => true
             end
         | None => false
         end) (seq 0 8)) (seq 0 8).

Lemma wf_gridb_sound g : wf_gridb g = true -> wf_grid g.
Proof.
  unfold wf_gridb. rewrite andb_true_iff, Nat.eqb_eq, forallb_forall.
  intros [Hl Hr]. split; [done|].
  rewrite Forall_forall. intros row Hin.
  apply Nat.eqb_eq, Hr. by apply list_elem_of_In.
Qed.

Lemma wf_boardb_sound b : wf_boardb b = true -> wf_board b.
Proof.
  unfold wf_boardb. rewrite andb_true_iff. intros [Hg Ho].
  apply wf_gridb_sound in Hg. split; [done|].
  intros fi ri t p Ht Hp.
  destruct (gget_lt _ _ _ _ Hg Ht) as [Hf Hr].
  rewrite forallb_forall in Ho.
  specialize (Ho ri ltac:(apply in_seq; lia)).
  rewrite forallb_forall in Ho.
  specialize (Ho fi ltac:(apply in_seq; lia)).
  rewrite Ht, Hp in Ho.
  destruct (pieces b !! p) as [P|]; [|done].
  apply bool_decide_eq_true in Ho. by exists P.
Qed.

Lemma std_get_moves_in_bounds p b m :
  wf_board b -> m ∈ std_get_moves p b -> in_bounds m.
Proof.
  intros _. unfold std_get_moves.
  destruct (pieces b !! p) as [P|]; [|by rewrite elem_of_nil].
  rewrite list_elem_of_In, filter_In. intros [_ H].
  by apply in_boundsb_spec.
Qed.

Lemma new_board_wf : wf_board new_board.
Proof. apply wf_boardb_sound. vm_compute. reflexivity. Qed.

(** The computation never overruns the recursion budget. *)
Definition terminates {A} (m : M A) : Prop := forall b, m b <> OutOfFuel.

Lemma terminates_bind {A B} (m : M A) (k : A -> M B) :
  terminates m -> (forall a, terminates (k a)) -> terminates (bind m k).
Proof.
  intros Hm Hk b. unfold bind. specialize (Hm b).
  destruct (m b) as [a b'|e b'|]; [apply Hk|done|done].
Qed.

Lemma terminates_for_fold {A S} (l : list A) (body : S -> A -> M S) :
  (forall s x, terminates (body s x)) ->
  forall s, terminates (for_fold l body s).
Proof.
  intros Hbody. induction l as [|x l IH]; intros s; simpl.
  - by intros b.
  - apply terminates_bind; [apply Hbody|apply IH].
Qed.

Lemma terminates_get_tile f r : terminates (get_tile f r).
Proof. intros b. unfold get_tile. by destruct (tile_at _ _ _). Qed.

Lemma terminates_deref p : terminates (deref p).
Proof. intros b. unfold deref. by destruct (_ !! _). Qed.

Lemma terminates_set_piece_here f r o : terminates (set_piece_here f r o).
Proof. intros b. unfold set_piece_here. by destruct (grid_put _ _ _ _). Qed.

Lemma terminates_set_current_pos p pos : terminates (set_current_pos p pos).
Proof. intros b. unfold set_current_pos. by destruct (_ !! _). Qed.

Lemma terminates_ret {A} (a : A) : terminates (ret a).
Proof. by intros b. Qed.

Lemma terminates_check_if_move_into_check cfc p m :
  (forall c, terminates (cfc c)) ->
  terminates (check_if_move_into_check_with cfc p m).
Proof.
  intros Hcfc. unfold check_if_move_into_check_with.
  repeat first
    [ apply terminates_bind; [|intros ?]
    | apply terminates_get_tile | apply terminates_deref
    | apply terminates_set_piece_here | apply terminates_set_current_pos
    | apply terminates_ret | apply Hcfc ].
Qed.

Lemma terminates_get_all_legal gm cfc p :
  (forall c, terminates (cfc c)) -> terminates (get_all_legal_with gm cfc p).
Proof.
  intros Hcfc. unfold get_all_legal_with.
  apply terminates_bind; [by intros b|intros b].
  apply terminates_for_fold. intros legal m.
  apply terminates_bind;
    [by apply terminates_check_if_move_into_check|intros c].
  destruct (negb c); apply terminates_ret.
Qed.

Lemma terminates_get_all_enemy_moves gm cfc c :
  (forall c', terminates (cfc c')) ->
  terminates (get_all_enemy_moves_with gm cfc c).
Proof.
  intros Hcfc. unfold get_all_enemy_moves_with.
  apply terminates_for_fold. intros acc r.
  apply terminates_for_fold. intros acc' f.
  apply terminates_bind; [apply terminates_get_tile|intros t].
  destruct (piece_here t) as [p|]; [|apply terminates_ret].
  apply terminates_bind; [apply terminates_deref|intros P].
  destruct (negb _); [|apply terminates_ret].
  apply terminates_bind; [by apply terminates_get_all_legal|intros l].
  apply terminates_ret.
Qed.

(** What [check_if_move_into_check] answers for a move. *)
Definition moves_into_check (gm : ref -> Board -> list Pos) (fuel : nat)
    (p : ref) (m : Pos) (b : Board) : bool :=
  match check_if_move_into_check gm fuel p m b with
  | Ret v _ => v
  | _ => false
  end.

(** ** The legality engine: claims *)

(** C4 (speculation rollback).  On a well-formed board, for a piece standing
    on its square and an in-bounds target, [check_if_move_into_check] returns
    a boolean and the board it leaves is the board it was given: tile
    occupancy, the store of the pieces and with it the mover's [current_pos],
    [en_passant_target], [move_history], [current_index],
    [material_differential] and the guard flag are all as before the call. *)
Theorem check_if_move_into_check_rollback
    (gm : ref -> Board -> list Pos)
    (Hgm : forall p b m, wf_board b -> m ∈ gm p b -> in_bounds m)
    (n : nat) (p : ref) (m : Pos) (b : Board) :
  wf_board b -> on_board b p -> in_bounds m ->
  exists v, check_if_move_into_check gm (S (S n)) p m b = Ret v b.
Proof.
  intros Hwf Hon Hm. exists (tried_in_check (check_for_checks gm (S (S n))) p m b).
  apply (check_if_move_into_check_with_stable (checking_for_checks b));
    try done.
  by apply top_check_stable.
Qed.

Lemma new_board_e2_on_board : on_board new_board 8%nat.
Proof.
  exists (mkPiece WHITE PAWN (4, 1) false).
  split; [reflexivity|]. split; [|reflexivity].
  unfold in_bounds; simpl; lia.
Qed.

Lemma check_if_move_into_check_rollback_witness :
  wf_board new_board /\ on_board new_board 8%nat /\ in_bounds (4, 3)
  /\ exists v,
       check_if_move_into_check std_get_moves 2 8%nat (4, 3) new_board
       = Ret v new_board.
Proof.
  split; [apply new_board_wf|].
  split; [apply new_board_e2_on_board|].
  split; [unfold in_bounds; simpl; lia|].
  apply (check_if_move_into_check_rollback std_get_moves
           std_get_moves_in_bounds 0 8%nat (4, 3) new_board).
  - apply new_board_wf.
  - apply new_board_e2_on_board.
  - unfold in_bounds; simpl; lia.
Defined.

(** C1 (legality closure).  On a well-formed board, for a piece standing on
    its square, [get_all_legal] returns exactly the pseudo-legal destinations
    of the piece for which [check_if_move_into_check] answers [False], in
    their order, and leaves the board unchanged; for each returned move,
    [check_for_checks] for the mover's colour answers [False] on the board
    with the move tried out. *)
Theorem get_all_legal_closure
    (gm : ref -> Board -> list Pos)
    (Hgm : forall p b m, wf_board b -> m ∈ gm p b -> in_bounds m)
    (n : nat) (p : ref) (P : Piece) (b : Board) :
  wf_board b -> on_board b p -> pieces b !! p = Some P ->
  get_all_legal gm (S (S n)) p b
  = Ret (List.filter (fun m => negb (moves_into_check gm (S (S n)) p m b))
           (gm p b)) b
  /\ forall m,
       In m (List.filter (fun m => negb (moves_into_check gm (S (S n)) p m b))
               (gm p b)) ->
       In m (gm p b)
       /\ check_if_move_into_check gm (S (S n)) p m b = Ret false b
       /\ check_for_checks gm (S (S n)) (color P) (speculate p m b)
          = Ret false (speculate p m b).
Proof.
  intros Hwf Hon HP.
  pose proof (top_check_stable gm Hgm (checking_for_checks b) n) as Hst.
  assert (Hcimic : forall m, In m (gm p b) ->
            check_if_move_into_check gm (S (S n)) p m b
            = Ret (tried_in_check (check_for_checks gm (S (S n))) p m b) b).
  { intros m Hin.
    apply (check_if_move_into_check_with_stable (checking_for_checks b));
      try done.
    apply (Hgm p b m Hwf). by apply list_elem_of_In. }
  assert (Hext : List.filter
                   (fun m => negb (moves_into_check gm (S (S n)) p m b))
                   (gm p b)
                 = List.filter
                     (fun m =>
                        negb (tried_in_check (check_for_checks gm (S (S n)))
                                p m b))
                     (gm p b)).
  { apply filter_ext_in. intros m Hin. unfold moves_into_check.
    by rewrite (Hcimic m Hin). }
  split.
  - rewrite Hext.
    by apply (get_all_legal_with_stable gm Hgm (checking_for_checks b)).
  - intros m Hin. rewrite Hext in Hin. apply filter_In in Hin.
    destruct Hin as [Hin Hneg]. apply negb_true_iff in Hneg.
    split; [done|]. split.
    + by rewrite (Hcimic m Hin), Hneg.
    + destruct (Hst (color P) (speculate p m b)) as [v Hv].
      { apply speculate_wf; try done.
        apply (Hgm p b m Hwf). by apply list_elem_of_In. }
      { by rewrite speculate_flag. }
      unfold tried_in_check in Hneg. rewrite HP, Hv in Hneg.
      by rewrite Hv, Hneg.
Qed.

Lemma get_all_legal_closure_witness :
  wf_board new_board /\ on_board new_board 8%nat
  /\ get_all_legal std_get_moves 2 8%nat new_board
     = Ret (List.filter
              (fun m => negb (moves_into_check std_get_moves 2 8%nat m new_board))
              (std_get_moves 8%nat new_board)) new_board.
Proof.
  split; [apply new_board_wf|].
  split; [apply new_board_e2_on_board|].
  apply (get_all_legal_closure std_get_moves std_get_moves_in_bounds 0 8%nat
           (mkPiece WHITE PAWN (4, 1) false) new_board).
  - apply new_board_wf.
  - apply new_board_e2_on_board.
  - reflexivity.
Defined.

(** C7 (re-entrancy short-circuit).  A call of [check_for_checks] made while
    the guard flag is set returns [False] at once, on the board untouched and
    whatever the pieces' move generators are; and with that, two units of
    recursion budget are enough for every method of the cycle
    [check_for_checks], [get_all_enemy_moves], [get_all_legal],
    [check_if_move_into_check] to finish on every board. *)
Theorem check_for_checks_reentrancy
    (gm : ref -> Board -> list Pos) (n : nat) (c : Color) (b : Board) :
  (checking_for_checks b = true ->
   check_for_checks gm (S n) c b = Ret false b)
  /\ check_for_checks gm (S (S n)) c b <> OutOfFuel
  /\ get_all_enemy_moves gm (S (S n)) c b <> OutOfFuel
  /\ (forall p, get_all_legal gm (S (S n)) p b <> OutOfFuel)
  /\ (forall p m, check_if_move_into_check gm (S (S n)) p m b <> OutOfFuel).
Proof.
  assert (Hterm : forall c', terminates (check_for_checks gm (S (S n)) c')).
  { intros c' b'. apply check_for_checks_terminates. }
  split; [apply check_for_checks_guard|].
  split; [apply check_for_checks_terminates|].
  split; [by apply terminates_get_all_enemy_moves|].
  split; [intros p; by apply terminates_get_all_legal|].
  intros p m. by apply terminates_check_if_move_into_check.
Qed.

Lemma check_for_checks_reentrancy_witness :
  checking_for_checks (set_checking_for_checks true new_board) = true
  /\ check_for_checks std_get_moves 1 WHITE
       (set_checking_for_checks true new_board)
     = Ret false (set_checking_for_checks true new_board).
Proof.
  split; [reflexivity|].
  apply (proj1 (check_for_checks_reentrancy std_get_moves 0 WHITE
                  (set_checking_for_checks true new_board))).
  reflexivity.
Defined.

(** C9 (resignation).  [resign(c)] sets [resigned], sets [checkmate] as well,
    and records the opposite colour as [mate_color]; the grid and the pieces
    are not looked at, so the board reports a checkmate that was not detected
    on it. *)
Theorem resign_sets_checkmate (c : Color) (b : Board) :
  exists b', resign c b = Ret tt b'
    /\ resigned b' = true
    /\ checkmate b' = true
    /\ mate_color b' = Some (opposite c)
    /\ grid b' = grid b /\ pieces b' = pieces b
    /\ stalemate b' = stalemate b.
Proof. eexists. split; [reflexivity|]. by repeat split. Qed.

Lemma new_board_is_constructed : initialize_pieces blank_board = Ret tt new_board.
Proof. vm_compute. reflexivity. Qed.

(** ** The history-browsing guard *)

(** The board of a game one move old whose view was taken back to the initial
    position: two history records, [current_index] on the first. *)
Definition history_view : Board :=
  set_current_index 0
    (set_move_history
       (move_history new_board
        ++ [mkMoveRecord (Some 8%nat) (Some (4, 1)) (Some (4, 3)) None
              "rnbqkbnr/pppppppp/8/8/4P3/8/PPPP1PPP/RNBQKBNR"])
       new_board).

(** The outcome of a computation with the board it leaves transformed. *)
Definition on_state {A} (f : Board -> Board) (r : result A) : result A :=
  match r with
  | Ret a b => Ret a (f b)
  | Raise e b => Raise e (f b)
  | OutOfFuel => OutOfFuel
  end.

Lemma en_passant_ignores_index piece new_pos i b :
  en_passant piece new_pos (set_current_index i b)
  = on_state (set_current_index i) (en_passant piece new_pos b).
Proof.
  destruct b. unfold en_passant, bind, deref, get_board, set_piece_here,
    set_current_pos, set_has_moved, modify, ret, on_state; simpl.
  repeat (case_match; simplify_eq/=; try done).
Qed.

Lemma promote_ignores_index c f r i b :
  promote c f r (set_current_index i b)
  = on_state (set_current_index i) (promote c f r b).
Proof.
  destruct b. unfold promote, bind, new_piece, set_piece_here, on_state; simpl.
  by case_match.
Qed.

Lemma resign_ignores_index c i b :
  resign c (set_current_index i b)
  = on_state (set_current_index i) (resign c b).
Proof. by destruct b. Qed.

(** C3, as the code has it.  While the view is not on the last history record
    [move_piece] returns at once and the board is untouched.  [en_passant],
    [promote] and [resign] carry no such test: they neither read nor write
    [current_index], so they act on a historical view as on the live one. *)
Theorem browsing_guard_move_piece_only
    (gm : ref -> Board -> list Pos)
    (pm : ref -> Pos -> Board -> Board) (pd : ref -> Board -> Board)
    (fuel : nat) (f r : Z) (b : Board) :
  is_curr_pos b = false ->
  move_piece gm pm pd fuel f r b = Ret tt b
  /\ (forall i piece new_pos,
        en_passant piece new_pos (set_current_index i b)
        = on_state (set_current_index i) (en_passant piece new_pos b))
  /\ (forall i c f' r',
        promote c f' r' (set_current_index i b)
        = on_state (set_current_index i) (promote c f' r' b))
  /\ (forall i c,
        resign c (set_current_index i b)
        = on_state (set_current_index i) (resign c b)).
Proof.
  intros Hcur. split.
  - unfold move_piece, bind, get_board. by rewrite Hcur.
  - split; [intros; apply en_passant_ignores_index|].
    split; [intros; apply promote_ignores_index|].
    intros; apply resign_ignores_index.
Qed.

Lemma browsing_guard_move_piece_only_witness :
  is_curr_pos history_view = false
  /\ move_piece std_get_moves std_piece_move std_piece_delete 2 4 3
       (set_selected_piece (Some 8%nat) history_view)
     = Ret tt (set_selected_piece (Some 8%nat) history_view).
Proof.
  split; [reflexivity|].
  apply (proj1 (browsing_guard_move_piece_only std_get_moves std_piece_move
                  std_piece_delete 2 4 3
                  (set_selected_piece (Some 8%nat) history_view) eq_refl)).
Defined.

(** C3 as stated fails: on a board whose view is on the first of two history
    records, [resign], [promote] and [en_passant] all change the board. *)
Lemma browsing_guard_counterexample :
  is_curr_pos history_view = false
  /\ (exists b', resign WHITE history_view = Ret tt b'
                 /\ resigned history_view = false /\ resigned b' = true
                 /\ checkmate history_view = false /\ checkmate b' = true)
  /\ (exists b', promote WHITE 0 1 history_view = Ret tt b'
                 /\ occupant (grid history_view) (0, 1) = Some 0%nat
                 /\ occupant (grid b') (0, 1) = Some 32%nat)
  /\ (exists b', en_passant 8%nat (4, 2) history_view = Ret tt b'
                 /\ occupant (grid history_view) (4, 2) = None
                 /\ occupant (grid b') (4, 2) = Some 8%nat).
Proof.
  split; [reflexivity|].
  split; [eexists; split; [reflexivity|by repeat split]|].
  split; eexists; (split; [vm_compute; reflexivity|by split]).
Qed.

(** ** Invariants of computations *)

(** [m] finishes, by returning or raising, and keeps [Q]. *)
Definition preserves {A} (Q : Board -> Prop) (m : M A) : Prop :=
  forall b, Q b ->
    match m b with
    | Ret _ b' => Q b'
    | Raise _ b' => Q b'
    | OutOfFuel => False
    end.

(** [m] leaves by an exception, keeping [Q]. *)
Definition raises {A} (Q : Board -> Prop) (m : M A) : Prop :=
  forall b, Q b -> exists e b', m b = Raise e b' /\ Q b'.

Section Preserves.

Variable Q : Board -> Prop.

Lemma preserves_bind {A B} (m : M A) (k : A -> M B) :
  preserves Q m -> (forall a, preserves Q (k a)) -> preserves Q (bind m k).
Proof.
  intros Hm Hk b Hb. unfold bind. specialize (Hm b Hb).
  destruct (m b) as [a b'|e b'|]; [by apply Hk|done|done].
Qed.

Lemma preserves_ret {A} (a : A) : preserves Q (ret a).
Proof. by intros b Hb. Qed.

Lemma preserves_raise {A} e : preserves Q (@raise A e).
Proof. by intros b Hb. Qed.

Lemma preserves_readonly {A} (m : M A) : readonly m -> preserves Q m.
Proof. intros Hm b Hb. by destruct (Hm b) as [[a ->]|[e ->]]. Qed.

Lemma preserves_modify (f : Board -> Board) :
  (forall b, Q b -> Q (f b)) -> preserves Q (modify f).
Proof. intros Hf b Hb. by apply Hf. Qed.

Lemma preserves_set_piece_here f r o :
  (forall b g, Q b -> grid_put (grid b) f r o = Some g -> Q (set_grid g b)) ->
  preserves Q (set_piece_here f r o).
Proof.
  intros H b Hb. unfold set_piece_here.
  destruct (grid_put _ _ _ _) eqn:E; [by apply H|done].
Qed.

Lemma preserves_set_current_pos p pos :
  (forall b ps, Q b -> Q (set_pieces ps b)) ->
  preserves Q (set_current_pos p pos).
Proof.
  intros H b Hb. unfold set_current_pos. destruct (_ !! _); [by apply H|done].
Qed.

Lemma raises_bind_l {A B} (m : M A) (k : A -> M B) :
  raises Q m -> raises Q (bind m k).
Proof.
  intros Hm b Hb. destruct (Hm b Hb) as (e & b' & He & Hb').
  exists e, b'. by rewrite (bind_Raise _ _ _ _ _ He).
Qed.

Lemma raises_bind_r {A B} (m : M A) (k : A -> M B) :
  preserves Q m -> (forall a, raises Q (k a)) -> raises Q (bind m k).
Proof.
  intros Hm Hk b Hb. unfold bind. specialize (Hm b Hb).
  destruct (m b) as [a b'|e b'|]; [by apply Hk|by eexists _, _|done].
Qed.

Lemma raises_raise {A} e : raises Q (@raise A e).
Proof. intros b Hb. by exists e, b. Qed.

(** [remove_check_indicators] never gets past the first tile: either the
    tile cannot be fetched, or it has no [clear_check]. *)
Lemma raises_remove_check_indicators : raises Q remove_check_indicators.
Proof.
  intros b Hb. unfold remove_check_indicators, for_each. simpl.
  unfold bind, get_tile, raise.
  destruct (tile_at (grid b) 0 0); by eexists _, _.
Qed.

End Preserves.

(** On an 8 by 8 grid the exception is the [AttributeError]. *)
Lemma remove_check_indicators_AttributeError b :
  wf_grid (grid b) -> remove_check_indicators b = Raise AttributeError b.
Proof.
  intros Hg.
  destruct (get_tile_in_bounds b (0, 0) Hg) as (t & _ & Hget).
  { unfold in_bounds; simpl; lia. }
  simpl in Hget. unfold get_tile in Hget.
  unfold remove_check_indicators, for_each. simpl.
  unfold bind, get_tile, raise.
  by destruct (tile_at (grid b) 0 0).
Qed.

(** ** [move_piece] and the history *)

(** What [move_piece] writes at its very end. *)
Definition record_fields (b : Board)
    : list MoveRecord * Z * option ref :=
  (move_history b, current_index b, selected_piece b).

(** A hook of the piece classes that leaves history, index and selection of
    the board alone. *)
Definition keeps_record_fields (h : Board -> Board) : Prop :=
  forall b, record_fields (h b) = record_fields b.

Section History.

Variable gm : ref -> Board -> list Pos.
Variable pm : ref -> Pos -> Board -> Board.
Variable pd : ref -> Board -> Board.
Hypothesis pm_keeps : forall p pos, keeps_record_fields (pm p pos).
Hypothesis pd_keeps : forall p, keeps_record_fields (pd p).

Variable x : list MoveRecord * Z * option ref.

Let Qx (b : Board) : Prop := record_fields b = x.

Lemma preserves_record_set_piece_here f r o :
  preserves Qx (set_piece_here f r o).
Proof. apply preserves_set_piece_here. by intros b g Hb _. Qed.

Lemma preserves_record_capture cp : preserves Qx (capture pd cp).
Proof.
  unfold capture. destruct cp as [cp|]; [|apply preserves_ret].
  apply preserves_bind; [apply preserves_readonly, readonly_deref|intros C].
  apply preserves_bind.
  { destruct (bool_decide _); [|apply preserves_ret].
    apply preserves_modify. by intros b Hb. }
  intros _. apply preserves_bind.
  { destruct (bool_decide _); [|apply preserves_ret].
    apply preserves_modify. by intros b Hb. }
  intros _. apply preserves_modify. intros b Hb.
  unfold Qx. by rewrite pd_keeps.
Qed.

Lemma preserves_record_castle_rook a c r :
  preserves Qx (castle_rook a c r).
Proof.
  unfold castle_rook.
  apply preserves_bind; [apply preserves_readonly, readonly_get_tile|intros t].
  destruct (get_piece_here t) as [rook|]; [|apply preserves_ret].
  apply preserves_bind; [apply preserves_record_set_piece_here|intros _].
  apply preserves_bind; [apply preserves_record_set_piece_here|intros _].
  apply preserves_set_current_pos. by intros b ps Hb.
Qed.

Lemma preserves_record_castling piece bf f r :
  preserves Qx (castling piece bf f r).
Proof.
  unfold castling.
  apply preserves_bind; [apply preserves_readonly, readonly_deref|intros K].
  repeat (destruct (_ && _);
          [first [apply preserves_record_castle_rook|idtac]|]);
    try apply preserves_ret; try apply preserves_record_castle_rook.
Qed.

Lemma raises_indicate_and_record fuel piece bm f r cp :
  raises Qx (indicate_and_record gm fuel piece bm f r cp).
Proof.
  unfold indicate_and_record.
  apply raises_bind_r; [apply preserves_readonly, readonly_deref|intros K].
  apply raises_bind_l. apply raises_remove_check_indicators.
Qed.

End History.

Lemma raises_move_piece_body
    (gm : ref -> Board -> list Pos)
    (pm : ref -> Pos -> Board -> Board) (pd : ref -> Board -> Board)
    (Hpm : forall p pos, keeps_record_fields (pm p pos))
    (Hpd : forall p, keeps_record_fields (pd p))
    (x : list MoveRecord * Z * option ref) (fuel : nat) (f r : Z) (b : Board) :
  record_fields b = x -> is_curr_pos b = true -> is_Some (selected_piece b) ->
  exists e b', move_piece gm pm pd fuel f r b = Raise e b'
               /\ record_fields b' = x.
Proof.
  intros Hx Hcur [p Hsel].
  unfold move_piece. unfold get_board at 1. unfold bind at 1.
  rewrite Hcur, Hsel. simpl negb. cbv iota.
  revert b Hx Hcur Hsel.
  match goal with
  | |- forall b, _ -> _ -> _ -> exists e b', ?m b = _ /\ _ =>
      enough (raises (fun b => record_fields b = x) m) as Hr
  end.
  { intros b Hx _ _. exact (Hr b Hx). }
  apply raises_bind_r; [apply preserves_readonly, readonly_deref|intros S0].
  apply raises_bind_r; [apply preserves_readonly, readonly_get_tile|intros t].
  apply raises_bind_r; [by apply preserves_record_capture|intros _].
  apply raises_bind_r.
  { apply preserves_modify. intros b Hb. by rewrite Hpm. }
  intros _.
  apply raises_bind_r; [apply preserves_readonly, readonly_get_board|intros b1].
  apply raises_bind_r; [apply preserves_record_set_piece_here|intros _].
  apply raises_bind_r; [apply preserves_record_set_piece_here|intros _].
  apply raises_bind_r;
    [apply preserves_readonly, readonly_calculate_material|intros m].
  apply raises_bind_r; [apply preserves_modify; by intros b Hb|intros _].
  apply raises_bind_r; [apply preserves_readonly, readonly_get_board|intros b2].
  destruct (selected_piece b2) as [piece|]; [|apply raises_raise].
  apply raises_bind_r; [apply preserves_record_castling|intros _].
  apply raises_bind_r; [apply preserves_readonly, readonly_get_board|intros b3].
  destruct (selected_piece b3) as [piece'|]; [|apply raises_raise].
  apply raises_indicate_and_record.
Qed.

(** C10, as the code has it.  With the live position displayed and a piece
    selected, [move_piece] does not get to its last lines: on its way it calls
    [remove_check_indicators], which raises, so the call leaves by an
    exception with [move_history] and [current_index] as they were and the
    selection still in place.  This holds whatever the hooks of the piece
    classes do, as long as they leave these three fields alone. *)
Theorem move_piece_never_records
    (gm : ref -> Board -> list Pos)
    (pm : ref -> Pos -> Board -> Board) (pd : ref -> Board -> Board)
    (Hpm : forall p pos, keeps_record_fields (pm p pos))
    (Hpd : forall p, keeps_record_fields (pd p))
    (fuel : nat) (f r : Z) (b : Board) (p : ref) :
  is_curr_pos b = true -> selected_piece b = Some p ->
  exists e b', move_piece gm pm pd fuel f r b = Raise e b'
               /\ move_history b' = move_history b
               /\ current_index b' = current_index b
               /\ selected_piece b' = Some p.
Proof.
  intros Hcur Hsel.
  destruct (raises_move_piece_body gm pm pd Hpm Hpd (record_fields b)
              fuel f r b eq_refl Hcur) as (e & b' & Hrun & Hrec).
  { by rewrite Hsel. }
  exists e, b'. split; [done|].
  unfold record_fields in Hrec. simplify_eq. by rewrite <- Hsel.
Qed.

Lemma std_piece_move_keeps p pos : keeps_record_fields (std_piece_move p pos).
Proof. by intros b. Qed.

Lemma std_piece_delete_keeps p : keeps_record_fields (std_piece_delete p).
Proof. by intros b. Qed.

(** The board of a new game with the White king's pawn selected. *)
Definition e2_selected : Board := set_selected_piece (Some 8%nat) new_board.

Lemma move_piece_never_records_witness :
  is_curr_pos e2_selected = true /\ selected_piece e2_selected = Some 8%nat
  /\ exists e b',
       move_piece std_get_moves std_piece_move std_piece_delete 2 4 3
         e2_selected = Raise e b'
       /\ move_history b' = move_history e2_selected
       /\ current_index b' = current_index e2_selected
       /\ selected_piece b' = Some 8%nat.
Proof.
  split; [reflexivity|]. split; [reflexivity|].
  apply (move_piece_never_records std_get_moves std_piece_move
           std_piece_delete std_piece_move_keeps std_piece_delete_keeps
           2 4 3 e2_selected 8%nat); reflexivity.
Defined.

(** The opening move e2-e4 on a new board: the pawn is relocated, then the
    [AttributeError] of the missing [Tile.clear_check] ends the call; the
    history still holds the single initial record. *)
Example move_piece_e2_e4 :
  exists b',
    move_piece std_get_moves std_piece_move std_piece_delete 2 4 3 e2_selected
    = Raise AttributeError b'
    /\ occupant (grid b') (4, 3) = Some 8%nat
    /\ occupant (grid b') (4, 1) = None
    /\ length (move_history b') = 1%nat
    /\ current_index b' = 0
    /\ selected_piece b' = Some 8%nat.
Proof. eexists. split; [vm_compute; reflexivity|]. by repeat split. Qed.

(** ** [move_piece] and the grid *)

(** The grid with the occupant of an in-bounds square replaced. *)
Definition put (g : list (list Tile)) (pos : Pos) (o : option ref)
    : list (list Tile) :=
  gput g (Z.to_nat (fst pos)) (Z.to_nat (snd pos)) o.

Lemma occupant_put_eq g pos o :
  wf_grid g -> in_bounds pos -> occupant (put g pos o) pos = o.
Proof.
  intros Hg Hb. unfold put.
  rewrite occupant_gget by (by try apply wf_grid_gput).
  destruct Hb as [Hf Hr].
  destruct (wf_grid_gget g (Z.to_nat (fst pos)) (Z.to_nat (snd pos)) Hg)
    as [t Ht]; [lia|lia|].
  by rewrite (gget_gput_eq _ _ _ _ _ Ht).
Qed.

Lemma occupant_put_ne g pos pos' o :
  wf_grid g -> in_bounds pos -> in_bounds pos' -> pos <> pos' ->
  occupant (put g pos' o) pos = occupant g pos.
Proof.
  intros Hg Hb Hb' Hne. unfold put.
  rewrite !occupant_gget by (by try apply wf_grid_gput).
  rewrite gget_gput_ne; [done|].
  intros E. apply Hne. destruct pos as [a c], pos' as [a' c'].
  destruct Hb as [? ?], Hb' as [? ?]. simpl in *.
  symmetry. apply Z_to_nat_pair_inj; (done || lia).
Qed.

Lemma wf_grid_put g pos o : wf_grid g -> wf_grid (put g pos o).
Proof. apply wf_grid_gput. Qed.

Lemma set_piece_here_put b pos o :
  wf_grid (grid b) -> in_bounds pos ->
  set_piece_here (fst pos) (snd pos) o b
  = Ret tt (set_grid (put (grid b) pos o) b).
Proof. apply set_piece_here_in_bounds. Qed.

Lemma grid_put_put g pos o g' :
  wf_grid g -> in_bounds pos ->
  grid_put g (fst pos) (snd pos) o = Some g' -> g' = put g pos o.
Proof.
  intros Hg Hb H. rewrite grid_put_gput in H by done. by simplify_eq.
Qed.

(** A hook of the piece classes that keeps the grid 8 by 8 and leaves the
    selection alone. *)
Definition keeps_shape (h : Board -> Board) : Prop :=
  forall b, (wf_grid (grid b) -> wf_grid (grid (h b)))
            /\ selected_piece (h b) = selected_piece b.

Lemma capture_run pd cp b :
  (forall q, cp = Some q -> is_Some (pieces b !! q)) ->
  exists md,
    capture pd cp b
    = Ret tt match cp with
             | Some q => pd q (set_material_differential md b)
             | None => b
             end.
Proof.
  intros Hlive. destruct cp as [q|]; [|by exists 0].
  destruct (Hlive q eq_refl) as [C HC].
  unfold capture. rewrite (bind_Ret _ _ _ _ _ (deref_Some b q C HC)).
  destruct (color C); simpl; unfold bind, modify, ret; simpl;
    eexists; reflexivity.
Qed.

(** The target holds the mover and the square it left is empty. *)
Definition moved (p : ref) (target source : Pos) (b : Board) : Prop :=
  wf_grid (grid b)
  /\ occupant (grid b) target = Some p
  /\ occupant (grid b) source = None.

Lemma preserves_moved_put p target source pos o :
  in_bounds target -> in_bounds source -> in_bounds pos ->
  pos <> target -> pos <> source ->
  preserves (moved p target source) (set_piece_here (fst pos) (snd pos) o).
Proof.
  intros Ht Hs Hp Hnt Hns. apply preserves_set_piece_here.
  intros b g (Hg & Hot & Hos) Hput.
  apply grid_put_put in Hput; [|done..]. subst g.
  split; [by apply wf_grid_put|]. simpl.
  rewrite !occupant_put_ne by done. done.
Qed.

Lemma preserves_moved_castle_rook p target source a c r0 :
  in_bounds target -> in_bounds source ->
  in_bounds (a, r0) -> in_bounds (c, r0) ->
  (a, r0) <> target -> (a, r0) <> source ->
  (c, r0) <> target -> (c, r0) <> source ->
  preserves (moved p target source) (castle_rook a c r0).
Proof.
  intros Ht Hs Ha Hc Hat Has Hct Hcs. unfold castle_rook.
  apply preserves_bind; [apply preserves_readonly, readonly_get_tile|intros t].
  destruct (get_piece_here t) as [rook|]; [|apply preserves_ret].
  apply preserves_bind;
    [by apply (preserves_moved_put p target source (c, r0))|intros _].
  apply preserves_bind;
    [by apply (preserves_moved_put p target source (a, r0))|intros _].
  apply preserves_set_current_pos. by intros b ps Hb.
Qed.

Lemma preserves_moved_castling p f r source piece :
  in_bounds (f, r) -> in_bounds source ->
  preserves (moved p (f, r) source) (castling piece (fst source) f r).
Proof.
  intros Ht Hs. unfold castling.
  apply preserves_bind; [apply preserves_readonly, readonly_deref|intros K].
  destruct (bool_decide (piece_type K = KING) && (fst source =? 4)) eqn:E1;
    [|apply preserves_ret].
  apply andb_true_iff in E1. destruct E1 as [_ E1]. apply Z.eqb_eq in E1.
  destruct source as [sf sr]. simpl in E1. subst sf.
  repeat match goal with
  | |- preserves _ (if ?c then _ else _) =>
      let E := fresh "E" in
      destruct c eqn:E;
        [rewrite !andb_true_iff, !Z.eqb_eq in E;
         destruct E as [[_ ->] ->];
         apply preserves_moved_castle_rook;
         first [done | unfold in_bounds; simpl; lia | congruence]
        |]
  end.
  apply preserves_ret.
Qed.

Lemma raises_indicate_and_record_any (Q : Board -> Prop) gm fuel piece bm f r cp :
  raises Q (indicate_and_record gm fuel piece bm f r cp).
Proof.
  unfold indicate_and_record.
  apply raises_bind_r; [apply preserves_readonly, readonly_deref|intros K].
  apply raises_bind_l. apply raises_remove_check_indicators.
Qed.

Lemma raises_preserves {A} (Q : Board -> Prop) (m : M A) :
  raises Q m -> preserves Q m.
Proof.
  intros H b Hb. destruct (H b Hb) as (e & b' & -> & Hb'). done.
Qed.

(** C2, as the code has it.  [move_piece] never consults [get_all_legal]:
    with the live position displayed, a piece selected and an in-bounds
    target other than the piece's own square, the call relocates the piece.
    Whatever the legal moves of the piece are, the board it leaves has the
    piece on the target tile and the tile it came from empty. *)
Theorem move_piece_applies_any_target
    (gm : ref -> Board -> list Pos)
    (pm : ref -> Pos -> Board -> Board) (pd : ref -> Board -> Board)
    (Hpm : forall p pos, keeps_shape (pm p pos))
    (Hpd : forall p, keeps_shape (pd p))
    (fuel : nat) (f r : Z) (b : Board) (p : ref) (P : Piece) :
  is_curr_pos b = true -> selected_piece b = Some p ->
  wf_board b -> pieces b !! p = Some P -> in_bounds (current_pos P) ->
  in_bounds (f, r) -> (f, r) <> current_pos P ->
  exists b',
    final_state (move_piece gm pm pd fuel f r b) = Some b'
    /\ occupant (grid b') (f, r) = Some p
    /\ occupant (grid b') (current_pos P) = None.
Proof.
  intros Hcur Hsel Hwf HP Hsrc Htgt Hne.
  pose proof (wf_shape b Hwf) as Hg.
  unfold move_piece. unfold get_board at 1. unfold bind at 1.
  rewrite Hcur, Hsel. change (negb true) with false. cbv iota.
  rewrite (bind_Ret _ _ _ _ _ (deref_Some b p P HP)).
  destruct (get_tile_in_bounds b (f, r) Hg Htgt) as (t & Ht & Hget).
  simpl in Hget. rewrite (bind_Ret _ _ _ _ _ Hget).
  destruct (capture_run pd (piece_here t) b) as [md Hcap].
  { intros q Hq. by apply (wf_board_live b Hwf _ _ t q Ht). }
  rewrite (bind_Ret _ _ _ _ _ Hcap).
  set (bc := match piece_here t with
             | Some q => pd q (set_material_differential md b)
             | None => b
             end).
  assert (Hbc : wf_grid (grid bc) /\ selected_piece bc = Some p).
  { subst bc. destruct (piece_here t) as [q|]; [|done].
    destruct (Hpd q (set_material_differential md b)) as [H1 H2].
    split; [by apply H1|by rewrite H2]. }
  unfold modify at 1. unfold bind at 1.
  set (bm := pm p (f, r) bc).
  assert (Hbm : wf_grid (grid bm) /\ selected_piece bm = Some p).
  { subst bm. destruct (Hpm p (f, r) bc) as [H1 H2].
    destruct Hbc as [H3 H4]. split; [by apply H1|by rewrite H2]. }
  destruct Hbm as [Hgm' Hselm].
  unfold get_board at 1. unfold bind at 1. rewrite Hselm.
  rewrite (bind_Ret _ _ _ _ _
             (set_piece_here_put bm (f, r) (Some p) Hgm' Htgt)).
  set (b1 := set_grid (put (grid bm) (f, r) (Some p)) bm).
  assert (Hg1 : wf_grid (grid b1)) by by apply wf_grid_put.
  rewrite (bind_Ret _ _ _ _ _
             (set_piece_here_put b1 (current_pos P) None Hg1 Hsrc)).
  set (b2 := set_grid (put (grid b1) (current_pos P) None) b1).
  assert (Hmoved : moved p (f, r) (current_pos P) b2).
  { split; [by apply wf_grid_put|]. simpl. split.
    - rewrite occupant_put_ne by done. by apply occupant_put_eq.
    - by apply occupant_put_eq. }
  assert (Hsel2 : selected_piece b2 = Some p) by done.
  match goal with
  | |- exists b', final_state (?m b2) = _ /\ _ =>
      assert (Hrest : preserves (moved p (f, r) (current_pos P)) m)
  end.
  { apply preserves_bind;
      [apply preserves_readonly, readonly_calculate_material|intros m].
    apply preserves_bind; [apply preserves_modify; by intros b0 Hb0|intros _].
    apply preserves_bind;
      [apply preserves_readonly, readonly_get_board|intros b3].
    destruct (selected_piece b3) as [piece|]; [|apply preserves_raise].
    apply preserves_bind; [by apply preserves_moved_castling|intros _].
    apply preserves_bind;
      [apply preserves_readonly, readonly_get_board|intros b4].
    destruct (selected_piece b4) as [piece'|]; [|apply preserves_raise].
    apply raises_preserves, raises_indicate_and_record_any. }
  specialize (Hrest b2 Hmoved).
  match goal with
  | |- exists b', final_state ?res = _ /\ _ =>
      destruct res as [u b'|e b'|]; [| |done]
  end; exists b'; (split; [done|]); by destruct Hrest as (_ & ? & ?).
Qed.

Lemma std_piece_move_keeps_shape p pos : keeps_shape (std_piece_move p pos).
Proof. by intros b. Qed.

Lemma std_piece_delete_keeps_shape p : keeps_shape (std_piece_delete p).
Proof. by intros b. Qed.

(** The board of a new game with the White queen's rook selected. *)
Definition a1_selected : Board := set_selected_piece (Some 20%nat) new_board.

Lemma a1_selected_wf : wf_board a1_selected.
Proof. apply wf_boardb_sound. vm_compute. reflexivity. Qed.

Lemma move_piece_applies_any_target_witness :
  is_curr_pos a1_selected = true /\ selected_piece a1_selected = Some 20%nat
  /\ wf_board a1_selected /\ in_bounds (0, 4) /\ (0, 4) <> (0, 0)
  /\ exists b',
       final_state (move_piece std_get_moves std_piece_move std_piece_delete
                      2 0 4 a1_selected) = Some b'
       /\ occupant (grid b') (0, 4) = Some 20%nat
       /\ occupant (grid b') (0, 0) = None.
Proof.
  split; [reflexivity|]. split; [reflexivity|].
  split; [apply a1_selected_wf|].
  split; [unfold in_bounds; simpl; lia|]. split; [discriminate|].
  apply (move_piece_applies_any_target std_get_moves std_piece_move
           std_piece_delete std_piece_move_keeps_shape
           std_piece_delete_keeps_shape 2 0 4 a1_selected 20%nat
           (mkPiece WHITE ROOK (0, 0) false)).
  - reflexivity.
  - reflexivity.
  - apply a1_selected_wf.
  - reflexivity.
  - unfold in_bounds; simpl; lia.
  - unfold in_bounds; simpl; lia.
  - discriminate.
Defined.

(** C2 as stated fails: on a new board the rook on a1 has no legal move, yet
    [move_piece(0, 4)] with that rook selected puts it on a5, empties a1, and
    leaves by an exception. *)
Lemma illegal_move_counterexample :
  is_curr_pos a1_selected = true
  /\ selected_piece a1_selected = Some 20%nat
  /\ get_all_legal std_get_moves 2 20%nat a1_selected = Ret [] a1_selected
  /\ occupant (grid a1_selected) (0, 0) = Some 20%nat
  /\ occupant (grid a1_selected) (0, 4) = None
  /\ exists b',
       move_piece std_get_moves std_piece_move std_piece_delete 2 0 4
         a1_selected = Raise AttributeError b'
       /\ occupant (grid b') (0, 4) = Some 20%nat
       /\ occupant (grid b') (0, 0) = None
       /\ b' <> a1_selected.
Proof.
  split; [reflexivity|]. split; [reflexivity|].
  split; [vm_compute; reflexivity|].
  split; [reflexivity|]. split; [reflexivity|].
  eexists. split; [vm_compute; reflexivity|].
  split; [reflexivity|]. split; [reflexivity|].
  intros H. apply (f_equal (fun b => occupant (grid b) (0, 0))) in H.
  vm_compute in H. discriminate.
Qed.

(** ** [move_piece] and castling *)

(** Every occupant of the grid is a piece object of the store. *)
Definition live (b : Board) : Prop :=
  forall fi ri t q, gget (grid b) fi ri = Some t -> piece_here t = Some q ->
    is_Some (pieces b !! q).

Lemma calculate_material_stable b :
  wf_grid (grid b) -> live b -> exists v, calculate_material b = Ret v b.
Proof.
  intros Hg Hlive. unfold calculate_material.
  match goal with
  | |- exists v, bind ?m _ b = _ =>
      assert (Hloop : exists s, m b = Ret s b)
  end.
  { apply for_fold_stable. intros acc r Hr.
    apply for_fold_stable. intros acc' f Hf.
    apply range8_bounds in Hr, Hf.
    destruct (get_tile_in_bounds b (f, r) Hg) as (t & Ht & Hget);
      [by split|].
    simpl in Hget. rewrite (bind_Ret _ _ _ _ _ Hget).
    destruct (piece_here t) as [p|] eqn:Hp; [|by eexists].
    destruct (Hlive _ _ _ _ Ht Hp) as [P HP].
    rewrite (bind_Ret _ _ _ _ _ (deref_Some b p P HP)).
    destruct (bool_decide _); by eexists. }
  destruct Hloop as [s Hs]. rewrite (bind_Ret _ _ _ _ _ Hs). by eexists.
Qed.

(** A hook of the piece classes that only updates attributes of pieces: the
    grid and the selection are left alone, every piece stays in the store and
    keeps its colour and kind. *)
Definition attribute_hook (h : Board -> Board) : Prop :=
  forall b,
    grid (h b) = grid b
    /\ selected_piece (h b) = selected_piece b
    /\ forall q Q, pieces b !! q = Some Q ->
         exists Q', pieces (h b) !! q = Some Q'
                    /\ color Q' = color Q /\ piece_type Q' = piece_type Q.

(** The store [ps'] still holds every piece of [ps], colour and kind kept. *)
Definition store_extends (ps ps' : list Piece) : Prop :=
  forall q Q, ps !! q = Some Q ->
    exists Q', ps' !! q = Some Q'
               /\ color Q' = color Q /\ piece_type Q' = piece_type Q.

Lemma store_extends_trans ps1 ps2 ps3 :
  store_extends ps1 ps2 -> store_extends ps2 ps3 -> store_extends ps1 ps3.
Proof.
  intros H12 H23 q Q HQ.
  destruct (H12 q Q HQ) as (Q2 & HQ2 & Hc2 & Ht2).
  destruct (H23 q Q2 HQ2) as (Q3 & HQ3 & Hc3 & Ht3).
  exists Q3. split; [done|]. split; congruence.
Qed.

Lemma live_put b b' pos p :
  wf_grid (grid b) -> live b -> store_extends (pieces b) (pieces b') ->
  grid b' = put (grid b) pos (Some p) -> is_Some (pieces b' !! p) ->
  live b'.
Proof.
  intros Hg Hlive Hext Hgrid Hp fi ri t q Ht Hq. rewrite Hgrid in Ht.
  unfold put in Ht.
  destruct (decide ((Z.to_nat (fst pos), Z.to_nat (snd pos)) = (fi, ri)))
    as [E|E].
  - simplify_eq.
    destruct (gget (grid b) (Z.to_nat (fst pos)) (Z.to_nat (snd pos)))
      as [t0|] eqn:Ht0.
    + rewrite (gget_gput_eq _ _ _ _ _ Ht0) in Ht. by simplify_eq/=.
    + unfold gget, gput in *.
      rewrite list_lookup_alter_eq in Ht.
      destruct (grid b !! Z.to_nat (snd pos)) as [row|]; [|done].
      simpl in Ht. rewrite list_lookup_alter_eq, Ht0 in Ht. done.
  - rewrite gget_gput_ne in Ht by done.
    destruct (Hlive _ _ _ _ Ht Hq) as [Q HQ].
    destruct (Hext q Q HQ) as (Q' & HQ' & _). by exists Q'.
Qed.

Lemma live_put_None b b' pos :
  live b -> pieces b' = pieces b -> grid b' = put (grid b) pos None ->
  live b'.
Proof.
  intros Hlive Hps Hgrid fi ri t q Ht Hq. rewrite Hgrid in Ht.
  unfold put in Ht. rewrite Hps.
  destruct (decide ((Z.to_nat (fst pos), Z.to_nat (snd pos)) = (fi, ri)))
    as [E|E].
  - simplify_eq. unfold gget, gput in *.
    rewrite list_lookup_alter_eq in Ht.
    destruct (grid b !! Z.to_nat (snd pos)) as [row|]; [|done].
    simpl in Ht. rewrite list_lookup_alter_eq in Ht.
    destruct (row !! Z.to_nat (fst pos)); by simplify_eq/=.
  - rewrite gget_gput_ne in Ht by done. by apply (Hlive _ _ _ _ Ht Hq).
Qed.

Lemma store_extends_refl ps : store_extends ps ps.
Proof. intros q Q HQ. by exists Q. Qed.

(** [move_piece] up to the recomputation of the material, for hooks that only
    update attributes: what is left to run is the castling block and the
    indicators-and-history block, on a board whose grid has the mover on the
    target and its former square empty. *)
Lemma move_piece_prefix
    (gm : ref -> Board -> list Pos)
    (pm : ref -> Pos -> Board -> Board) (pd : ref -> Board -> Board)
    (Hpm : forall p pos, attribute_hook (pm p pos))
    (Hpd : forall p, attribute_hook (pd p))
    (fuel : nat) (f r : Z) (b : Board) (p : ref) (P : Piece) :
  is_curr_pos b = true -> selected_piece b = Some p ->
  wf_board b -> pieces b !! p = Some P -> in_bounds (current_pos P) ->
  in_bounds (f, r) ->
  exists b3 cap,
    move_piece gm pm pd fuel f r b
    = (castling p (fst (current_pos P)) f r ;;;
       b4 <- get_board ;;
       match selected_piece b4 with
       | Some piece =>
           indicate_and_record gm fuel piece (current_pos P) f r cap
       | None => raise AttributeError
       end) b3
    /\ grid b3 = put (put (grid b) (f, r) (Some p)) (current_pos P) None
    /\ selected_piece b3 = Some p
    /\ store_extends (pieces b) (pieces b3).
Proof.
  intros Hcur Hsel Hwf HP Hsrc Htgt.
  pose proof (wf_shape b Hwf) as Hg.
  unfold move_piece. unfold get_board at 1. unfold bind at 1.
  rewrite Hcur, Hsel. change (negb true) with false. cbv iota.
  rewrite (bind_Ret _ _ _ _ _ (deref_Some b p P HP)).
  destruct (get_tile_in_bounds b (f, r) Hg Htgt) as (t & Ht & Hget).
  simpl in Hget. rewrite (bind_Ret _ _ _ _ _ Hget).
  destruct (capture_run pd (piece_here t) b) as [md Hcap].
  { intros q Hq. by apply (wf_board_live b Hwf _ _ t q Ht). }
  rewrite (bind_Ret _ _ _ _ _ Hcap).
  set (bc := match piece_here t with
             | Some q => pd q (set_material_differential md b)
             | None => b
             end).
  assert (Hbc : grid bc = grid b /\ selected_piece bc = Some p
                /\ store_extends (pieces b) (pieces bc)).
  { subst bc. destruct (piece_here t) as [q|].
    - destruct (Hpd q (set_material_differential md b)) as (H1 & H2 & H3).
      split; [by rewrite H1|]. split; [by rewrite H2|]. exact H3.
    - split; [done|]. split; [done|]. apply store_extends_refl. }
  destruct Hbc as (Hgc & Hselc & Hextc).
  unfold modify at 1. unfold bind at 1.
  destruct (Hpm p (f, r) bc) as (Hgm' & Hselm & Hextm).
  set (bm := pm p (f, r) bc) in *.
  rewrite Hgc in Hgm'. rewrite Hselc in Hselm.
  assert (Hext : store_extends (pieces b) (pieces bm)).
  { by apply (store_extends_trans _ (pieces bc)). }
  unfold get_board at 1. unfold bind at 1. rewrite Hselm.
  assert (Hwgm : wf_grid (grid bm)) by by rewrite Hgm'.
  rewrite (bind_Ret _ _ _ _ _
             (set_piece_here_put bm (f, r) (Some p) Hwgm Htgt)).
  set (b1 := set_grid (put (grid bm) (f, r) (Some p)) bm).
  assert (Hg1 : wf_grid (grid b1)) by by apply wf_grid_put.
  rewrite (bind_Ret _ _ _ _ _
             (set_piece_here_put b1 (current_pos P) None Hg1 Hsrc)).
  set (b2 := set_grid (put (grid b1) (current_pos P) None) b1).
  assert (Hlive2 : live b2).
  { apply (live_put_None b1 b2 (current_pos P)); [|done|done].
    apply (live_put b b1 (f, r) p); try done.
    - exact (wf_board_live b Hwf).
    - simpl. by rewrite Hgm'.
    - destruct (Hext p P HP) as (P' & HP' & _). by exists P'. }
  destruct (calculate_material_stable b2) as [v Hv];
    [by apply wf_grid_put|done|].
  rewrite (bind_Ret _ _ _ _ _ Hv).
  unfold modify at 1. unfold bind at 1.
  set (b3 := set_material_differential v b2).
  unfold get_board at 1. unfold bind at 1.
  change (selected_piece b3) with (selected_piece bm). rewrite Hselm.
  exists b3, (piece_here t). split; [reflexivity|].
  split; [simpl; by rewrite Hgm'|]. split; [done|]. done.
Qed.

(** The four branches of the castling block: the king's colour, the square
    the king goes to, the file the rook stands on and the file it goes to. *)
Definition castling_cases : list (Color * Pos * Z * Z) :=
  [ (WHITE, (6, 0), 7, 5); (WHITE, (2, 0), 0, 3);
    (BLACK, (6, 7), 7, 5); (BLACK, (2, 7), 0, 3) ].

(** The castling block run on a board where the king has just been put on
    its target and a piece stands on the rook's corner. *)
Lemma castling_run (k rook : ref) (K R : Piece) (c : Color) (kf kr rf rt : Z)
    (b : Board) :
  In (c, (kf, kr), rf, rt) castling_cases ->
  wf_grid (grid b) ->
  pieces b !! k = Some K -> piece_type K = KING -> color K = c ->
  pieces b !! rook = Some R ->
  occupant (grid b) (rf, kr) = Some rook ->
  castling k 4 kf kr b
  = Ret tt
      (set_pieces (alter (with_current_pos (rt, kr)) rook (pieces b))
         (set_grid (put (put (grid b) (rt, kr) (Some rook)) (rf, kr) None) b)).
Proof.
  intros Hcase Hg HK Htype Hcolor HR Hocc.
  assert (Hrf : in_bounds (rf, kr) /\ in_bounds (rt, kr)).
  { unfold castling_cases in Hcase. simpl in Hcase.
    unfold in_bounds. simpl.
    destruct Hcase as [E|[E|[E|[E|[]]]]]; simplify_eq; lia. }
  destruct Hrf as [Hrf Hrt].
  destruct (get_tile_in_bounds b (rf, kr) Hg Hrf) as (t & Ht & Hget).
  rewrite occupant_gget in Hocc by done. rewrite Ht in Hocc.
  simpl in Hget.
  assert (Hrook : castle_rook rf rt kr b
                  = Ret tt
                      (set_pieces
                         (alter (with_current_pos (rt, kr)) rook (pieces b))
                         (set_grid
                            (put (put (grid b) (rt, kr) (Some rook))
                               (rf, kr) None) b))).
  { unfold castle_rook. rewrite (bind_Ret _ _ _ _ _ Hget).
    unfold get_piece_here. rewrite Hocc.
    rewrite (bind_Ret _ _ _ _ _
               (set_piece_here_put b (rt, kr) (Some rook) Hg Hrt)).
    rewrite (bind_Ret _ _ _ _ _
               (set_piece_here_put
                  (set_grid (put (grid b) (rt, kr) (Some rook)) b)
                  (rf, kr) None
                  (wf_grid_put (grid b) (rt, kr) (Some rook) Hg) Hrf)).
    by rewrite (set_current_pos_Some _ rook R (rt, kr)). }
  unfold castling. rewrite (bind_Ret _ _ _ _ _ (deref_Some b k K HK)).
  rewrite Htype.
  unfold castling_cases in Hcase. simpl in Hcase.
  destruct Hcase as [E|[E|[E|[E|[]]]]]; simplify_eq; rewrite <- H;
    exact Hrook.
Qed.

(** C8 (castling side effect).  In one [move_piece] call that takes a king of
    colour [c] from file 4 of its home rank to the square two files away, the
    piece on the rook's corner is relocated next to the king in the same
    mutation: afterwards it stands on the square the king passed over, its
    corner is empty and its [current_pos] is the new square.  The four cases
    are White short (king to (6,0), rook (7,0) to (5,0)), White long (king to
    (2,0), rook (0,0) to (3,0)), Black short (king to (6,7), rook (7,7) to
    (5,7)) and Black long (king to (2,7), rook (0,7) to (3,7)).  The hooks of
    the piece classes are taken to update attributes of pieces only. *)
Theorem castling_relocates_rook
    (gm : ref -> Board -> list Pos)
    (pm : ref -> Pos -> Board -> Board) (pd : ref -> Board -> Board)
    (Hpm : forall p pos, attribute_hook (pm p pos))
    (Hpd : forall p, attribute_hook (pd p))
    (fuel : nat) (b : Board) (k rook : ref) (K : Piece)
    (c : Color) (kf kr rf rt : Z) :
  In (c, (kf, kr), rf, rt) castling_cases ->
  is_curr_pos b = true -> selected_piece b = Some k -> wf_board b ->
  pieces b !! k = Some K -> piece_type K = KING -> color K = c ->
  current_pos K = (4, kr) ->
  occupant (grid b) (rf, kr) = Some rook ->
  exists b',
    final_state (move_piece gm pm pd fuel kf kr b) = Some b'
    /\ occupant (grid b') (rt, kr) = Some rook
    /\ occupant (grid b') (rf, kr) = None
    /\ (exists R, pieces b' !! rook = Some R /\ current_pos R = (rt, kr))
    /\ occupant (grid b') (kf, kr) = Some k
    /\ occupant (grid b') (4, kr) = None.
Proof.
  intros Hcase Hcur Hsel Hwf HK Htype Hcolor Hpos Hrook.
  pose proof (wf_shape b Hwf) as Hg.
  assert (Hb : in_bounds (kf, kr) /\ in_bounds (rf, kr) /\ in_bounds (rt, kr)
               /\ in_bounds (4, kr)
               /\ (rf, kr) <> (kf, kr) /\ (rf, kr) <> (4, kr)
               /\ (rt, kr) <> (kf, kr) /\ (rt, kr) <> (4, kr)
               /\ (rt, kr) <> (rf, kr) /\ (kf, kr) <> (4, kr)).
  { pose proof Hcase as Hcase'.
    unfold castling_cases in Hcase'. simpl in Hcase'.
    unfold in_bounds. simpl.
    destruct Hcase' as [E|[E|[E|[E|[]]]]]; simplify_eq;
      repeat split; (lia || discriminate). }
  destruct Hb as (Hbk & Hbf & Hbt & Hb4 & N1 & N2 & N3 & N4 & N5 & N6).
  assert (Hrlive : is_Some (pieces b !! rook)).
  { rewrite occupant_gget in Hrook by done.
    destruct (gget (grid b) _ _) as [t|] eqn:Ht; [|done].
    by apply (wf_board_live b Hwf _ _ t rook Ht). }
  destruct Hrlive as [R0 HR0].
  destruct (move_piece_prefix gm pm pd Hpm Hpd fuel kf kr b k K
              Hcur Hsel Hwf HK) as (b3 & cap & Hrun & Hg3 & Hsel3 & Hext);
    [by rewrite Hpos|done|].
  rewrite Hpos in Hrun, Hg3. simpl fst in Hrun.
  destruct (Hext k K HK) as (K' & HK' & HcK' & HtK').
  destruct (Hext rook R0 HR0) as (R & HR & _).
  assert (Hwg3 : wf_grid (grid b3)).
  { rewrite Hg3. by do 2 apply wf_grid_put. }
  assert (Hocc3 : occupant (grid b3) (rf, kr) = Some rook).
  { rewrite Hg3. rewrite !occupant_put_ne; try done. by apply wf_grid_put. }
  pose proof (castling_run k rook K' R c kf kr rf rt b3 Hcase Hwg3 HK'
                ltac:(congruence) ltac:(congruence) HR Hocc3) as Hcastle.
  rewrite Hrun. rewrite (bind_Ret _ _ _ _ _ Hcastle).
  set (b4 := set_pieces _ _) in *.
  unfold get_board at 1. unfold bind at 1.
  change (selected_piece b4) with (selected_piece b3). rewrite Hsel3.
  destruct (raises_indicate_and_record_any (fun b' => b' = b4) gm fuel k
              (4, kr) kf kr cap b4 eq_refl) as (e & b' & Hrec & ->).
  rewrite Hrec. exists b4. split; [done|].
  assert (Hwp : wf_grid (put (grid b) (kf, kr) (Some k)))
    by by apply wf_grid_put.
  subst b4. simpl. rewrite Hg3.
  split.
  { rewrite occupant_put_ne; [|by repeat apply wf_grid_put|done..].
    apply occupant_put_eq; [by repeat apply wf_grid_put|done]. }
  split.
  { apply occupant_put_eq; [by repeat apply wf_grid_put|done]. }
  split.
  { exists (with_current_pos (rt, kr) R). split; [|done].
    by rewrite list_lookup_alter_eq, HR. }
  split.
  { do 3 (rewrite occupant_put_ne; [|by repeat apply wf_grid_put|done..]).
    by apply occupant_put_eq. }
  do 2 (rewrite occupant_put_ne; [|by repeat apply wf_grid_put|done..]).
  apply occupant_put_eq; [by apply wf_grid_put|done].
Qed.

Lemma std_piece_move_attribute p pos : attribute_hook (std_piece_move p pos).
Proof.
  intros b. split; [done|]. split; [done|].
  intros q Q HQ. unfold std_piece_move. simpl.
  destruct (decide (p = q)) as [->|Hne].
  - rewrite list_lookup_alter_eq, HQ. by eexists.
  - rewrite list_lookup_alter_ne by done. by exists Q.
Qed.

Lemma std_piece_delete_attribute p : attribute_hook (std_piece_delete p).
Proof.
  intros b. split; [done|]. split; [done|]. intros q Q HQ. by exists Q.
Qed.

(** A new board with f1 and g1 cleared and the White king selected. *)
Definition castle_ready : Board :=
  set_grid (put (put (grid new_board) (5, 0) None) (6, 0) None)
    (set_selected_piece (Some 16%nat) new_board).

Lemma castle_ready_wf : wf_board castle_ready.
Proof. apply wf_boardb_sound. vm_compute. reflexivity. Qed.

Lemma castling_relocates_rook_witness :
  In (WHITE, (6, 0), 7, 5) castling_cases
  /\ is_curr_pos castle_ready = true
  /\ selected_piece castle_ready = Some 16%nat
  /\ wf_board castle_ready
  /\ pieces castle_ready !! 16%nat = Some (mkPiece WHITE KING (4, 0) false)
  /\ occupant (grid castle_ready) (7, 0) = Some 21%nat
  /\ exists b',
       final_state (move_piece std_get_moves std_piece_move std_piece_delete
                      2 6 0 castle_ready) = Some b'
       /\ occupant (grid b') (5, 0) = Some 21%nat
       /\ occupant (grid b') (7, 0) = None
       /\ (exists R, pieces b' !! 21%nat = Some R /\ current_pos R = (5, 0))
       /\ occupant (grid b') (6, 0) = Some 16%nat
       /\ occupant (grid b') (4, 0) = None.
Proof.
  split; [by left|]. split; [reflexivity|]. split; [reflexivity|].
  split; [apply castle_ready_wf|]. split; [reflexivity|].
  split; [reflexivity|].
  apply (castling_relocates_rook std_get_moves std_piece_move
           std_piece_delete std_piece_move_attribute
           std_piece_delete_attribute 2 castle_ready 16%nat 21%nat
           (mkPiece WHITE KING (4, 0) false) WHITE 6 0 7 5).
  - by left.
  - reflexivity.
  - reflexivity.
  - apply castle_ready_wf.
  - reflexivity.
  - reflexivity.
  - reflexivity.
  - reflexivity.
  - reflexivity.
Defined.

(** Short castling for White on that board, run: king to g1, rook from h1 to
    f1, both with their [current_pos] updated. *)
Example castle_white_short :
  exists b',
    move_piece std_get_moves std_piece_move std_piece_delete 2 6 0
      castle_ready = Raise AttributeError b'
    /\ board_state None b'
       = Ret "rnbqkbnr/pppppppp/8/8/8/8/PPPPPPPP/RNBQ1RK1"%string b'
    /\ option_map current_pos (pieces b' !! 21%nat) = Some (5, 0)
    /\ option_map current_pos (pieces b' !! 16%nat) = Some (6, 0).
Proof.
  eexists. split; [vm_compute; reflexivity|].
  split; [vm_compute; reflexivity|]. by split.
Qed.

(** ** The material differential *)

(** Kings on e1 and e8 and a White pawn that has reached a8; the material
    differential is the pawn's value, as [calculate_material] computes it. *)
Definition promotion_pending : Board :=
  Eval vm_compute in
  match (place KING WHITE 4 0 ;;;
         place KING BLACK 4 7 ;;;
         place PAWN WHITE 0 7 ;;;
         m <- calculate_material ;;
         modify (set_material_differential m)) blank_board with
  | Ret _ b => b
  | Raise _ b => b
  | OutOfFuel => blank_board
  end.

Lemma promote_keeps_material_differential c f r b :
  match promote c f r b with
  | Ret _ b' => material_differential b' = material_differential b
  | Raise _ b' => material_differential b' = material_differential b
  | OutOfFuel => False
  end.
Proof.
  unfold promote, bind, new_piece, set_piece_here. simpl.
  by destruct (grid_put _ _ _ _).
Qed.

(** C6, as the code has it.  [promote] replaces the occupant of the square by
    a new Queen and never touches [material_differential]: after promoting
    the a8 pawn of a board whose differential was the correct 1, the field is
    still 1 while the signed sum of the values on the board is 9. *)
Theorem promote_leaves_material_stale :
  (forall c f r b b',
     final_state (promote c f r b) = Some b' ->
     material_differential b' = material_differential b)
  /\ calculate_material promotion_pending = Ret 1 promotion_pending
  /\ material_differential promotion_pending = 1
  /\ exists b',
       promote WHITE 0 7 promotion_pending = Ret tt b'
       /\ material_differential b' = 1
       /\ calculate_material b' = Ret 9 b'.
Proof.
  split.
  { intros c f r b b' H.
    pose proof (promote_keeps_material_differential c f r b) as Hp.
    destruct (promote c f r b); simpl in H; by simplify_eq. }
  split; [vm_compute; reflexivity|]. split; [reflexivity|].
  eexists. split; [vm_compute; reflexivity|].
  split; [reflexivity|]. vm_compute. reflexivity.
Qed.

Definition promoted_a8 : Board :=
  Eval vm_compute in
  match promote WHITE 0 7 promotion_pending with
  | Ret _ b => b
  | Raise _ b => b
  | OutOfFuel => promotion_pending
  end.

Lemma promote_leaves_material_stale_witness :
  final_state (promote WHITE 0 7 promotion_pending) = Some promoted_a8
  /\ material_differential promoted_a8
     = material_differential promotion_pending.
Proof.
  split; [vm_compute; reflexivity|].
  apply (proj1 promote_leaves_material_stale WHITE 0 7 promotion_pending
           promoted_a8).
  vm_compute. reflexivity.
Defined.

(** ** Serialization: [board_state] as a function of the placement *)

(** The colour and kind of the piece on a square. *)
Definition cell (b : Board) (pos : Pos) : option (Color * PieceType) :=
  match occupant (grid b) pos with
  | Some q =>
      match pieces b !! q with
      | Some Q => Some (color Q, piece_type Q)
      | None => None
      end
  | None => None
  end.

(** The letter [board_state] writes for a piece. *)
Definition fen_char (x : Color * PieceType) : ascii :=
  if bool_decide (fst x = WHITE) then upper (symbol (snd x))
  else lower (symbol (snd x)).

(** One turn of the loop over the files in [board_state], on the locals
    [(fen_row, empty_count)], as a function of the cell read. *)
Definition row_step (cellrow : Z -> option (Color * PieceType))
    (st : string * Z) (file : Z) : string * Z :=
  match cellrow file with
  | None =>
      if file =? 7
      then (append (fst st) (str_int (snd st + 1)), snd st + 1)
      else (fst st, snd st + 1)
  | Some x =>
      if 0 <? snd st
      then (append (append (fst st) (str_int (snd st)))
              (String (fen_char x) EmptyString), 0)
      else (append (fst st) (String (fen_char x) EmptyString), snd st)
  end.

Definition fen_row (b : Board) (r : Z) : string :=
  fst (fold_left (row_step (fun f => cell b (f, r))) range8 (EmptyString, 0)).

Lemma board_state_row_pure b r :
  wf_grid (grid b) -> live b -> 0 <= r < 8 ->
  board_state_row r b = Ret (fen_row b r) b.
Proof.
  intros Hg Hlive Hr. unfold board_state_row, fen_row.
  erewrite bind_Ret;
    [reflexivity
    |apply (for_fold_pure range8 _ (row_step (fun f => cell b (f, r))) b)].
  intros st f Hf. apply range8_bounds in Hf.
  assert (Hb : in_bounds (f, r)) by by split.
  destruct (get_tile_in_bounds b (f, r) Hg Hb) as (t & Ht & Hget).
  simpl in Hget. rewrite (bind_Ret _ _ _ _ _ Hget).
  unfold row_step, cell. rewrite occupant_gget by done. rewrite Ht.
  destruct (piece_here t) as [p|] eqn:Hp.
  - destruct (Hlive _ _ _ _ Ht Hp) as [P HP].
    rewrite (bind_Ret _ _ _ _ _ (deref_Some b p P HP)). rewrite HP.
    unfold fen_char. simpl. by destruct (0 <? snd st).
  - by destruct (f =? 7).
Qed.

(** The placement string of a board. *)
Definition fen_placement (b : Board) : string :=
  drop_last
    (fold_left (fun s r => append s (append (fen_row b r) "/"))
       range8_down EmptyString).

Lemma board_state_pure b :
  wf_grid (grid b) -> live b ->
  board_state None b = Ret (fen_placement b) b.
Proof.
  intros Hg Hlive. unfold board_state, fen_placement.
  erewrite bind_Ret;
    [reflexivity
    |apply (for_fold_pure range8_down _
              (fun s r => append s (append (fen_row b r) "/")) b)].
  intros s r Hr.
  assert (Hb : 0 <= r < 8).
  { unfold range8_down in Hr. rewrite !elem_of_cons, elem_of_nil in Hr. lia. }
  by rewrite (bind_Ret _ _ _ _ _ (board_state_row_pure b r Hg Hlive Hb)).
Qed.

(** ** Serialization: reading the placement back *)

Lemma append_assoc (s1 s2 s3 : string) :
  append (append s1 s2) s3 = append s1 (append s2 s3).
Proof. induction s1 as [|c s1 IH]; simpl; [done|by rewrite IH]. Qed.

Lemma append_nil_r (s : string) : append s EmptyString = s.
Proof. induction s as [|c s IH]; simpl; [done|by rewrite IH]. Qed.

Lemma chars_append (s1 s2 : string) :
  list_ascii_of_string (append s1 s2)
  = list_ascii_of_string s1 ++ list_ascii_of_string s2.
Proof. induction s1 as [|c s1 IH]; simpl; [done|by rewrite IH]. Qed.

Lemma for_fold_app {A S} (l1 l2 : list A) (body : S -> A -> M S) (s : S) b :
  for_fold (l1 ++ l2) body s b
  = bind (for_fold l1 body s) (for_fold l2 body) b.
Proof.
  revert s b. induction l1 as [|x l1 IH]; intros s b; simpl.
  - done.
  - unfold bind. destruct (body s x b) as [s' b'|e b'|]; try reflexivity.
    rewrite IH. reflexivity.
Qed.

(** The files [i, i+1, ...], [n] of them. *)
Fixpoint files (i : Z) (n : nat) : list Z :=
  match n with
  | O => []
  | S n' => i :: files (i + 1) n'
  end.

(** What [board_state] appends to [fen_row] over the files [fs], entered
    with [empty_count = ec]. *)
Fixpoint enc (cr : Z -> option (Color * PieceType)) (fs : list Z) (ec : Z)
    : string :=
  match fs with
  | [] => EmptyString
  | i :: fs' =>
      match cr i with
      | None =>
          if i =? 7 then append (str_int (ec + 1)) (enc cr fs' (ec + 1))
          else enc cr fs' (ec + 1)
      | Some x =>
          if 0 <? ec
          then append (str_int ec) (String (fen_char x) (enc cr fs' 0))
          else String (fen_char x) (enc cr fs' ec)
      end
  end.

Lemma fold_row_step cr fs acc ec :
  fst (fold_left (row_step cr) fs (acc, ec)) = append acc (enc cr fs ec).
Proof.
  revert acc ec. induction fs as [|i fs IH]; intros acc ec; simpl.
  - by rewrite append_nil_r.
  - unfold row_step at 2. simpl. destruct (cr i) as [x|].
    + destruct (0 <? ec); rewrite IH, ?append_assoc; done.
    + destruct (i =? 7); rewrite IH, ?append_assoc; done.
Qed.

Lemma fen_row_enc b r :
  fen_row b r = enc (fun f => cell b (f, r)) (files 0 8) 0.
Proof. unfold fen_row. by rewrite fold_row_step. Qed.

Lemma str_int_digit ec :
  1 <= ec <= 8 ->
  exists d, str_int ec = String d EmptyString
            /\ is_digit d = true /\ int_of_digit d = ec.
Proof.
  intros H.
  assert (ec = 1 \/ ec = 2 \/ ec = 3 \/ ec = 4 \/ ec = 5 \/ ec = 6
          \/ ec = 7 \/ ec = 8) as Hc by lia.
  repeat destruct Hc as [->|Hc]; try subst ec;
    eexists; (split; [reflexivity|split; reflexivity]).
Qed.

Lemma fen_char_not_digit x : is_digit (fen_char x) = false.
Proof. by destruct x as [[] []]. Qed.

Lemma fen_char_color x :
  (if is_upper (fen_char x) then WHITE else BLACK) = fst x.
Proof. by destruct x as [[] []]. Qed.

Lemma fen_char_class x : piece_class (lower (fen_char x)) = Some (snd x).
Proof. by destruct x as [[] []]. Qed.

Lemma fen_char_not_slash x : Ascii.eqb (fen_char x) "/" = false.
Proof. by destruct x as [[] []]. Qed.

Lemma live_occupant b pos q :
  wf_grid (grid b) -> live b -> in_bounds pos ->
  occupant (grid b) pos = Some q -> is_Some (pieces b !! q).
Proof.
  intros Hg Hlive Hb Hocc. rewrite occupant_gget in Hocc by done.
  destruct (gget (grid b) _ _) as [t|] eqn:Ht; [|done].
  by apply (Hlive _ _ t q Ht).
Qed.

Lemma load_fen_char_digit ri fi d b :
  is_digit d = true -> load_fen_char ri fi d b = Ret (fi + int_of_digit d) b.
Proof. intros H. unfold load_fen_char. by rewrite H. Qed.

(** Reading a piece letter puts a new piece of that colour and kind on the
    square and moves on to the next file; the other squares keep their
    pieces. *)
Lemma load_fen_char_piece ri fi x b :
  wf_grid (grid b) -> live b -> in_bounds (fi, ri) ->
  exists b1,
    load_fen_char ri fi (fen_char x) b = Ret (fi + 1) b1
    /\ wf_grid (grid b1) /\ live b1
    /\ forall pos, in_bounds pos ->
         cell b1 pos = if decide (pos = (fi, ri)) then Some x else cell b pos.
Proof.
  intros Hg Hlive Hb. unfold load_fen_char.
  rewrite fen_char_not_digit, fen_char_class, fen_char_color.
  destruct x as [c k]. simpl fst. simpl snd.
  unfold new_piece at 1. unfold bind at 1.
  set (n := length (pieces b)).
  set (P := make_piece k c (fi, ri)).
  assert (Hstep : exists P',
            color P' = c /\ piece_type P' = k
            /\ forall (m : M Z),
                 bind (if bool_decide (k = PAWN)
                       then
                         if (bool_decide (c = WHITE) && negb (ri =? 1))
                            || (bool_decide (c = BLACK) && negb (ri =? 6))
                         then set_has_moved n true
                         else ret tt
                       else ret tt) (fun _ => m)
                   (set_pieces (pieces b ++ [P]) b)
                 = m (set_pieces (pieces b ++ [P']) b)).
  { assert (Hmoved : forall (m : M Z),
              bind (set_has_moved n true) (fun _ => m)
                (set_pieces (pieces b ++ [P]) b)
              = m (set_pieces (pieces b ++ [with_has_moved true P]) b)).
    { intros m. unfold bind, set_has_moved. simpl pieces.
      assert (Hn : (pieces b ++ [P]) !! n = Some P).
      { subst n. by rewrite lookup_app_r, Nat.sub_diag by lia. }
      rewrite Hn. f_equal. unfold set_pieces. simpl. f_equal.
      subst n. replace (length (pieces b)) with (length (pieces b) + 0)%nat
        at 1 by lia.
      by rewrite alter_app_r. }
    destruct (bool_decide (k = PAWN)).
    - destruct (_ || _).
      + exists (with_has_moved true P). by repeat split.
      + exists P. by repeat split.
    - exists P. by repeat split. }
  destruct Hstep as (P' & Hc & Hk & Hstep). rewrite Hstep.
  set (bx := set_pieces (pieces b ++ [P']) b).
  rewrite (bind_Ret _ _ _ _ _
             (set_piece_here_put bx (fi, ri) (Some n) Hg Hb)).
  set (b1 := set_grid (put (grid bx) (fi, ri) (Some n)) bx).
  assert (Hn1 : pieces b1 !! n = Some P').
  { subst b1 bx n. simpl. by rewrite lookup_app_r, Nat.sub_diag by lia. }
  assert (Hext : store_extends (pieces b) (pieces b1)).
  { intros q Q HQ. exists Q. split; [|done].
    subst b1 bx. simpl. by apply lookup_app_l_Some. }
  exists b1. split; [done|]. split; [by apply wf_grid_put|].
  split.
  { apply (live_put b b1 (fi, ri) n); done. }
  intros pos Hpos. unfold cell. subst b1. simpl grid. simpl pieces.
  destruct (decide (pos = (fi, ri))) as [->|Hne].
  - rewrite occupant_put_eq by done. simpl in Hn1. rewrite Hn1.
    by rewrite Hc, Hk.
  - rewrite occupant_put_ne by done.
    change (grid bx) with (grid b).
    destruct (occupant (grid b) pos) as [q|] eqn:Hocc; [|done].
    destruct (live_occupant b pos q Hg Hlive Hpos Hocc) as [Q HQ].
    destruct (Hext q Q HQ) as (Q' & HQ' & _).
    rewrite HQ. simpl pieces in *.
    assert ((pieces b ++ [P']) !! q = Some Q) as ->; [|done].
    by apply lookup_app_l_Some.
Qed.

(** Reading back what [board_state] wrote for the files from [i] on puts a
    piece of the right colour and kind on each of these squares of rank [ri]
    and changes no other square. *)
Lemma load_fen_row_enc (cr : Z -> option (Color * PieceType)) (ri : Z) :
  0 <= ri < 8 ->
  forall (n : nat) (i ec : Z) (b1 : Board),
    i + Z.of_nat n = 8 -> 0 <= ec <= i ->
    wf_grid (grid b1) -> live b1 ->
    (forall f, i <= f < 8 -> cell b1 (f, ri) = None) ->
    exists fi' b2,
      for_fold (list_ascii_of_string (enc cr (files i n) ec))
        (load_fen_char ri) (i - ec) b1 = Ret fi' b2
      /\ wf_grid (grid b2) /\ live b2
      /\ forall pos, in_bounds pos ->
           cell b2 pos
           = if decide (snd pos = ri /\ i <= fst pos) then cr (fst pos)
             else cell b1 pos.
Proof.
  intros Hri. induction n as [|n IH]; intros i ec b1 Hin Hec Hg Hlive Hempty.
  - simpl. exists (i - ec), b1. split; [done|]. split; [done|].
    split; [done|]. intros pos [Hf _]. case_decide; [lia|done].
  - simpl files. simpl enc. destruct (cr i) as [x|] eqn:Hcr.
    + assert (Hb : in_bounds (i, ri)) by (unfold in_bounds; simpl; lia).
      assert (Hpiece : forall b0 : Board,
                wf_grid (grid b0) -> live b0 ->
                (forall f, i <= f < 8 -> cell b0 (f, ri) = None) ->
                (forall pos, in_bounds pos -> cell b0 pos = cell b1 pos) ->
                exists fi' b2,
                  for_fold
                    (list_ascii_of_string
                       (String (fen_char x) (enc cr (files (i + 1) n) 0)))
                    (load_fen_char ri) i b0 = Ret fi' b2
                  /\ wf_grid (grid b2) /\ live b2
                  /\ forall pos, in_bounds pos ->
                       cell b2 pos
                       = if decide (snd pos = ri /\ i <= fst pos)
                         then cr (fst pos) else cell b1 pos).
      { intros b0 Hg0 Hlive0 Hempty0 Hsame.
        destruct (load_fen_char_piece ri i x b0 Hg0 Hlive0 Hb)
          as (b1' & Hrun & Hg1 & Hlive1 & Hcell1).
        simpl. rewrite (bind_Ret _ _ _ _ _ Hrun).
        destruct (IH (i + 1) 0 b1') as (fi' & b2 & Hrun2 & Hg2 & Hl2 & Hcell2);
          [lia|lia|done|done| |].
        { intros f Hf. rewrite Hcell1 by (unfold in_bounds; simpl; lia).
          case_decide; [simplify_eq; lia|]. apply Hempty0. lia. }
        rewrite Z.sub_0_r in Hrun2.
        exists fi', b2. split; [done|]. split; [done|]. split; [done|].
        intros pos Hpos. rewrite Hcell2 by done.
        rewrite Hcell1 by done. rewrite <- Hsame by done.
        destruct pos as [pf pr]. simpl.
        repeat case_decide; simplify_eq; try done; try lia.
        match goal with
        | Hn : ~ (_ = _ /\ _ <= _), Hne : (_, _) <> (_, _),
          Hy : _ = _ /\ _ <= _ |- _ =>
            exfalso; destruct Hy as [-> Hy]; apply Hn; split; [done|];
            destruct (decide (pf = i)) as [->|]; [by destruct Hne|lia]
        end. }
      destruct (0 <? ec) eqn:Hpos.
      * destruct (str_int_digit ec) as (d & Hd & Hdig & Hint); [lia|].
        rewrite Hd. simpl.
        rewrite (bind_Ret _ _ _ _ _ (load_fen_char_digit ri (i - ec) d b1 Hdig)).
        rewrite Hint. replace (i - ec + ec) with i by lia.
        by apply (Hpiece b1).
      * assert (ec = 0) as -> by lia. rewrite Z.sub_0_r.
        by apply (Hpiece b1).
    + destruct (i =? 7) eqn:Hi7.
      * assert (n = 0%nat) as -> by lia. simpl.
        destruct (str_int_digit (ec + 1)) as (d & Hd & Hdig & Hint); [lia|].
        rewrite Hd. simpl.
        rewrite (bind_Ret _ _ _ _ _ (load_fen_char_digit ri (i - ec) d b1 Hdig)).
        exists (i - ec + int_of_digit d), b1.
        split; [done|]. split; [done|]. split; [done|].
        intros [pf pr] [Hpf Hpr]. simpl in *.
        case_decide; [|done]. destruct H as [-> H].
        assert (pf = i) as -> by lia. rewrite Hcr. apply Hempty. lia.
      * destruct (IH (i + 1) (ec + 1) b1) as (fi' & b2 & Hrun2 & Hg2 & Hl2 & Hcell2);
          [lia|lia|done|done| |].
        { intros f Hf. apply Hempty. lia. }
        replace (i + 1 - (ec + 1)) with (i - ec) in Hrun2 by lia.
        exists fi', b2. split; [done|]. split; [done|]. split; [done|].
        intros [pf pr] Hpos. rewrite Hcell2 by done. simpl.
        repeat case_decide; try done; try lia.
        match goal with
        | Hn : ~ (_ = _ /\ _ <= _), Hy : _ = _ /\ _ <= _ |- _ =>
            destruct Hy as [-> Hy];
            destruct (decide (pf = i)) as [->|];
              [|exfalso; apply Hn; split; [done|lia]]
        end.
        rewrite Hcr. apply Hempty. lia.
Qed.

(** *** Splitting the placement string at its slashes *)

Fixpoint no_slash (s : string) : bool :=
  match s with
  | EmptyString => true
  | String c s' => negb (Ascii.eqb c "/") && no_slash s'
  end.

(** The rows joined by slashes. *)
Fixpoint join_slash (l : list string) : string :=
  match l with
  | [] => EmptyString
  | [x] => x
  | x :: l' => append x (String "/" (join_slash l'))
  end.

Lemma no_slash_append s t :
  no_slash (append s t) = no_slash s && no_slash t.
Proof.
  induction s as [|c s IH]; simpl; [done|]. rewrite IH.
  by rewrite andb_assoc.
Qed.

Lemma split_no_slash s : no_slash s = true -> split "/" s = [s].
Proof.
  induction s as [|c s IH]; simpl; [done|].
  rewrite andb_true_iff, negb_true_iff. intros [Hc Hs].
  rewrite Hc, (IH Hs). done.
Qed.

Lemma split_append_slash s t :
  no_slash s = true ->
  split "/" (append s (String "/" t)) = s :: split "/" t.
Proof.
  induction s as [|c s IH]; simpl; [done|].
  rewrite andb_true_iff, negb_true_iff. intros [Hc Hs].
  rewrite Hc, (IH Hs). done.
Qed.

Lemma split_join_slash l :
  l <> [] -> Forall (fun s => no_slash s = true) l ->
  split "/" (join_slash l) = l.
Proof.
  induction l as [|x l IH]; [done|]. intros _ Hall.
  apply Forall_cons in Hall. destruct Hall as [Hx Hl].
  destruct l as [|y l].
  - simpl. by apply split_no_slash.
  - change (join_slash (x :: y :: l))
      with (append x (String "/" (join_slash (y :: l)))).
    rewrite split_append_slash by done. f_equal. by apply IH.
Qed.

Lemma drop_last_snoc s c : drop_last (append s (String c EmptyString)) = s.
Proof.
  induction s as [|a s IH]; simpl; [done|].
  rewrite IH. by destruct s.
Qed.

Lemma fold_rows_join (f : Z -> string) (rs : list Z) (acc : string) :
  fold_left (fun s r => append s (append (f r) "/")) rs acc
  = append acc (fold_right (fun r s => append (f r) (String "/" s))
                  EmptyString rs).
Proof.
  revert acc. induction rs as [|r rs IH]; intros acc; simpl.
  - by rewrite append_nil_r.
  - rewrite IH, !append_assoc. done.
Qed.

Lemma drop_last_rows (f : Z -> string) (rs : list Z) :
  rs <> [] ->
  drop_last (fold_right (fun r s => append (f r) (String "/" s))
               EmptyString rs)
  = join_slash (map f rs).
Proof.
  induction rs as [|r rs IH]; [done|]. intros _.
  destruct rs as [|r' rs].
  - simpl. apply drop_last_snoc.
  - change (drop_last (append (f r) (String "/"
              (fold_right (fun r s => append (f r) (String "/" s))
                 EmptyString (r' :: rs))))
            = append (f r) (String "/" (join_slash (map f (r' :: rs))))).
    rewrite <- IH by done.
    set (rest := fold_right _ _ (r' :: rs)).
    assert (Hne : rest <> EmptyString).
    { subst rest. simpl. by destruct (f r'). }
    clearbody rest. clear IH.
    induction (f r) as [|a s IHs]; simpl.
    + by destruct rest.
    + rewrite IHs. destruct (append s (String "/" rest)) eqn:E; [|done].
      by destruct s.
Qed.

Lemma no_slash_str_int_digit ec : 1 <= ec <= 8 -> no_slash (str_int ec) = true.
Proof.
  intros H.
  assert (ec = 1 \/ ec = 2 \/ ec = 3 \/ ec = 4 \/ ec = 5 \/ ec = 6
          \/ ec = 7 \/ ec = 8) as Hc by lia.
  repeat destruct Hc as [->|Hc]; try subst ec; reflexivity.
Qed.

Lemma no_slash_enc cr n i ec :
  i + Z.of_nat n = 8 -> 0 <= ec <= i ->
  no_slash (enc cr (files i n) ec) = true.
Proof.
  revert i ec. induction n as [|n IH]; intros i ec Hin Hec; [done|].
  simpl. destruct (cr i) as [x|].
  - destruct (0 <? ec) eqn:E.
    + rewrite no_slash_append, no_slash_str_int_digit by lia. simpl.
      rewrite fen_char_not_slash. simpl. apply IH; lia.
    + simpl. rewrite fen_char_not_slash. simpl.
      assert (ec = 0) as -> by lia. apply IH; lia.
  - destruct (i =? 7) eqn:E.
    + rewrite no_slash_append, no_slash_str_int_digit by lia. simpl.
      apply IH; lia.
    + apply IH; lia.
Qed.

Lemma append_nil_l (s : string) : append EmptyString s = s.
Proof. reflexivity. Qed.

Lemma split_fen_placement b :
  split "/" (fen_placement b) = map (fen_row b) range8_down.
Proof.
  unfold fen_placement. rewrite fold_rows_join, append_nil_l.
  rewrite drop_last_rows by done.
  apply split_join_slash; [done|].
  rewrite Forall_forall. intros s Hs.
  apply list_elem_of_In, in_map_iff in Hs. destruct Hs as (r & <- & _).
  rewrite fen_row_enc. by apply no_slash_enc.
Qed.

(** *** Rebuilding the tiles *)

Ltac destruct_len8 r H :=
  do 8 (destruct r as [|? r]; [simpl in H; discriminate H|]);
  destruct r; [|simpl in H; discriminate H].

(** The first loop of [load_fen] replaces every tile of an 8 by 8 grid by a
    fresh empty one. *)
Lemma load_fen_rebuild b :
  wf_grid (grid b) ->
  for_each range8 (fun file =>
    for_each range8 (fun rank =>
      let is_light := (rank + file) mod 2 =? 1 in
      set_tile file rank (mkTile file rank is_light None false false false))) b
  = Ret tt (set_grid empty_grid b).
Proof.
  intros [Hl Hrows]. destruct b as [g ps sel fl ept mh ci md cm sm mc rs].
  simpl in Hl, Hrows.
  destruct g as [|r0 g]; [discriminate|]. destruct g as [|r1 g]; [discriminate|].
  destruct g as [|r2 g]; [discriminate|]. destruct g as [|r3 g]; [discriminate|].
  destruct g as [|r4 g]; [discriminate|]. destruct g as [|r5 g]; [discriminate|].
  destruct g as [|r6 g]; [discriminate|]. destruct g as [|r7 g]; [discriminate|].
  destruct g; [|discriminate].
  repeat match goal with
  | H : Forall _ (_ :: _) |- _ => apply Forall_cons in H; destruct H as [? H]
  end.
  destruct_len8 r0 H. destruct_len8 r1 H0. destruct_len8 r2 H1.
  destruct_len8 r3 H2. destruct_len8 r4 H3. destruct_len8 r5 H4.
  destruct_len8 r6 H5. destruct_len8 r7 H6.
  vm_compute. reflexivity.
Qed.

(** *** Reading all the ranks *)

Lemma load_fen_ranks (b : Board) :
  forall (n : nat) (i : Z) (b1 : Board),
    i + Z.of_nat n = 8 -> 0 <= i ->
    wf_grid (grid b1) -> live b1 ->
    (forall pos, in_bounds pos -> i <= snd pos -> cell b1 pos = None) ->
    exists b2,
      for_each (map (fun r => (r, fen_row b r)) (files i n))
        (fun ir => _ <- load_fen_row (fst ir) (snd ir) ;; ret tt) b1
      = Ret tt b2
      /\ wf_grid (grid b2) /\ live b2
      /\ forall pos, in_bounds pos ->
           cell b2 pos = if decide (i <= snd pos) then cell b pos
                         else cell b1 pos.
Proof.
  induction n as [|n IH]; intros i b1 Hin Hi Hg Hlive Hempty.
  - exists b1. split; [done|]. split; [done|]. split; [done|].
    intros pos [_ Hr]. case_decide; [lia|done].
  - simpl files. simpl map. unfold for_each. simpl for_fold.
    simpl fst. simpl snd.
    destruct (load_fen_row_enc (fun f => cell b (f, i)) i ltac:(lia)
                8%nat 0 0 b1 eq_refl ltac:(lia) Hg Hlive)
      as (fi' & b2 & Hrun & Hg2 & Hl2 & Hcell2).
    { intros f Hf. apply Hempty; [unfold in_bounds; simpl; lia|simpl; lia]. }
    assert (Hrow : load_fen_row i (fen_row b i) b1 = Ret fi' b2).
    { unfold load_fen_row. rewrite fen_row_enc. exact Hrun. }
    rewrite (bind_Ret _ _ _ _ _
               (bind_Ret _ (fun _ => ret tt) _ _ _ Hrow)).
    destruct (IH (i + 1) b2) as (b3 & Hrun3 & Hg3 & Hl3 & Hcell3);
      [lia|lia|done|done| |].
    { intros pos Hpos Hr. rewrite Hcell2 by done.
      rewrite decide_False by lia. apply Hempty; [done|lia]. }
    exists b3. split; [exact Hrun3|]. split; [done|]. split; [done|].
    intros [pf pr] Hpos. rewrite Hcell3 by done. simpl.
    destruct (decide (i + 1 <= pr)) as [Hle|Hnle].
    + by rewrite decide_True by lia.
    + rewrite Hcell2 by done. simpl.
      destruct (decide (i <= pr)) as [Hle'|Hnle'].
      * assert (pr = i) as -> by lia.
        rewrite decide_True; [done|]. destruct Hpos as [Hpf _]. simpl in Hpf.
        lia.
      * rewrite decide_False by lia. done.
Qed.

(** *** The material of a placement *)

(** The two running totals of [calculate_material], as a function of the
    colour and kind found on each square. *)
Definition material_of (c : Pos -> option (Color * PieceType)) : Z :=
  let totals :=
    fold_left (fun totals r =>
      fold_left (fun (totals : Z * Z) f =>
        match c (f, r) with
        | None => totals
        | Some x =>
            if bool_decide (fst x = WHITE)
            then (fst totals + piece_value (snd x), snd totals)
            else (fst totals, snd totals + piece_value (snd x))
        end) range8 totals) range8 (0, 0) in
  fst totals - snd totals.

Lemma calculate_material_pure b :
  wf_grid (grid b) -> live b ->
  calculate_material b = Ret (material_of (cell b)) b.
Proof.
  intros Hg Hlive. unfold calculate_material, material_of.
  erewrite bind_Ret; [reflexivity|].
  apply (for_fold_pure range8 _
           (fun totals r =>
              fold_left (fun (totals : Z * Z) f =>
                match cell b (f, r) with
                | None => totals
                | Some x =>
                    if bool_decide (fst x = WHITE)
                    then (fst totals + piece_value (snd x), snd totals)
                    else (fst totals, snd totals + piece_value (snd x))
                end) range8 totals) b).
  intros totals r Hr.
  apply (for_fold_pure range8 _
           (fun (totals : Z * Z) f =>
              match cell b (f, r) with
              | None => totals
              | Some x =>
                  if bool_decide (fst x = WHITE)
                  then (fst totals + piece_value (snd x), snd totals)
                  else (fst totals, snd totals + piece_value (snd x))
              end) b).
  intros totals' f Hf. apply range8_bounds in Hr, Hf.
  assert (Hb : in_bounds (f, r)) by by split.
  destruct (get_tile_in_bounds b (f, r) Hg Hb) as (t & Ht & Hget).
  simpl in Hget. rewrite (bind_Ret _ _ _ _ _ Hget).
  unfold cell. rewrite occupant_gget by done. rewrite Ht.
  destruct (piece_here t) as [p|] eqn:Hp; [|done].
  destruct (Hlive _ _ _ _ Ht Hp) as [P HP].
  rewrite (bind_Ret _ _ _ _ _ (deref_Some b p P HP)). rewrite HP. simpl.
  by destruct (bool_decide _).
Qed.

Lemma fold_left_ext_in {A B} (f g : A -> B -> A) (l : list B) (a : A) :
  (forall a x, In x l -> f a x = g a x) -> fold_left f l a = fold_left g l a.
Proof.
  revert a. induction l as [|x l IH]; intros a H; simpl; [done|].
  rewrite (H a x) by by left. apply IH. intros a' y Hy. apply H. by right.
Qed.

Lemma material_of_ext c1 c2 :
  (forall pos, in_bounds pos -> c1 pos = c2 pos) ->
  material_of c1 = material_of c2.
Proof.
  intros H. unfold material_of. f_equal; f_equal.
  all: apply fold_left_ext_in; intros totals r Hr;
    apply fold_left_ext_in; intros totals' f Hf;
    rewrite H; [done|];
    apply list_elem_of_In, range8_bounds in Hr;
    apply list_elem_of_In, range8_bounds in Hf; by split.
Qed.

Lemma empty_grid_wf : wf_grid empty_grid.
Proof. apply wf_gridb_sound. reflexivity. Qed.

Lemma empty_grid_vacant fi ri t :
  gget empty_grid fi ri = Some t -> piece_here t = None.
Proof.
  intros H. destruct (gget_lt _ _ _ _ empty_grid_wf H) as [Hf Hr].
  do 8 (destruct ri as [|ri];
        [do 8 (destruct fi as [|fi];
               [vm_compute in H; by simplify_eq|]); lia|]).
  lia.
Qed.

Lemma empty_board_live b : live (set_grid empty_grid b).
Proof.
  intros fi ri t q Ht Hq. simpl in Ht.
  by rewrite (empty_grid_vacant fi ri t Ht) in Hq.
Qed.

Lemma empty_board_cell b pos :
  in_bounds pos -> cell (set_grid empty_grid b) pos = None.
Proof.
  intros Hb. unfold cell. simpl grid.
  rewrite occupant_gget by (done || apply empty_grid_wf).
  destruct (gget empty_grid _ _) as [t|] eqn:Ht; [|done].
  by rewrite (empty_grid_vacant _ _ t Ht).
Qed.

(** *** The round trip *)

(** [load_fen] run on the placement string [board_state] gives for a board
    [b], on any 8 by 8 board [b0]: every square holds a piece of the colour
    and kind it holds on [b], and [material_differential] is the signed sum
    of the piece values of [b].  The run ends in the [AttributeError] of
    [remove_check_indicators], after the grid and the material are set. *)
Lemma fen_round_trip (b b0 : Board) :
  wf_grid (grid b) -> live b -> wf_grid (grid b0) ->
  board_state None b = Ret (fen_placement b) b
  /\ exists b',
       load_fen (fen_placement b) b0 = Raise AttributeError b'
       /\ wf_grid (grid b') /\ live b'
       /\ (forall pos, in_bounds pos -> cell b' pos = cell b pos)
       /\ material_differential b' = material_of (cell b)
       /\ calculate_material b = Ret (material_of (cell b)) b.
Proof.
  intros Hg Hlive Hg0. split; [by apply board_state_pure|].
  unfold load_fen.
  rewrite (bind_Ret _ _ _ _ _ (load_fen_rebuild b0 Hg0)).
  rewrite split_fen_placement.
  change (enumerate (rev (map (fen_row b) range8_down)))
    with (map (fun r => (r, fen_row b r)) (files 0 8)).
  destruct (load_fen_ranks b 8%nat 0 (set_grid empty_grid b0))
    as (b2 & Hrun & Hg2 & Hl2 & Hcell2);
    [done|done|apply empty_grid_wf|apply empty_board_live| |].
  { intros pos Hpos _. by apply empty_board_cell. }
  rewrite (bind_Ret _ _ _ _ _ Hrun).
  rewrite (bind_Ret _ _ _ _ _ (calculate_material_pure b2 Hg2 Hl2)).
  unfold modify at 1. unfold bind at 1.
  set (b3 := set_material_differential (material_of (cell b2)) b2).
  rewrite (remove_check_indicators_AttributeError b3) by done.
  assert (Hsame : forall pos, in_bounds pos -> cell b2 pos = cell b pos).
  { intros pos Hpos. rewrite Hcell2 by done.
    destruct Hpos as [_ Hr]. by rewrite decide_True by lia. }
  exists b3. split; [done|]. split; [done|]. split; [done|].
  split; [exact Hsame|]. split.
  - simpl. by apply material_of_ext.
  - by apply calculate_material_pure.
Qed.

(** C5, as the code has it.  The round trip reproduces the placement, and it
    sets [material_differential] to the signed sum of the values on the
    board.  On the board left by [promote] (see C6) the field of [P] is the
    stale 1, so the board read back from [board_state()] of [P] has the same
    placement but a material differential of 9, not that of [P]. *)
Theorem round_trip_after_promote :
  material_differential promoted_a8 = 1
  /\ board_state None promoted_a8
     = Ret "Q3k3/8/8/8/8/8/8/4K3"%string promoted_a8
  /\ exists b',
       load_fen "Q3k3/8/8/8/8/8/8/4K3" promoted_a8 = Raise AttributeError b'
       /\ board_state None b' = Ret "Q3k3/8/8/8/8/8/8/4K3"%string b'
       /\ (forall pos, in_bounds pos -> cell b' pos = cell promoted_a8 pos)
       /\ material_differential b' = 9.
Proof.
  assert (Hg : wf_grid (grid promoted_a8)).
  { apply wf_gridb_sound. vm_compute. reflexivity. }
  assert (Hlive : live promoted_a8).
  { assert (Hwf : wf_board promoted_a8).
    { apply wf_boardb_sound. vm_compute. reflexivity. }
    exact (wf_board_live _ Hwf). }
  destruct (fen_round_trip promoted_a8 promoted_a8 Hg Hlive Hg)
    as (Hfen & b' & Hload & Hg' & Hl' & Hcell & Hmat & _).
  assert (Hstr : fen_placement promoted_a8 = "Q3k3/8/8/8/8/8/8/4K3"%string).
  { vm_compute. reflexivity. }
  rewrite Hstr in Hfen, Hload.
  split; [reflexivity|]. split; [exact Hfen|].
  exists b'. split; [exact Hload|]. split.
  - rewrite (board_state_pure b' Hg' Hl'). f_equal.
    rewrite <- Hstr. unfold fen_placement. f_equal.
    apply fold_left_ext_in. intros s r Hr. do 2 f_equal.
    rewrite !fen_row_enc.
    assert (Hr' : 0 <= r < 8).
    { unfold range8_down in Hr. simpl in Hr. lia. }
    clear -Hcell Hr'.
    assert (Henc : forall n i ec, i + Z.of_nat n = 8 -> 0 <= i ->
              enc (fun f => cell b' (f, r)) (files i n) ec
              = enc (fun f => cell promoted_a8 (f, r)) (files i n) ec).
    { induction n as [|n IH]; intros i ec Hin Hi; [done|].
      simpl. rewrite Hcell by (unfold in_bounds; simpl; lia).
      destruct (cell promoted_a8 (i, r)); destruct (_ : bool);
        rewrite ?IH by lia; done. }
    by apply Henc.
  - split; [exact Hcell|]. rewrite Hmat. vm_compute. reflexivity.
Qed.

(** * The rest of [tile.py] and [board.py], and the board side of the view *)

(** ** [tile.py]: the methods of [Tile] *)




Definition with_highlighted (h : bool) (t : Tile) : Tile :=
  mkTile (file t) (rank t) (is_light_square t) (piece_here t) h (prev t)
    (clicked t).

Definition with_prev (h : bool) (t : Tile) : Tile :=
  mkTile (file t) (rank t) (is_light_square t) (piece_here t) (highlighted t)
    h (clicked t).

Definition with_clicked (h : bool) (t : Tile) : Tile :=
  mkTile (file t) (rank t) (is_light_square t) (piece_here t) (highlighted t)
    (prev t) h.

(** [Tile.highlight_move], [Tile.clear_highlight], [Tile.prev_move],
    [Tile.clear_prev], [Tile.click], [Tile.clear_click]: what the call does
    to the tile object. *)
Definition highlight_move : Tile -> Tile := with_highlighted true.
Definition clear_highlight : Tile -> Tile := with_highlighted false.
Definition prev_move : Tile -> Tile := with_prev true.
Definition clear_prev : Tile -> Tile := with_prev false.
Definition click : Tile -> Tile := with_clicked true.
Definition clear_click : Tile -> Tile := with_clicked false.

(** [grid[rank][file].method()] for a method [h] that updates the tile in
    place. *)
Definition on_tile (f r : Z) (h : Tile -> Tile) : M unit :=
  fun b =>
    match py_index (length (grid b)) r with
    | None => Raise IndexError b
    | Some ri =>
        match grid b !! ri with
        | None => Raise IndexError b
        | Some row =>
            match py_index (length row) f with
            | None => Raise IndexError b
            | Some fi => Ret tt (set_grid (alter (alter h fi) ri (grid b)) b)
            end
        end
    end.

(** ** [board.py]: the methods not met so far *)

Definition with_stalemate (s : bool) (b : Board) : Board :=
  mkBoard (grid b) (pieces b) (selected_piece b) (checking_for_checks b)
    (en_passant_target b) (move_history b) (current_index b)
    (material_differential b) (checkmate b) s (mate_color b) (resigned b).

(** [Board.set_stalemate] *)
Definition set_stalemate : M unit := modify (with_stalemate true).

(** [Board.remove_highlights] *)
Definition remove_highlights : M unit :=
  for_each range8 (fun rank =>
    for_each range8 (fun file => on_tile file rank clear_highlight)).

(** [Board.remove_prev] *)
Definition remove_prev : M unit :=
  for_each range8 (fun rank =>
    for_each range8 (fun file => on_tile file rank clear_prev)).

(** [Board.highlight_moves] *)
Definition highlight_moves (get_moves : ref -> Board -> list Pos)
    (fuel : nat) : M unit :=
  b <- get_board ;;
  match selected_piece b with
  | Some sel =>
      legal_moves <- get_all_legal get_moves fuel sel ;;
      for_each legal_moves (fun move =>
        on_tile (fst move) (snd move) highlight_move)
  | None => ret tt
  end.

(** A loop with a local accumulator that the body can leave through
    [return v]: [inr v] is the value returned, [inl s] the accumulator of a
    loop that ran to its end. *)
Fixpoint for_fold_return {A S R} (l : list A) (body : S -> A -> M (S + R))
    (s : S) : M (S + R) :=
  match l with
  | [] => ret (inl s)
  | x :: l' =>
      o <- body s x ;;
      match o with
      | inl s' => for_fold_return l' body s'
      | inr v => ret (inr v)
      end
  end.

(** [Board.check_draw] *)
Definition check_draw : M Z :=
  o <-
    for_fold_return range8 (fun piece_count rank =>
      for_fold_return range8 (fun (piece_count : Z) file =>
        t <- get_tile file rank ;;
        match piece_here t with
        | Some p =>
            let piece_count := piece_count + 1 in
            P <- deref p ;;
            if bool_decide (piece_type P ∈ [ROOK; QUEEN; PAWN])
            then ret (inr 0)
            else ret (inl piece_count)
        | None => ret (inl piece_count)
        end) piece_count) 0 ;;
  match o with
  | inr v => ret v
  | inl piece_count => if piece_count <=? 4 then ret 1 else ret 0
  end.

(** [Board.reset_board] *)
Definition reset_board : M unit :=
  for_each range8 (fun rank =>
    for_each range8 (fun file =>
      let is_light := (file + rank) mod 2 =? 1 in
      set_tile file rank (mkTile file rank is_light None false false false))) ;;;
  modify (set_selected_piece None) ;;;
  modify (set_checking_for_checks false) ;;;
  modify (set_en_passant_target None) ;;;
  modify (set_move_history []) ;;;
  modify (set_current_index (-1)) ;;;
  modify (set_material_differential 0) ;;;
  modify (fun b => set_terminal false (mate_color b) (resigned b) b) ;;;
  modify (with_stalemate false) ;;;
  modify (fun b => set_terminal (checkmate b) None (resigned b) b) ;;;
  modify (fun b => set_terminal (checkmate b) (mate_color b) false b) ;;;
  remove_check_indicators ;;;
  initialize_pieces.

(** ** [view.py] and [spritesheet.py]: what the view does to the board *)

(** [GameView.screen_to_board_coords] and [GameView.board_to_screen_coords],
    [user_color] being [self.game.user_color]. *)
Definition screen_to_board_coords (user_color : Color)
    (visual_file visual_rank : Z) : Z * Z :=
  if bool_decide (user_color = BLACK)
  then (7 - visual_file, 7 - visual_rank)
  else (visual_file, visual_rank).

Definition board_to_screen_coords (user_color : Color)
    (board_file board_rank : Z) : Z * Z :=
  if bool_decide (user_color = BLACK)
  then (7 - board_file, 7 - board_rank)
  else (board_file, board_rank).

(** [ChessSprites.build_from_board], as far as the board goes: the sprite
    list is rebuilt from what the tiles hold, and [board.remove_prev()] is
    its one call that changes the board. *)
Definition build_from_board : M unit := remove_prev.

(** [self.board.move_history[i]] *)
Definition history_at (i : Z) : M MoveRecord :=
  fun b =>
    match py_index (length (move_history b)) i with
    | None => Raise IndexError b
    | Some n =>
        match move_history b !! n with
        | Some move => Ret move b
        | None => Raise IndexError b
        end
    end.

(** [GameView.show_prev_move] *)
Definition show_prev_move : M unit :=
  b <- get_board ;;
  if 0 <? current_index b
  then
    modify (fun b => set_current_index (current_index b - 1) b) ;;;
    b <- get_board ;;
    move <- history_at (current_index b) ;;
    load_fen (mr_FEN move) ;;;
    build_from_board
  else ret tt.

(** [GameView.show_next_move] *)
Definition show_next_move : M unit :=
  b <- get_board ;;
  if current_index b <? Z.of_nat (length (move_history b)) - 1
  then
    modify (fun b => set_current_index (current_index b + 1) b) ;;;
    b <- get_board ;;
    move <- history_at (current_index b) ;;
    load_fen (mr_FEN move) ;;;
    build_from_board
  else ret tt.

Section View.

Variable get_moves : ref -> Board -> list Pos.
Variable piece_move : ref -> Pos -> Board -> Board.
Variable piece_delete : ref -> Board -> Board.

(** [piece.promote()] of the pawn class, a hook of [_pieces] like the two
    above. *)
Variable pawn_promote : ref -> Board -> Board.

(** [GameView.move_piece_and_update_sprites], the board side: the calls that
    only touch the sprite list ([remove_sprite_by_piece]) or only print
    ([print], [print_board]) are left out. *)
Definition move_piece_and_update_sprites (fuel : nat) (f r : Z) : M unit :=
  b <- get_board ;;
  if checkmate b || stalemate b then ret tt
  else
    t <- get_tile f r ;;
    (match piece_here t with
     | Some _ => set_piece_here f r None
     | None => ret tt
     end) ;;;
    move_piece get_moves piece_move piece_delete fuel f r ;;;
    t <- get_tile f r ;;
    (match get_piece_here t with
     | Some piece =>
         P <- deref piece ;;
         if bool_decide (piece_type P = PAWN)
            && (((r =? 7) && bool_decide (color P = WHITE))
                || ((r =? 0) && bool_decide (color P = BLACK)))
         then
           modify (pawn_promote piece) ;;;
           P' <- deref piece ;;
           promote (color P') f r
         else ret tt
     | None => ret tt
     end) ;;;
    build_from_board.

End View.

(** ** Updating tiles in place *)

(** The tile of the square [(fi, ri)] updated by [h]. *)
Definition galter (g : list (list Tile)) (fi ri : nat) (h : Tile -> Tile)
    : list (list Tile) :=
  alter (alter h fi) ri g.

Lemma on_tile_in_bounds b pos h :
  wf_grid (grid b) -> in_bounds pos ->
  on_tile (fst pos) (snd pos) h b
  = Ret tt (set_grid (galter (grid b) (Z.to_nat (fst pos))
                        (Z.to_nat (snd pos)) h) b).
Proof.
  intros Hg [Hf Hr]. unfold on_tile, galter.
  destruct (wf_grid_row (grid b) (Z.to_nat (snd pos)) Hg) as (row & Hrow & Hlen);
    [lia|].
  destruct Hg as [Hl _].
  rewrite py_index_in_range by lia. rewrite Hrow.
  rewrite py_index_in_range by lia. done.
Qed.

Lemma wf_grid_galter g fi ri h : wf_grid g -> wf_grid (galter g fi ri h).
Proof.
  intros [Hl Hr]. split.
  - unfold galter. by rewrite length_alter.
  - unfold galter. rewrite Forall_lookup in Hr. rewrite Forall_lookup.
    intros i row Hrow.
    destruct (decide (ri = i)) as [->|Hne].
    + rewrite list_lookup_alter_eq in Hrow.
      destruct (g !! i) as [row0|] eqn:E; simplify_eq/=.
      rewrite length_alter. eauto.
    + rewrite list_lookup_alter_ne in Hrow by done. eauto.
Qed.

Lemma gget_galter_eq g fi ri h :
  gget (galter g fi ri h) fi ri = h <$> gget g fi ri.
Proof.
  unfold gget, galter. rewrite list_lookup_alter_eq.
  destruct (g !! ri) as [row|]; [|done]. simpl.
  by rewrite list_lookup_alter_eq.
Qed.

Lemma gget_galter_ne g fi ri fi' ri' h :
  (fi, ri) <> (fi', ri') -> gget (galter g fi ri h) fi' ri' = gget g fi' ri'.
Proof.
  unfold gget, galter. intros H.
  destruct (decide (ri = ri')) as [->|Hne].
  - rewrite list_lookup_alter_eq.
    destruct (g !! ri') as [row|]; [|done]. simpl.
    rewrite list_lookup_alter_ne; [done|]. congruence.
  - by rewrite list_lookup_alter_ne.
Qed.

(** The tile of an in-bounds square after the tile of [pos] was updated. *)
Lemma tile_at_galter g pos pos' h :
  wf_grid g -> in_bounds pos -> in_bounds pos' ->
  tile_at (galter g (Z.to_nat (fst pos)) (Z.to_nat (snd pos)) h)
    (fst pos') (snd pos')
  = (if decide (pos = pos') then fmap h else id)
      (tile_at g (fst pos') (snd pos')).
Proof.
  intros Hg Hb Hb'.
  rewrite !tile_at_gget by (done || by apply wf_grid_galter).
  case_decide as E.
  - subst pos'. apply gget_galter_eq.
  - apply gget_galter_ne. intros E'. apply E.
    destruct pos as [f r], pos' as [f' r'], Hb as [? ?], Hb' as [? ?].
    simpl in *. simplify_eq. f_equal; lia.
Qed.

(** Calling a tile method on all 64 tiles, rank by rank. *)
Lemma for_each_tile b h :
  wf_grid (grid b) ->
  for_each range8 (fun rank =>
    for_each range8 (fun file => on_tile file rank h)) b
  = Ret tt (set_grid (map (map h) (grid b)) b).
Proof.
  intros [Hl Hrows]. destruct b as [g ps sel fl ept mh ci md cm sm mc rs].
  simpl in Hl, Hrows.
  destruct g as [|r0 g]; [discriminate|]. destruct g as [|r1 g]; [discriminate|].
  destruct g as [|r2 g]; [discriminate|]. destruct g as [|r3 g]; [discriminate|].
  destruct g as [|r4 g]; [discriminate|]. destruct g as [|r5 g]; [discriminate|].
  destruct g as [|r6 g]; [discriminate|]. destruct g as [|r7 g]; [discriminate|].
  destruct g; [|discriminate].
  repeat match goal with
  | H : Forall _ (_ :: _) |- _ => apply Forall_cons in H; destruct H as [? H]
  end.
  destruct_len8 r0 H. destruct_len8 r1 H0. destruct_len8 r2 H1.
  destruct_len8 r3 H2. destruct_len8 r4 H3. destruct_len8 r5 H4.
  destruct_len8 r6 H5. destruct_len8 r7 H6.
  vm_compute. reflexivity.
Qed.

Lemma tile_at_map g f r h :
  tile_at (map (map h) g) f r = h <$> tile_at g f r.
Proof.
  unfold tile_at. rewrite length_map.
  destruct (py_index (length g) r) as [ri|]; [|done].
  change (map (map h) g) with (fmap (map h) g).
  rewrite list_lookup_fmap.
  destruct (g !! ri) as [row|]; [|done]. simpl.
  rewrite length_map.
  destruct (py_index (length row) f) as [fi|]; [|done].
  change (map h row) with (fmap h row).
  by rewrite list_lookup_fmap.
Qed.

(** ** The tile predicates and the marks on the tiles *)


(** [remove_highlights] and [remove_prev] return on every 8 by 8 grid; they
    replace each of the 64 tiles by the same tile with [highlighted], resp.
    [prev], set to [False], and change nothing else of the board: no piece, no
    other mark. *)
Theorem remove_marks_clear_every_tile (b : Board) :
  wf_grid (grid b) ->
  (exists b', remove_highlights b = Ret tt b'
     /\ b' = set_grid (grid b') b
     /\ forall f r,
          tile_at (grid b') f r = clear_highlight <$> tile_at (grid b) f r)
  /\ (exists b', remove_prev b = Ret tt b'
        /\ b' = set_grid (grid b') b
        /\ forall f r,
             tile_at (grid b') f r = clear_prev <$> tile_at (grid b) f r).
Proof.
  intros Hg. split.
  - exists (set_grid (map (map clear_highlight) (grid b)) b).
    split; [by apply for_each_tile|]. split; [done|].
    intros f r. apply tile_at_map.
  - exists (set_grid (map (map clear_prev) (grid b)) b).
    split; [by apply for_each_tile|]. split; [done|].
    intros f r. apply tile_at_map.
Qed.

Lemma remove_marks_clear_every_tile_witness :
  wf_grid (grid new_board)
  /\ exists b', remove_highlights new_board = Ret tt b'
       /\ b' = set_grid (grid b') new_board
       /\ forall f r,
            tile_at (grid b') f r
            = clear_highlight <$> tile_at (grid new_board) f r.
Proof.
  split; [apply (wf_shape _ new_board_wf)|].
  apply (proj1 (remove_marks_clear_every_tile new_board
                  (wf_shape _ new_board_wf))).
Defined.

(** Highlighting a list of squares of the board. *)
Lemma highlight_list (l : list Pos) :
  Forall in_bounds l ->
  forall b, wf_grid (grid b) ->
  exists g',
    for_each l (fun move => on_tile (fst move) (snd move) highlight_move) b
    = Ret tt (set_grid g' b)
    /\ wf_grid g'
    /\ forall pos, in_bounds pos ->
         tile_at g' (fst pos) (snd pos)
         = (if bool_decide (pos ∈ l) then fmap highlight_move else id)
             (tile_at (grid b) (fst pos) (snd pos)).
Proof.
  induction l as [|m l IH]; intros Hall b Hg.
  - exists (grid b). split; [by destruct b|]. split; [done|].
    intros pos _. by rewrite bool_decide_eq_false_2 by apply not_elem_of_nil.
  - apply Forall_cons in Hall. destruct Hall as [Hm Hl].
    unfold for_each. simpl for_fold.
    rewrite (bind_Ret _ _ _ _ _ (on_tile_in_bounds b m highlight_move Hg Hm)).
    set (g1 := galter (grid b) _ _ highlight_move).
    assert (Hg1 : wf_grid g1) by by apply wf_grid_galter.
    destruct (IH Hl (set_grid g1 b) Hg1) as (g' & Hrun & Hg' & Htiles).
    exists g'. split; [exact Hrun|]. split; [done|].
    intros pos Hpos. rewrite (Htiles pos Hpos). simpl grid. subst g1.
    rewrite (tile_at_galter (grid b) m pos highlight_move Hg Hm Hpos).
    destruct (decide (m = pos)) as [->|Hne].
    + rewrite (bool_decide_eq_true_2 (pos ∈ pos :: l))
        by apply list_elem_of_here.
      destruct (tile_at (grid b) (fst pos) (snd pos)) as [t|];
        by case_bool_decide.
    + assert (Hiff : pos ∈ m :: l <-> pos ∈ l).
      { rewrite elem_of_cons. split; [|by right].
        by intros [E|E]; [symmetry in E|]. }
      by rewrite (bool_decide_ext _ _ Hiff).
Qed.

(** [highlight_moves], with a piece selected that stands on its square of a
    well-formed board: it returns, it marks [highlighted] on exactly the
    squares [get_all_legal] returns for the selected piece, and it changes
    nothing else; a tile that was highlighted before stays highlighted. *)
Theorem highlight_moves_marks_legal
    (gm : ref -> Board -> list Pos)
    (Hgm : forall p b m, wf_board b -> m ∈ gm p b -> in_bounds m)
    (n : nat) (p : ref) (b : Board) :
  wf_board b -> on_board b p -> selected_piece b = Some p ->
  exists legal b',
    get_all_legal gm (S (S n)) p b = Ret legal b
    /\ highlight_moves gm (S (S n)) b = Ret tt b'
    /\ b' = set_grid (grid b') b
    /\ forall pos, in_bounds pos ->
         tile_at (grid b') (fst pos) (snd pos)
         = (if bool_decide (pos ∈ legal) then fmap highlight_move else id)
             (tile_at (grid b) (fst pos) (snd pos)).
Proof.
  intros Hwf Hon Hsel.
  pose proof (get_all_legal_with_stable gm Hgm (checking_for_checks b)
                (check_for_checks gm (S (S n))) p b
                (top_check_stable gm Hgm _ n) Hwf eq_refl Hon) as Hlegal.
  set (legal := List.filter _ _) in Hlegal.
  assert (Hall : Forall in_bounds legal).
  { rewrite Forall_forall. intros m Hm. subst legal.
    apply list_elem_of_In, filter_In in Hm. destruct Hm as [Hm _].
    apply (Hgm p b m Hwf). by apply list_elem_of_In. }
  destruct (highlight_list legal Hall b (wf_shape b Hwf))
    as (g' & Hrun & Hg' & Htiles).
  exists legal, (set_grid g' b). split; [exact Hlegal|]. split.
  - unfold highlight_moves. unfold get_board at 1. unfold bind at 1.
    rewrite Hsel. unfold get_all_legal.
    rewrite (bind_Ret _ _ _ _ _ Hlegal). exact Hrun.
  - split; [done|]. exact Htiles.
Qed.

Lemma e2_selected_wf : wf_board e2_selected.
Proof. apply wf_boardb_sound. vm_compute. reflexivity. Qed.

Lemma e2_selected_on_board : on_board e2_selected 8%nat.
Proof.
  exists (mkPiece WHITE PAWN (4, 1) false).
  split; [reflexivity|]. split; [|reflexivity].
  unfold in_bounds; simpl; lia.
Qed.

Lemma highlight_moves_marks_legal_witness :
  wf_board e2_selected /\ on_board e2_selected 8%nat
  /\ selected_piece e2_selected = Some 8%nat
  /\ exists legal b',
       get_all_legal std_get_moves 2 8%nat e2_selected = Ret legal e2_selected
       /\ highlight_moves std_get_moves 2 e2_selected = Ret tt b'
       /\ b' = set_grid (grid b') e2_selected
       /\ forall pos, in_bounds pos ->
            tile_at (grid b') (fst pos) (snd pos)
            = (if bool_decide (pos ∈ legal) then fmap highlight_move else id)
                (tile_at (grid e2_selected) (fst pos) (snd pos)).
Proof.
  split; [apply e2_selected_wf|].
  split; [apply e2_selected_on_board|].
  split; [reflexivity|].
  apply (highlight_moves_marks_legal std_get_moves std_get_moves_in_bounds
           0 8%nat e2_selected).
  - apply e2_selected_wf.
  - apply e2_selected_on_board.
  - reflexivity.
Defined.

(** ** Scanning the board: [find_king] and [check_draw] *)

(** The squares in the order of the loops [for rank in range(8): for file in
    range(8)]. *)
Definition squares : list Pos :=
  flat_map (fun r => map (fun f => (f, r)) range8) range8.

(** The colour and kind of the pieces on the board, in that order. *)
Definition placed (b : Board) : list (Color * PieceType) :=
  omap (cell b) squares.

Lemma squares_in_bounds pos : pos ∈ squares <-> in_bounds pos.
Proof.
  unfold squares. rewrite list_elem_of_In, in_flat_map. split.
  - intros (r & Hr & Hin). apply in_map_iff in Hin.
    destruct Hin as (f & <- & Hf).
    apply list_elem_of_In, range8_bounds in Hr.
    apply list_elem_of_In, range8_bounds in Hf. by split.
  - destruct pos as [f r]. intros [Hf Hr]. simpl in Hf, Hr.
    exists r. split.
    + unfold range8. simpl. lia.
    + apply in_map_iff. exists f. split; [done|]. unfold range8. simpl. lia.
Qed.

(** The first value a scan finds. *)
Definition first_some {A R} (g : A -> option R) (l : list A) : option R :=
  head (omap g l).

Lemma first_some_app {A R} (g : A -> option R) (l1 l2 : list A) :
  first_some g (l1 ++ l2)
  = match first_some g l1 with
    | Some v => Some v
    | None => first_some g l2
    end.
Proof.
  unfold first_some. induction l1 as [|x l1 IH]; simpl; [done|].
  destruct (g x); [done|]. exact IH.
Qed.

Lemma first_some_flat {A B R} (g : B -> option R) (h : A -> list B)
    (l : list A) :
  first_some (fun x => first_some g (h x)) l = first_some g (flat_map h l).
Proof.
  induction l as [|x l IH]; simpl; [done|].
  rewrite first_some_app. unfold first_some at 1. simpl.
  destruct (first_some g (h x)); [done|]. exact IH.
Qed.

Lemma first_some_map {A B R} (g : B -> option R) (h : A -> B) (l : list A) :
  first_some (fun x => g (h x)) l = first_some g (map h l).
Proof.
  unfold first_some. induction l as [|x l IH]; simpl; [done|].
  destruct (g (h x)); [done|]. exact IH.
Qed.

Lemma first_some_Some {A R} (g : A -> option R) (l : list A) v :
  first_some g l = Some v -> exists x, x ∈ l /\ g x = Some v.
Proof.
  unfold first_some. induction l as [|x l IH]; simpl; [done|].
  destruct (g x) as [w|] eqn:E.
  - simpl. intros [= ->]. exists x. split; [by left|done].
  - intros H. destruct (IH H) as (y & Hy & Hg). exists y.
    split; [by right|done].
Qed.

Lemma first_some_None {A R} (g : A -> option R) (l : list A) :
  first_some g l = None -> forall x, x ∈ l -> g x = None.
Proof.
  unfold first_some. induction l as [|x l IH]; simpl.
  - intros _ y Hy. by apply elem_of_nil in Hy.
  - destruct (g x) as [w|] eqn:E; [done|].
    intros H y Hy. apply elem_of_cons in Hy. destruct Hy as [->|Hy]; [done|].
    by apply IH.
Qed.

Lemma for_first_pure {A R} (l : list A) (body : A -> M (option R))
    (g : A -> option R) (b : Board) :
  (forall x, x ∈ l -> body x b = Ret (g x) b) ->
  for_first l body b = Ret (first_some g l) b.
Proof.
  unfold first_some. induction l as [|x l IH]; intros Hbody; simpl; [done|].
  rewrite (bind_Ret _ _ _ _ _ (Hbody x ltac:(by left))).
  destruct (g x) as [v|]; [done|].
  apply IH. intros y Hy. apply Hbody. by right.
Qed.

(** What [find_king] looks for on one square. *)
Definition king_here (c : Color) (b : Board) (pos : Pos) : option Pos :=
  if bool_decide (cell b pos = Some (c, KING)) then Some pos else None.

Lemma find_king_pure c b :
  wf_grid (grid b) -> live b ->
  find_king c b = Ret (first_some (king_here c b) squares) b.
Proof.
  intros Hg Hlive. unfold find_king, squares.
  rewrite <- first_some_flat.
  apply for_first_pure. intros r Hr.
  rewrite <- (first_some_map (king_here c b) (fun f => (f, r))).
  apply for_first_pure. intros f Hf.
  apply range8_bounds in Hr, Hf.
  assert (Hb : in_bounds (f, r)) by by split.
  destruct (get_tile_in_bounds b (f, r) Hg Hb) as (t & Ht & Hget).
  simpl in Hget. rewrite (bind_Ret _ _ _ _ _ Hget).
  unfold king_here, cell. rewrite occupant_gget by done. rewrite Ht.
  destruct (piece_here t) as [p|] eqn:Hp; [|done].
  destruct (Hlive _ _ _ _ Ht Hp) as [P HP].
  rewrite (bind_Ret _ _ _ _ _ (deref_Some b p P HP)). rewrite HP.
  destruct (decide (color P = c)) as [Hc|Hc];
    destruct (decide (piece_type P = KING)) as [Hk|Hk].
  - rewrite !bool_decide_eq_true_2 by congruence. done.
  - rewrite (bool_decide_eq_false_2 (piece_type P = KING)) by done.
    rewrite andb_false_r. by rewrite bool_decide_eq_false_2 by congruence.
  - rewrite (bool_decide_eq_false_2 (color P = c)) by done. simpl.
    by rewrite bool_decide_eq_false_2 by congruence.
  - rewrite (bool_decide_eq_false_2 (color P = c)) by done. simpl.
    by rewrite bool_decide_eq_false_2 by congruence.
Qed.

Lemma find_king_None c b :
  wf_grid (grid b) -> live b ->
  (forall pos, in_bounds pos -> cell b pos <> Some (c, KING)) ->
  find_king c b = Ret None b.
Proof.
  intros Hg Hlive Hnone. rewrite (find_king_pure c b Hg Hlive).
  destruct (first_some (king_here c b) squares) as [pos|] eqn:E; [|done].
  apply first_some_Some in E. destruct E as (x & Hx & Hk).
  unfold king_here in Hk. case_bool_decide as Hcell; [|done].
  by destruct (Hnone x (proj1 (squares_in_bounds x) Hx)).
Qed.

Lemma find_king_Some c b kp :
  wf_grid (grid b) -> live b ->
  find_king c b = Ret (Some kp) b ->
  in_bounds kp /\ cell b kp = Some (c, KING).
Proof.
  intros Hg Hlive Hk. rewrite (find_king_pure c b Hg Hlive) in Hk.
  injection Hk as Hk. apply first_some_Some in Hk.
  destruct Hk as (x & Hx & Hk).
  unfold king_here in Hk. case_bool_decide as Hcell; [|done].
  simplify_eq. split; [by apply squares_in_bounds|done].
Qed.

(** [find_king(c)] reads the board without changing it; it answers a square
    exactly when a king of colour [c] stands on the board, and the square it
    answers holds such a king; with no such king it answers [None]. *)
Theorem find_king_spec (c : Color) (b : Board) :
  wf_grid (grid b) -> live b ->
  exists o,
    find_king c b = Ret o b
    /\ match o with
       | Some pos => in_bounds pos /\ cell b pos = Some (c, KING)
       | None => forall pos, in_bounds pos -> cell b pos <> Some (c, KING)
       end.
Proof.
  intros Hg Hlive. exists (first_some (king_here c b) squares).
  split; [by apply find_king_pure|].
  destruct (first_some (king_here c b) squares) as [pos|] eqn:E.
  - apply first_some_Some in E. destruct E as (x & Hx & Hk).
    unfold king_here in Hk. case_bool_decide; [|done]. simplify_eq.
    split; [by apply squares_in_bounds|done].
  - intros pos Hpos Hcell.
    pose proof (first_some_None _ _ E pos (proj2 (squares_in_bounds pos) Hpos))
      as Hk.
    unfold king_here in Hk. by rewrite bool_decide_eq_true_2 in Hk.
Qed.

Lemma new_board_live : live new_board.
Proof. exact (wf_board_live _ new_board_wf). Qed.

Lemma find_king_spec_witness :
  wf_grid (grid new_board) /\ live new_board
  /\ exists o,
       find_king BLACK new_board = Ret o new_board
       /\ match o with
          | Some pos => in_bounds pos /\ cell new_board pos = Some (BLACK, KING)
          | None =>
              forall pos, in_bounds pos ->
                cell new_board pos <> Some (BLACK, KING)
          end.
Proof.
  split; [apply (wf_shape _ new_board_wf)|].
  split; [apply new_board_live|].
  apply (find_king_spec BLACK new_board
           (wf_shape _ new_board_wf) new_board_live).
Defined.

(** A loop with an accumulator and an early [return], as a function. *)
Fixpoint fold_return {A S R} (g : S -> A -> S + R) (l : list A) (s : S)
    : S + R :=
  match l with
  | [] => inl s
  | x :: l' =>
      match g s x with
      | inl s' => fold_return g l' s'
      | inr v => inr v
      end
  end.

Lemma for_fold_return_pure {A S R} (l : list A) (body : S -> A -> M (S + R))
    (g : S -> A -> S + R) (b : Board) :
  (forall s x, x ∈ l -> body s x b = Ret (g s x) b) ->
  forall s, for_fold_return l body s b = Ret (fold_return g l s) b.
Proof.
  induction l as [|x l IH]; intros Hbody s; simpl; [done|].
  rewrite (bind_Ret _ _ _ _ _ (Hbody s x ltac:(by left))).
  destruct (g s x) as [s'|v]; [|done].
  apply IH. intros s2 y Hy. apply Hbody. by right.
Qed.

Lemma fold_return_app {A S R} (g : S -> A -> S + R) (l1 l2 : list A) (s : S) :
  fold_return g (l1 ++ l2) s
  = match fold_return g l1 s with
    | inl s' => fold_return g l2 s'
    | inr v => inr v
    end.
Proof.
  revert s. induction l1 as [|x l1 IH]; intros s; simpl; [done|].
  destruct (g s x); [apply IH|done].
Qed.

Lemma fold_return_map {A B S R} (g : S -> B -> S + R) (h : A -> B)
    (l : list A) (s : S) :
  fold_return (fun s x => g s (h x)) l s = fold_return g (map h l) s.
Proof.
  revert s. induction l as [|x l IH]; intros s; simpl; [done|].
  destruct (g s (h x)); [apply IH|done].
Qed.

Lemma fold_return_flat {A B S R} (g : S -> B -> S + R) (h : A -> list B)
    (l : list A) (s : S) :
  fold_return (fun s x => fold_return g (h x) s) l s
  = fold_return g (flat_map h l) s.
Proof.
  revert s. induction l as [|x l IH]; intros s; simpl; [done|].
  rewrite fold_return_app.
  destruct (fold_return g (h x) s); [apply IH|done].
Qed.

(** The kinds that rule a draw out in [check_draw]. *)
Definition mating_kind (k : PieceType) : bool :=
  bool_decide (k ∈ [ROOK; QUEEN; PAWN]).

(** One square of the scan of [check_draw], on the local [piece_count]. *)
Definition draw_step (c : Pos -> option (Color * PieceType))
    (piece_count : Z) (pos : Pos) : Z + Z :=
  match c pos with
  | Some x =>
      if mating_kind (snd x) then inr 0 else inl (piece_count + 1)
  | None => inl piece_count
  end.

Lemma fold_draw_step c l n :
  fold_return (draw_step c) l n
  = if existsb (fun x => mating_kind (snd x)) (omap c l) then inr 0
    else inl (n + Z.of_nat (length (omap c l))).
Proof.
  revert n. induction l as [|pos l IH]; intros n; simpl.
  - by rewrite Z.add_0_r.
  - unfold draw_step at 1. destruct (c pos) as [x|]; simpl; [|apply IH].
    destruct (mating_kind (snd x)); simpl; [done|].
    rewrite IH. destruct (existsb _ _); [done|]. f_equal.
    rewrite Nat2Z.inj_succ. change (list_omap _ _ c l) with (omap c l). lia.
Qed.

(** [check_draw] reads the board without changing it and answers 1 exactly
    when no rook, queen or pawn stands on the board and at most four pieces
    do; otherwise it answers 0. *)
Theorem check_draw_spec (b : Board) :
  wf_grid (grid b) -> live b ->
  check_draw b
  = Ret (if negb (existsb (fun x => mating_kind (snd x)) (placed b))
            && (Z.of_nat (length (placed b)) <=? 4)
         then 1 else 0) b.
Proof.
  intros Hg Hlive. unfold check_draw.
  erewrite bind_Ret; cycle 1.
  { apply (for_fold_return_pure range8 _
             (fun n r =>
                fold_return (fun n f => draw_step (cell b) n (f, r))
                  range8 n) b).
    intros n r Hr.
    apply (for_fold_return_pure range8 _
             (fun n f => draw_step (cell b) n (f, r)) b).
    intros n' f Hf. apply range8_bounds in Hr, Hf.
    assert (Hb : in_bounds (f, r)) by by split.
    destruct (get_tile_in_bounds b (f, r) Hg Hb) as (t & Ht & Hget).
    simpl in Hget. rewrite (bind_Ret _ _ _ _ _ Hget).
    unfold draw_step, cell. rewrite occupant_gget by done. rewrite Ht.
    destruct (piece_here t) as [p|] eqn:Hp; [|done].
    destruct (Hlive _ _ _ _ Ht Hp) as [P HP].
    rewrite (bind_Ret _ _ _ _ _ (deref_Some b p P HP)). rewrite HP. simpl.
    unfold mating_kind. by destruct (bool_decide _). }
  assert (Hflat : fold_return
            (fun n r =>
               fold_return (fun n f => draw_step (cell b) n (f, r)) range8 n)
            range8 0
          = fold_return (draw_step (cell b)) squares 0).
  { unfold squares. rewrite <- fold_return_flat.
    f_equal. }
  rewrite Hflat, fold_draw_step. fold (placed b).
  destruct (existsb _ (placed b)); [done|]. simpl.
  by destruct (_ <=? 4).
Qed.

Definition bare_kings : Board :=
  Eval vm_compute in
  match (place KING WHITE 4 0 ;;; place KING BLACK 4 7) blank_board with
  | Ret _ b => b
  | Raise _ b => b
  | OutOfFuel => blank_board
  end.

Lemma bare_kings_wf : wf_board bare_kings.
Proof. apply wf_boardb_sound. vm_compute. reflexivity. Qed.

Lemma check_draw_spec_witness :
  wf_grid (grid bare_kings) /\ live bare_kings
  /\ check_draw bare_kings = Ret 1 bare_kings.
Proof.
  split; [apply (wf_shape _ bare_kings_wf)|].
  split; [exact (wf_board_live _ bare_kings_wf)|].
  rewrite (check_draw_spec bare_kings (wf_shape _ bare_kings_wf)
             (wf_board_live _ bare_kings_wf)).
  reflexivity.
Defined.

(** ** The check evaluation and the move lists *)

(** When [find_king] finds nothing the evaluation answers [False] and resets
    the guard flag. *)
Lemma check_for_checks_king_missing
    (gm : ref -> Board -> list Pos) (n : nat) (c : Color) (b : Board) :
  find_king c (set_checking_for_checks true b)
  = Ret None (set_checking_for_checks true b) ->
  check_for_checks gm (S n) c b = Ret false b.
Proof.
  intros Ho.
  destruct (checking_for_checks b) eqn:Hflag.
  { by apply check_for_checks_guard. }
  rewrite check_for_checks_unfold.
  unfold get_board at 1. unfold bind at 1.
  rewrite Hflag. unfold modify at 1. unfold bind at 1.
  unfold try_finally. rewrite (bind_Ret _ _ _ _ _ Ho).
  unfold ret, modify. by rewrite set_flag_back.
Qed.

(** With no king of colour [c] on the board, [check_for_checks(c)] answers
    [False] and hands the board back unchanged, the guard flag included,
    without looking at any move. *)
Theorem check_for_checks_without_king
    (gm : ref -> Board -> list Pos) (n : nat) (c : Color) (b : Board) :
  wf_grid (grid b) -> live b ->
  (forall pos, in_bounds pos -> cell b pos <> Some (c, KING)) ->
  check_for_checks gm (S n) c b = Ret false b.
Proof.
  intros Hg Hlive Hnone. apply check_for_checks_king_missing.
  by apply (find_king_None c (set_checking_for_checks true b)).
Qed.

Lemma check_for_checks_without_king_witness :
  wf_grid (grid blank_board) /\ live blank_board
  /\ check_for_checks std_get_moves 1 WHITE blank_board = Ret false blank_board.
Proof.
  split; [apply empty_grid_wf|].
  split; [exact (empty_board_live blank_board)|].
  apply (check_for_checks_without_king std_get_moves 0 WHITE blank_board).
  - apply empty_grid_wf.
  - exact (empty_board_live blank_board).
  - intros pos Hpos.
    change blank_board with (set_grid empty_grid blank_board).
    by rewrite empty_board_cell.
Defined.

(** A loop that leaves the board as it found it, with an invariant over the
    elements gone through. *)
Lemma for_fold_inv {A S} (l : list A) (body : S -> A -> M S) (b : Board)
    (I : list A -> S -> Prop) :
  (forall done x s, I done s -> x ∈ l ->
     exists s', body s x b = Ret s' b /\ I (done ++ [x]) s') ->
  forall done s, I done s ->
    exists s', for_fold l body s b = Ret s' b /\ I (done ++ l) s'.
Proof.
  induction l as [|x l IH]; intros Hbody done s HI; simpl.
  - exists s. by rewrite app_nil_r.
  - destruct (Hbody done x s HI ltac:(by left)) as (s1 & H1 & HI1).
    rewrite (bind_Ret _ _ _ _ _ H1).
    destruct (IH (fun d y s0 HI0 Hy => Hbody d y s0 HI0 ltac:(by right))
                (done ++ [x]) s1 HI1) as (s' & Hrun & HI').
    exists s'. split; [done|]. by rewrite <- app_assoc in HI'.
Qed.

Lemma elem_of_extend_unique acc curr (m : Pos) :
  m ∈ extend_unique acc curr <-> m ∈ acc \/ m ∈ curr.
Proof.
  unfold extend_unique. revert acc.
  induction curr as [|x curr IH]; intros acc; simpl.
  - rewrite elem_of_nil. tauto.
  - rewrite IH, elem_of_cons. case_bool_decide.
    + split; [tauto|]. intros [H0|[->|H0]]; tauto.
    + rewrite elem_of_app, list_elem_of_singleton. tauto.
Qed.

Lemma NoDup_extend_unique acc curr :
  NoDup acc -> NoDup (extend_unique acc curr).
Proof.
  unfold extend_unique. revert acc.
  induction curr as [|x curr IH]; intros acc Hnd; simpl; [done|].
  apply IH. case_bool_decide; [done|].
  apply NoDup_app. split; [done|]. split; [|apply NoDup_singleton].
  intros y Hy Hy'. apply list_elem_of_singleton in Hy'. by subst.
Qed.

Lemma range8_elem x : 0 <= x < 8 -> x ∈ range8.
Proof. unfold range8. rewrite !elem_of_cons, elem_of_nil. lia. Qed.

Section Moves.

Variable gm : ref -> Board -> list Pos.

Hypothesis gm_in_bounds :
  forall p b m, wf_board b -> m ∈ gm p b -> in_bounds m.

(** The piece standing on [pos] has a colour that passes [keep], and [m] is
    one of its pseudo-legal moves that the check evaluation [cfc] lets
    through. *)
Definition contributes (cfc : Color -> M bool) (keep : Color -> bool)
    (b : Board) (pos m : Pos) : Prop :=
  exists p P,
    occupant (grid b) pos = Some p /\ pieces b !! p = Some P
    /\ keep (color P) = true
    /\ m ∈ List.filter (fun m => negb (tried_in_check cfc p m b)) (gm p b).

Lemma get_all_enemy_moves_with_elems flag cfc c b :
  stable_check flag cfc -> wf_board b -> checking_for_checks b = flag ->
  exists l,
    get_all_enemy_moves_with gm cfc c b = Ret l b
    /\ NoDup l
    /\ forall m,
         m ∈ l <->
         exists pos, in_bounds pos
           /\ contributes cfc (fun c' => negb (bool_decide (c' = c))) b pos m.
Proof.
  intros Hst Hwf Hflag. pose proof (wf_shape b Hwf) as Hg.
  set (keep := fun c' : Color => negb (bool_decide (c' = c))).
  pose (I := fun (done : list Z) (acc : list Pos) =>
    NoDup acc
    /\ forall m, m ∈ acc <->
         exists r f, r ∈ done /\ f ∈ range8 /\ contributes cfc keep b (f, r) m).
  assert (Houter : exists l,
            get_all_enemy_moves_with gm cfc c b = Ret l b
            /\ I ([] ++ range8) l).
  { unfold get_all_enemy_moves_with. apply (for_fold_inv range8 _ b I).
    2:{ split; [apply NoDup_nil_2|]. intros m. split.
        - by intros Hm%elem_of_nil.
        - intros (r & f & Hr & _). by apply elem_of_nil in Hr. }
    intros done r acc [Hnd Hacc] Hr.
    pose (J := fun (done' : list Z) (acc' : list Pos) =>
      NoDup acc'
      /\ forall m, m ∈ acc' <->
           (exists r0 f, r0 ∈ done /\ f ∈ range8
              /\ contributes cfc keep b (f, r0) m)
           \/ (exists f, f ∈ done' /\ contributes cfc keep b (f, r) m)).
    assert (Hinner : exists acc',
              for_fold range8 (fun all_moves file =>
                t <- get_tile file r ;;
                match piece_here t with
                | None => ret all_moves
                | Some p =>
                    P <- deref p ;;
                    if negb (bool_decide (color P = c))
                    then
                      curr <- get_all_legal_with gm cfc p ;;
                      ret (extend_unique all_moves curr)
                    else ret all_moves
                end) acc b = Ret acc' b
              /\ J ([] ++ range8) acc').
    { apply (for_fold_inv range8 _ b J).
      2:{ split; [done|]. intros m. rewrite Hacc. split; [by left|].
          intros [H|(f & Hf & _)]; [done|]. by apply elem_of_nil in Hf. }
      intros done' f acc0 [Hnd0 Hacc0] Hf.
      pose proof (range8_bounds _ Hr) as Hrb.
      pose proof (range8_bounds _ Hf) as Hfb.
      assert (Hb : in_bounds (f, r)) by by split.
      destruct (get_tile_in_bounds b (f, r) Hg Hb) as (t & Ht & Hget).
      simpl in Hget. rewrite (bind_Ret _ _ _ _ _ Hget).
      assert (Hocc : occupant (grid b) (f, r) = piece_here t).
      { rewrite occupant_gget by done. by rewrite Ht. }
      assert (Hkeepacc : forall acc1,
                (forall m, m ∈ acc1 <->
                   m ∈ acc0 \/ contributes cfc keep b (f, r) m) ->
                NoDup acc1 -> J (done' ++ [f]) acc1).
      { intros acc1 Hacc1 Hnd1. split; [done|]. intros m.
        rewrite Hacc1, Hacc0. split.
        - intros [[H|(f0 & Hf0 & Hc)]|Hc].
          + by left.
          + right. exists f0. split; [|done]. apply elem_of_app. by left.
          + right. exists f. split; [|done]. apply elem_of_app. right.
            by apply list_elem_of_singleton.
        - intros [H|(f0 & Hf0 & Hc)]; [by left; left|].
          apply elem_of_app in Hf0. destruct Hf0 as [Hf0|Hf0].
          + left. right. by exists f0.
          + apply list_elem_of_singleton in Hf0. subst f0. by right. }
      assert (Hnone : ~ (exists p P, piece_here t = Some p
                           /\ pieces b !! p = Some P
                           /\ keep (color P) = true) ->
                J (done' ++ [f]) acc0).
      { intros Hno. apply Hkeepacc; [|done]. intros m. split; [by left|].
        intros [H|(p & P & Ho & HP & Hk & _)]; [done|].
        destruct Hno. exists p, P. by rewrite <- Hocc. }
      destruct (piece_here t) as [p|] eqn:Hp.
      2:{ exists acc0. split; [done|]. apply Hnone.
          by intros (p & P & Hp' & _). }
      pose proof (wf_board_on_board b _ _ t p Hwf Ht Hp) as Hon.
      pose proof Hon as (P & HP & _).
      rewrite (bind_Ret _ _ _ _ _ (deref_Some b p P HP)).
      fold (keep (color P)). destruct (keep (color P)) eqn:Hk.
      2:{ exists acc0. split; [done|]. apply Hnone.
          intros (p' & P' & Hp' & HP' & Hk'). simplify_eq. congruence. }
      rewrite (bind_Ret _ _ _ _ _
                 (get_all_legal_with_stable gm gm_in_bounds flag cfc p b
                    Hst Hwf Hflag Hon)).
      eexists. split; [reflexivity|].
      apply Hkeepacc; [|by apply NoDup_extend_unique].
      intros m. rewrite elem_of_extend_unique. split.
      - intros [H|H]; [by left|]. right. exists p, P. by rewrite Hocc.
      - intros [H|(p' & P' & Ho' & HP' & _ & Hm)]; [by left|].
        rewrite Hocc in Ho'. simplify_eq. by right. }
    destruct Hinner as (acc' & Hrun' & Hnd' & Hacc').
    exists acc'. split; [exact Hrun'|]. split; [done|].
    intros m. rewrite Hacc'. simpl app. split.
    - intros [(r0 & f & Hr0 & Hf & Hc)|(f & Hf & Hc)].
      + exists r0, f. split; [|done]. apply elem_of_app. by left.
      + exists r, f. split; [|done]. apply elem_of_app. right.
        by apply list_elem_of_singleton.
    - intros (r0 & f & Hr0 & Hf & Hc).
      apply elem_of_app in Hr0. destruct Hr0 as [Hr0|Hr0].
      + left. by exists r0, f.
      + apply list_elem_of_singleton in Hr0. subst r0. right. by exists f. }
  destruct Houter as (l & Hrun & Hnd & Hl).
  exists l. split; [exact Hrun|]. split; [done|].
  intros m. rewrite Hl. simpl app. split.
  - intros (r & f & Hr & Hf & Hc). exists (f, r). split; [|done].
    split; by apply range8_bounds.
  - intros ([f r] & [Hf Hr] & Hc). exists r, f.
    split; [by apply range8_elem|]. split; [by apply range8_elem|done].
Qed.

End Moves.

Lemma for_fold_ext {A S} (l : list A) (body1 body2 : S -> A -> M S) :
  (forall s x b, body1 s x b = body2 s x b) ->
  forall s b, for_fold l body1 s b = for_fold l body2 s b.
Proof.
  intros H. induction l as [|x l IH]; intros s b; simpl; [done|].
  unfold bind. rewrite H. destruct (body2 s x b); [apply IH|done|done].
Qed.

Lemma get_all_enemy_moves_with_opposite
    (gm : ref -> Board -> list Pos) (cfc : Color -> M bool) (c : Color)
    (b : Board) :
  get_all_enemy_moves_with gm cfc c b
  = get_all_moves_with gm cfc (opposite c) b.
Proof.
  unfold get_all_enemy_moves_with, get_all_moves_with.
  apply for_fold_ext. intros acc r b1.
  apply for_fold_ext. intros acc' f b2.
  unfold bind. destruct (get_tile f r b2) as [t b3|e b3|]; [|done|done].
  destruct (piece_here t) as [p|]; [|done].
  destruct (deref p b3) as [P b4|e b4|]; [|done|done].
  assert (Hc : negb (bool_decide (color P = c))
               = bool_decide (color P = opposite c)).
  { by destruct (color P), c. }
  by rewrite Hc.
Qed.

(** [get_all_enemy_moves(c)] is [get_all_moves] of the other colour: the two
    methods run the same scan, one keeping the pieces whose colour is not
    [c], the other those whose colour is the opposite of [c]; same list, same
    order, same final board, same exception if any, and this in both
    directions. *)
Theorem get_all_enemy_moves_opposite
    (gm : ref -> Board -> list Pos) (fuel : nat) (c : Color) (b : Board) :
  get_all_enemy_moves gm fuel c b = get_all_moves gm fuel (opposite c) b
  /\ get_all_moves gm fuel c b = get_all_enemy_moves gm fuel (opposite c) b.
Proof.
  unfold get_all_enemy_moves, get_all_moves. split.
  - apply get_all_enemy_moves_with_opposite.
  - rewrite get_all_enemy_moves_with_opposite. by destruct c.
Qed.

Lemma occupant_on_board b pos p :
  wf_board b -> in_bounds pos -> occupant (grid b) pos = Some p ->
  on_board b p.
Proof.
  intros Hwf Hpos Hocc. rewrite occupant_gget in Hocc by (done || by destruct Hwf).
  destruct (gget (grid b) _ _) as [t|] eqn:Ht; [|done].
  by apply (wf_board_on_board b _ _ t p Hwf Ht).
Qed.

(** [get_all_moves(c)], on a well-formed board: it returns and leaves the
    board unchanged; the list has no duplicates; a square is in the list
    exactly when it is in [get_all_legal] of some piece of colour [c] that
    stands on the board. *)
Theorem get_all_moves_union
    (gm : ref -> Board -> list Pos)
    (Hgm : forall p b m, wf_board b -> m ∈ gm p b -> in_bounds m)
    (n : nat) (c : Color) (b : Board) :
  wf_board b ->
  exists l,
    get_all_moves gm (S (S n)) c b = Ret l b
    /\ NoDup l
    /\ forall m,
         m ∈ l <->
         exists pos p P legal,
           in_bounds pos /\ occupant (grid b) pos = Some p
           /\ pieces b !! p = Some P /\ color P = c
           /\ get_all_legal gm (S (S n)) p b = Ret legal b /\ m ∈ legal.
Proof.
  intros Hwf.
  pose proof (top_check_stable gm Hgm (checking_for_checks b) n) as Hst.
  destruct (get_all_enemy_moves_with_elems gm Hgm (checking_for_checks b)
              (check_for_checks gm (S (S n))) (opposite c) b Hst Hwf eq_refl)
    as (l & Hrun & Hnd & Hl).
  exists l. split.
  { unfold get_all_moves.
    replace c with (opposite (opposite c)) at 1 by by destruct c.
    rewrite <- get_all_enemy_moves_with_opposite. exact Hrun. }
  split; [done|]. intros m. rewrite Hl. split.
  - intros (pos & Hpos & p & P & Hocc & HP & Hk & Hm).
    exists pos, p, P. eexists. split; [done|]. split; [done|].
    split; [done|]. split.
    { apply negb_true_iff, bool_decide_eq_false in Hk.
      destruct (color P), c; done. }
    split; [|exact Hm].
    apply (get_all_legal_with_stable gm Hgm (checking_for_checks b));
      try done.
    by apply (occupant_on_board b pos).
  - intros (pos & p & P & legal & Hpos & Hocc & HP & Hc & Hlegal & Hm).
    exists pos. split; [done|]. exists p, P. split; [done|]. split; [done|].
    split.
    { apply negb_true_iff, bool_decide_eq_false. destruct (color P), c; done. }
    unfold get_all_legal in Hlegal.
    rewrite (get_all_legal_with_stable gm Hgm (checking_for_checks b)
               (check_for_checks gm (S (S n))) p b Hst Hwf eq_refl
               (occupant_on_board b pos p Hwf Hpos Hocc)) in Hlegal.
    by simplify_eq.
Qed.

Lemma get_all_moves_union_witness :
  wf_board new_board
  /\ exists l,
       get_all_moves std_get_moves 2 WHITE new_board = Ret l new_board
       /\ NoDup l
       /\ forall m,
            m ∈ l <->
            exists pos p P legal,
              in_bounds pos /\ occupant (grid new_board) pos = Some p
              /\ pieces new_board !! p = Some P /\ color P = WHITE
              /\ get_all_legal std_get_moves 2 p new_board
                 = Ret legal new_board
              /\ m ∈ legal.
Proof.
  split; [apply new_board_wf|].
  apply (get_all_moves_union std_get_moves std_get_moves_in_bounds 0 WHITE
           new_board new_board_wf).
Defined.

(** What [check_for_checks(c)] decides, called on a well-formed board while
    no evaluation is in flight: it answers and hands the board back
    unchanged, and the answer is [True] exactly when [find_king(c)] finds a
    king and the king's square is among the pseudo-legal moves [get_moves] of
    some piece of the other colour standing on the board.  The moves of the
    attackers are not filtered for legality: inside the evaluation the
    nested check evaluations answer [False] at once. *)
Theorem check_for_checks_pseudo_legal
    (gm : ref -> Board -> list Pos)
    (Hgm : forall p b m, wf_board b -> m ∈ gm p b -> in_bounds m)
    (n : nat) (c : Color) (b : Board) :
  wf_board b -> checking_for_checks b = false ->
  exists v,
    check_for_checks gm (S (S n)) c b = Ret v b
    /\ (v = true <->
        exists kp pos p P,
          find_king c b = Ret (Some kp) b
          /\ in_bounds pos /\ occupant (grid b) pos = Some p
          /\ pieces b !! p = Some P /\ color P <> c
          /\ kp ∈ gm p (set_checking_for_checks true b)).
Proof.
  intros Hwf Hflag. pose proof (wf_shape b Hwf) as Hg.
  pose proof (wf_board_live b Hwf) as Hlive.
  rewrite check_for_checks_unfold.
  unfold get_board at 1. unfold bind at 1.
  rewrite Hflag. unfold modify at 1. unfold bind at 1.
  set (b1 := set_checking_for_checks true b).
  assert (Hwf1 : wf_board b1) by by apply wf_board_set_flag.
  pose proof (find_king_pure c b Hg Hlive) as Hking.
  pose proof (find_king_pure c b1 Hg Hlive) as Hking1.
  change (king_here c b1) with (king_here c b) in Hking1.
  unfold try_finally. rewrite (bind_Ret _ _ _ _ _ Hking1).
  destruct (first_some (king_here c b) squares) as [kp|].
  2:{ exists false. unfold ret, modify. subst b1.
      rewrite set_flag_back by done. split; [done|]. split; [done|].
      intros (kp & pos & p & P & Hk & _). by rewrite Hking in Hk. }
  destruct (get_all_enemy_moves_with_elems gm Hgm true
              (check_for_checks gm (S n)) c b1 (nested_check_stable gm n)
              Hwf1 eq_refl) as (l & Hrun & _ & Hl).
  rewrite (bind_Ret _ _ _ _ _ Hrun). unfold ret, modify.
  exists (bool_decide (kp ∈ l)). subst b1. rewrite set_flag_back by done.
  split; [done|]. rewrite bool_decide_eq_true, Hl.
  assert (Hfree : forall p P m,
            pieces b !! p = Some P ->
            tried_in_check (check_for_checks gm (S n)) p m
              (set_checking_for_checks true b) = false).
  { intros p P m HP. unfold tried_in_check. simpl pieces. rewrite HP.
    by rewrite check_for_checks_guard by by rewrite speculate_flag. }
  split.
  - intros (pos & Hpos & p & P & Hocc & HP & Hk & Hm).
    exists kp, pos, p, P. split; [done|]. split; [done|].
    split; [done|]. split; [done|]. split.
    { by apply negb_true_iff, bool_decide_eq_false in Hk. }
    apply list_elem_of_In, filter_In in Hm. destruct Hm as [Hm _].
    by apply list_elem_of_In.
  - intros (kp' & pos & p & P & Hk & Hpos & Hocc & HP & Hc & Hm).
    rewrite Hking in Hk. simplify_eq.
    exists pos. split; [done|]. exists p, P.
    split; [done|]. split; [done|]. split.
    { by apply negb_true_iff, bool_decide_eq_false. }
    apply list_elem_of_In, filter_In. split; [by apply list_elem_of_In|].
    by rewrite (Hfree p P kp' HP).
Qed.

Lemma check_for_checks_pseudo_legal_witness :
  wf_board new_board /\ checking_for_checks new_board = false
  /\ exists v,
       check_for_checks std_get_moves 2 WHITE new_board = Ret v new_board
       /\ (v = true <->
           exists kp pos p P,
             find_king WHITE new_board = Ret (Some kp) new_board
             /\ in_bounds pos /\ occupant (grid new_board) pos = Some p
             /\ pieces new_board !! p = Some P /\ color P <> WHITE
             /\ kp ∈ std_get_moves p (set_checking_for_checks true new_board)).
Proof.
  split; [apply new_board_wf|]. split; [reflexivity|].
  apply (check_for_checks_pseudo_legal std_get_moves std_get_moves_in_bounds
           0 WHITE new_board new_board_wf).
  reflexivity.
Defined.

(** ** [en_passant] and [promote] *)

Lemma set_has_moved_Some b p P h :
  pieces b !! p = Some P ->
  set_has_moved p h b
  = Ret tt (set_pieces (alter (with_has_moved h) p (pieces b)) b).
Proof. intros HP. unfold set_has_moved. by rewrite HP. Qed.

(** [en_passant(piece, new_pos)] for a piece of the store, with the square it
    stands on, the target and, when the target is the en-passant target, the
    square behind it all on the board.  The call returns; afterwards the
    piece stands on [new_pos], the square it left is empty, the square behind
    the target (one rank below it for White, above it for Black) is empty
    when [new_pos] was the en-passant target, and every other square is
    as before; the piece has [current_pos = new_pos] and [has_moved], no other
    piece object is touched, and [en_passant_target] is [None]. *)
Theorem en_passant_effect
    (piece : ref) (P : Piece) (new_pos : Pos) (b : Board) :
  let behind :=
    if bool_decide (color P = WHITE)
    then (fst new_pos, snd new_pos - 1)
    else (fst new_pos, snd new_pos + 1) in
  wf_grid (grid b) -> pieces b !! piece = Some P ->
  in_bounds (current_pos P) -> in_bounds new_pos ->
  (en_passant_target b = Some new_pos -> in_bounds behind) ->
  exists b',
    en_passant piece new_pos b = Ret tt b'
    /\ en_passant_target b' = None
    /\ pieces b' !! piece
       = Some (with_has_moved true (with_current_pos new_pos P))
    /\ (forall q, q <> piece -> pieces b' !! q = pieces b !! q)
    /\ forall pos, in_bounds pos ->
         occupant (grid b') pos
         = if decide (pos = new_pos) then Some piece
           else if decide (pos = current_pos P) then None
           else if decide (en_passant_target b = Some new_pos /\ pos = behind)
                then None
                else occupant (grid b) pos.
Proof.
  intros behind Hg HP Hcur Hnew Hbehind.
  assert (Hfirst : exists g1,
            wf_grid g1
            /\ (forall k : unit -> M unit,
                  bind (if bool_decide (en_passant_target b = Some new_pos)
                        then set_piece_here (fst behind) (snd behind) None
                        else ret tt) k b
                  = k tt (set_grid g1 b))
            /\ forall pos, in_bounds pos ->
                 occupant g1 pos
                 = if decide (en_passant_target b = Some new_pos
                              /\ pos = behind)
                   then None else occupant (grid b) pos).
  { case_bool_decide as Ht.
    - specialize (Hbehind Ht). exists (put (grid b) behind None).
      split; [by apply wf_grid_put|]. split.
      + intros k. by rewrite (bind_Ret _ _ _ _ _
                                (set_piece_here_put b behind None Hg Hbehind)).
      + intros pos Hpos. case_decide as E.
        * destruct E as [_ ->]. by apply occupant_put_eq.
        * apply occupant_put_ne; try done. intros ->. by apply E.
    - exists (grid b). split; [done|]. split.
      + intros k. unfold bind, ret. by destruct b.
      + intros pos Hpos. case_decide as E; [by destruct E|done]. }
  destruct Hfirst as (g1 & Hg1 & Hrun1 & Hocc1).
  unfold en_passant.
  rewrite (bind_Ret _ _ _ _ _ (deref_Some b piece P HP)).
  unfold get_board at 1. unfold bind at 1.
  fold behind. rewrite Hrun1.
  rewrite (bind_Ret _ _ _ _ _
             (set_piece_here_put (set_grid g1 b) (current_pos P) None
                Hg1 Hcur)).
  simpl grid. set (g2 := put g1 (current_pos P) None).
  assert (Hg2 : wf_grid g2) by by apply wf_grid_put.
  rewrite (bind_Ret _ _ _ _ _
             (set_piece_here_put (set_grid g2 (set_grid g1 b)) new_pos
                (Some piece) Hg2 Hnew)).
  simpl grid. set (g3 := put g2 new_pos (Some piece)).
  set (b3 := set_grid g3 _).
  rewrite (bind_Ret _ _ _ _ _ (set_current_pos_Some b3 piece P new_pos HP)).
  set (b4 := set_pieces _ b3).
  assert (HP4 : pieces b4 !! piece = Some (with_current_pos new_pos P)).
  { subst b4. simpl. by rewrite list_lookup_alter_eq, HP. }
  rewrite (bind_Ret _ _ _ _ _ (set_has_moved_Some b4 piece _ true HP4)).
  unfold modify. eexists. split; [reflexivity|]. split; [reflexivity|].
  split.
  { simpl. by rewrite !list_lookup_alter_eq, HP. }
  split.
  { intros q Hq. simpl. by rewrite !list_lookup_alter_ne by done. }
  intros pos Hpos. simpl grid. subst g3.
  destruct (decide (pos = new_pos)) as [->|Hne].
  { by apply occupant_put_eq. }
  rewrite occupant_put_ne by done. subst g2.
  destruct (decide (pos = current_pos P)) as [->|Hne'].
  { by apply occupant_put_eq. }
  rewrite occupant_put_ne by done. by apply Hocc1.
Qed.

(** A white pawn on e5 beside a black pawn on d5, with d6 as the en-passant
    target. *)
Definition ep_ready : Board :=
  Eval vm_compute in
  match (place PAWN WHITE 4 4 ;;; place PAWN BLACK 3 4 ;;;
         modify (set_en_passant_target (Some (3, 5)))) blank_board with
  | Ret _ b => b
  | Raise _ b => b
  | OutOfFuel => blank_board
  end.

Lemma en_passant_effect_witness :
  wf_grid (grid ep_ready)
  /\ pieces ep_ready !! 0%nat = Some (mkPiece WHITE PAWN (4, 4) false)
  /\ en_passant_target ep_ready = Some (3, 5)
  /\ exists b',
       en_passant 0%nat (3, 5) ep_ready = Ret tt b'
       /\ en_passant_target b' = None
       /\ occupant (grid b') (3, 5) = Some 0%nat
       /\ occupant (grid b') (4, 4) = None
       /\ occupant (grid b') (3, 4) = None.
Proof.
  assert (Hg : wf_grid (grid ep_ready)).
  { apply wf_gridb_sound. vm_compute. reflexivity. }
  assert (Hb : forall f r, 0 <= f < 8 -> 0 <= r < 8 -> in_bounds (f, r)).
  { intros f r Hf Hr. by split. }
  split; [exact Hg|]. split; [reflexivity|]. split; [reflexivity|].
  destruct (en_passant_effect 0%nat (mkPiece WHITE PAWN (4, 4) false) (3, 5)
              ep_ready Hg eq_refl (Hb 4 4 ltac:(lia) ltac:(lia))
              (Hb 3 5 ltac:(lia) ltac:(lia))
              (fun _ => Hb 3 4 ltac:(lia) ltac:(lia)))
    as (b' & Hrun & Hep & _ & _ & Hocc).
  exists b'. split; [exact Hrun|]. split; [exact Hep|].
  rewrite !Hocc by (apply Hb; lia). done.
Defined.

(** [promote(c, file, rank)] on a square of the board: it returns; the square
    holds a queen of colour [c] that is a new object, standing on that square
    and not yet moved; every piece object that existed before is still what
    it was, the one that stood on the square included, which is no longer on
    the grid; the other squares, the selection, the history and the material
    differential are as before. *)
Theorem promote_new_queen (c : Color) (f r : Z) (b : Board) :
  wf_grid (grid b) -> in_bounds (f, r) ->
  exists b' queen,
    promote c f r b = Ret tt b'
    /\ pieces b !! queen = None
    /\ pieces b' !! queen = Some (mkPiece c QUEEN (f, r) false)
    /\ (forall q Q, pieces b !! q = Some Q -> pieces b' !! q = Some Q)
    /\ occupant (grid b') (f, r) = Some queen
    /\ (forall pos, in_bounds pos -> pos <> (f, r) ->
          occupant (grid b') pos = occupant (grid b) pos)
    /\ selected_piece b' = selected_piece b
    /\ move_history b' = move_history b
    /\ material_differential b' = material_differential b.
Proof.
  intros Hg Hb. unfold promote, new_piece. unfold bind at 1.
  set (b1 := set_pieces _ b).
  rewrite (set_piece_here_put b1 (f, r) _ Hg Hb).
  eexists _, (length (pieces b)). split; [reflexivity|].
  split; [by apply lookup_ge_None_2|].
  split.
  { simpl. by rewrite lookup_app_r, Nat.sub_diag by lia. }
  split.
  { intros q Q HQ. simpl. by apply lookup_app_l_Some. }
  split; [by apply occupant_put_eq|].
  split; [|done].
  intros pos Hpos Hne. simpl grid. by apply occupant_put_ne.
Qed.

Lemma promote_new_queen_witness :
  wf_grid (grid promotion_pending) /\ in_bounds (0, 7)
  /\ exists b' queen,
       promote WHITE 0 7 promotion_pending = Ret tt b'
       /\ pieces promotion_pending !! queen = None
       /\ pieces b' !! queen = Some (mkPiece WHITE QUEEN (0, 7) false)
       /\ occupant (grid b') (0, 7) = Some queen.
Proof.
  assert (Hg : wf_grid (grid promotion_pending)).
  { apply wf_gridb_sound. vm_compute. reflexivity. }
  assert (Hb : in_bounds (0, 7)) by (unfold in_bounds; simpl; lia).
  split; [exact Hg|]. split; [exact Hb|].
  destruct (promote_new_queen WHITE 0 7 promotion_pending Hg Hb)
    as (b' & queen & Hrun & Hfresh & Hq & _ & Hocc & _).
  by exists b', queen.
Defined.

(** ** Indices off the board *)

Lemma py_index_out_of_range (n : nat) (i : Z) :
  ~ (- Z.of_nat n <= i < Z.of_nat n) -> py_index n i = None.
Proof.
  intros H. unfold py_index.
  destruct ((0 <=? i) && (i <? Z.of_nat n)) eqn:E1; [lia|].
  destruct ((- Z.of_nat n <=? i) && (i <? 0)) eqn:E2; [lia|done].
Qed.

Lemma py_index_Some_lt (n : nat) (i : Z) k :
  py_index n i = Some k -> (k < n)%nat.
Proof.
  unfold py_index.
  destruct ((0 <=? i) && (i <? Z.of_nat n)) eqn:E1; [intros [= <-]; lia|].
  destruct ((- Z.of_nat n <=? i) && (i <? 0)) eqn:E2; [|done].
  intros [= <-]. lia.
Qed.

Lemma tile_at_off_board g f r :
  wf_grid g -> ~ (-8 <= f < 8 /\ -8 <= r < 8) -> tile_at g f r = None.
Proof.
  intros Hg Hoff. unfold tile_at.
  destruct (py_index (length g) r) as [ri|] eqn:Hri; [|done].
  pose proof (py_index_Some_lt _ _ _ Hri) as Hlt.
  destruct Hg as [Hl Hrows]. rewrite Hl in Hlt, Hri.
  destruct (g !! ri) as [row|] eqn:Hrow; [|done].
  rewrite Forall_lookup in Hrows. rewrite (Hrows _ _ Hrow).
  rewrite py_index_out_of_range; [done|].
  intros Hf. apply Hoff. split; [lia|].
  destruct (decide (-8 <= r < 8)) as [|Hr]; [done|].
  rewrite py_index_out_of_range in Hri; [done|lia].
Qed.

Lemma grid_put_off_board g f r o :
  wf_grid g -> ~ (-8 <= f < 8 /\ -8 <= r < 8) -> grid_put g f r o = None.
Proof.
  intros Hg Hoff. unfold grid_put.
  destruct (py_index (length g) r) as [ri|] eqn:Hri; [|done].
  pose proof (py_index_Some_lt _ _ _ Hri) as Hlt.
  destruct Hg as [Hl Hrows]. rewrite Hl in Hlt, Hri.
  destruct (g !! ri) as [row|] eqn:Hrow; [|done].
  rewrite Forall_lookup in Hrows. rewrite (Hrows _ _ Hrow).
  rewrite py_index_out_of_range; [done|].
  intros Hf. apply Hoff. split; [lia|].
  destruct (decide (-8 <= r < 8)) as [|Hr]; [done|].
  rewrite py_index_out_of_range in Hri; [done|lia].
Qed.

(** [promote] with a file or rank outside [-8 .. 7], the indices a Python
    list of eight accepts: the call raises [IndexError]; the grid, the
    selection and the history are as before, and the queen object that was
    created for the right-hand side is on no square. *)
Theorem promote_off_board (c : Color) (f r : Z) (b : Board) :
  wf_grid (grid b) -> ~ (-8 <= f < 8 /\ -8 <= r < 8) ->
  promote c f r b
  = Raise IndexError
      (set_pieces (pieces b ++ [mkPiece c QUEEN (f, r) false]) b).
Proof.
  intros Hg Hoff. unfold promote, new_piece, bind, set_piece_here.
  simpl grid. by rewrite grid_put_off_board.
Qed.

Lemma promote_off_board_witness :
  wf_grid (grid new_board) /\ ~ (-8 <= 0 < 8 /\ -8 <= 8 < 8)
  /\ promote WHITE 0 8 new_board
     = Raise IndexError
         (set_pieces (pieces new_board ++ [mkPiece WHITE QUEEN (0, 8) false])
            new_board).
Proof.
  split; [apply (wf_shape _ new_board_wf)|]. split; [lia|].
  apply (promote_off_board WHITE 0 8 new_board (wf_shape _ new_board_wf)).
  lia.
Defined.

(** [move_piece] at the live position refuses two calls before it changes
    anything: with no piece selected it raises [AttributeError], and with a
    target whose file or rank is outside [-8 .. 7] it raises [IndexError];
    in both cases the board is exactly as before the call. *)
Theorem move_piece_rejects
    (gm : ref -> Board -> list Pos)
    (pm : ref -> Pos -> Board -> Board) (pd : ref -> Board -> Board)
    (fuel : nat) (f r : Z) (b : Board) :
  is_curr_pos b = true ->
  (selected_piece b = None ->
   move_piece gm pm pd fuel f r b = Raise AttributeError b)
  /\ (forall sel,
        selected_piece b = Some sel -> is_Some (pieces b !! sel) ->
        wf_grid (grid b) -> ~ (-8 <= f < 8 /\ -8 <= r < 8) ->
        move_piece gm pm pd fuel f r b = Raise IndexError b).
Proof.
  intros Hcur. split.
  - intros Hsel. unfold move_piece, bind, get_board.
    by rewrite Hcur, Hsel.
  - intros sel Hsel [S0 HS0] Hg Hoff.
    unfold move_piece. unfold get_board at 1. unfold bind at 1.
    rewrite Hcur, Hsel. change (negb true) with false. cbv iota.
    rewrite (bind_Ret _ _ _ _ _ (deref_Some b sel S0 HS0)).
    unfold bind at 1. unfold get_tile.
    by rewrite tile_at_off_board.
Qed.

Lemma move_piece_rejects_witness :
  is_curr_pos e2_selected = true
  /\ selected_piece e2_selected = Some 8%nat
  /\ move_piece std_get_moves std_piece_move std_piece_delete 2 4 8 e2_selected
     = Raise IndexError e2_selected.
Proof.
  split; [reflexivity|]. split; [reflexivity|].
  apply (proj2 (move_piece_rejects std_get_moves std_piece_move
                  std_piece_delete 2 4 8 e2_selected eq_refl) 8%nat).
  - reflexivity.
  - by eexists.
  - apply (wf_shape _ e2_selected_wf).
  - lia.
Defined.

(** ** [load_fen] and [reset_board] on any input *)

(** The fields [load_fen] never assigns. *)
Definition beside_position (b : Board)
    : option ref * bool * option Pos * list MoveRecord * Z
      * (bool * bool * option Color * bool) :=
  (selected_piece b, checking_for_checks b, en_passant_target b,
   move_history b, current_index b,
   (checkmate b, stalemate b, mate_color b, resigned b)).

Lemma preserves_for_fold (Q : Board -> Prop) {A S} (l : list A)
    (body : S -> A -> M S) :
  (forall s x, preserves Q (body s x)) ->
  forall s, preserves Q (for_fold l body s).
Proof.
  intros Hbody. induction l as [|x l IH]; intros s; simpl.
  - apply preserves_ret.
  - apply preserves_bind; [apply Hbody|apply IH].
Qed.

Lemma preserves_set_tile (Q : Board -> Prop) f r t :
  (forall b g, Q b -> Q (set_grid g b)) -> preserves Q (set_tile f r t).
Proof.
  intros H b Hb. unfold set_tile.
  destruct (py_index _ r); [|done]. destruct (_ !! _); [|done].
  destruct (py_index _ f); [|done]. by apply H.
Qed.

Lemma preserves_new_piece (Q : Board -> Prop) P :
  (forall b ps, Q b -> Q (set_pieces ps b)) -> preserves Q (new_piece P).
Proof. intros H b Hb. by apply H. Qed.

Lemma preserves_set_has_moved (Q : Board -> Prop) p h :
  (forall b ps, Q b -> Q (set_pieces ps b)) -> preserves Q (set_has_moved p h).
Proof.
  intros H b Hb. unfold set_has_moved. destruct (_ !! _); [by apply H|done].
Qed.

Lemma preserves_load_fen_char (Q : Board -> Prop) ri fi ch :
  (forall b g, Q b -> Q (set_grid g b)) ->
  (forall b ps, Q b -> Q (set_pieces ps b)) ->
  preserves Q (load_fen_char ri fi ch).
Proof.
  intros Hgrid Hps.
  unfold load_fen_char. destruct (is_digit ch); [apply preserves_ret|].
  destruct (piece_class _) as [k|]; [|apply preserves_raise].
  apply preserves_bind; [by apply preserves_new_piece|intros piece].
  apply preserves_bind.
  { destruct (bool_decide _); [|apply preserves_ret].
    destruct (_ || _); [|apply preserves_ret].
    by apply preserves_set_has_moved. }
  intros _. apply preserves_bind; [|intros _; apply preserves_ret].
  apply preserves_set_piece_here. intros b g Hb _. by apply Hgrid.
Qed.

Lemma preserves_beside_load_fen_char x ri fi ch :
  preserves (fun b => beside_position b = x) (load_fen_char ri fi ch).
Proof. by apply preserves_load_fen_char. Qed.

(** [load_fen] leaves by an exception whatever the string, and the fields
    beside the position are as they were. *)
Lemma raises_load_fen x fen :
  raises (fun b => beside_position b = x) (load_fen fen).
Proof.
  unfold load_fen.
  apply raises_bind_r.
  { apply preserves_for_fold. intros _ file.
    apply preserves_for_fold. intros _ rank.
    by apply preserves_set_tile. }
  intros _. apply raises_bind_r.
  { apply preserves_for_fold. intros _ ir.
    apply preserves_bind; [|intros _; apply preserves_ret].
    apply preserves_for_fold. intros fi ch.
    apply preserves_beside_load_fen_char. }
  intros _. apply raises_bind_r.
  { apply preserves_readonly, readonly_calculate_material. }
  intros m. apply raises_bind_r; [by apply preserves_modify|intros _].
  apply raises_remove_check_indicators.
Qed.

(** [load_fen] never returns normally, whatever the string and the board: it
    leaves by an exception, the latest being the [AttributeError] of its call
    of [remove_check_indicators].  It never assigns the selection, the guard
    flag, the en-passant target, the history, the index or the game-over
    flags: they are as before the call. *)
Theorem load_fen_never_returns (fen : string) (b : Board) :
  exists e b',
    load_fen fen b = Raise e b' /\ beside_position b' = beside_position b.
Proof. by apply (raises_load_fen (beside_position b) fen b). Qed.

(** ** The serialization round trip in general *)

Lemma fen_placement_ext b1 b2 :
  (forall pos, in_bounds pos -> cell b1 pos = cell b2 pos) ->
  fen_placement b1 = fen_placement b2.
Proof.
  intros Hcell.
  assert (Hrow : forall r, 0 <= r < 8 -> fen_row b1 r = fen_row b2 r).
  { intros r Hr. rewrite !fen_row_enc.
    assert (Henc : forall n i ec, i + Z.of_nat n = 8 -> 0 <= i ->
              enc (fun f => cell b1 (f, r)) (files i n) ec
              = enc (fun f => cell b2 (f, r)) (files i n) ec).
    { induction n as [|n IH]; intros i ec Hin Hi; [done|].
      cbn [files enc]. rewrite Hcell by (unfold in_bounds; simpl; lia).
      destruct (cell b2 (i, r)); destruct (_ : bool);
        rewrite ?IH by lia; done. }
    by apply Henc. }
  unfold fen_placement.
  rewrite (fold_left_ext_in
             (fun s r => append s (append (fen_row b1 r) "/"))
             (fun s r => append s (append (fen_row b2 r) "/"))
             range8_down EmptyString); [reflexivity|].
  intros s r Hr. rewrite Hrow; [reflexivity|].
  unfold range8_down in Hr. simpl in Hr. lia.
Qed.

(** The round trip through the placement string, for every board with an 8
    by 8 grid whose occupants are piece objects, read back on any 8 by 8
    board [b0].  [board_state()] returns a string [s] and leaves the board
    alone.  [load_fen(s)] on [b0] ends in the [AttributeError] of
    [remove_check_indicators], and by then: each square holds a piece of the
    colour and kind it holds on the board that was written, so that
    [board_state()] on the result gives [s] again; [material_differential]
    is what [calculate_material] returns on the board that was written; the
    fields of [b0] beside the position are as they were. *)
Theorem board_state_load_fen_round_trip (b b0 : Board) :
  wf_grid (grid b) -> live b -> wf_grid (grid b0) ->
  exists s v b',
    board_state None b = Ret s b
    /\ calculate_material b = Ret v b
    /\ load_fen s b0 = Raise AttributeError b'
    /\ (forall pos, in_bounds pos -> cell b' pos = cell b pos)
    /\ board_state None b' = Ret s b'
    /\ material_differential b' = v
    /\ beside_position b' = beside_position b0.
Proof.
  intros Hg Hlive Hg0.
  destruct (fen_round_trip b b0 Hg Hlive Hg0)
    as (Hfen & b' & Hload & Hg' & Hl' & Hcell & Hmat & Hcalc).
  exists (fen_placement b), (material_of (cell b)), b'.
  split; [exact Hfen|]. split; [exact Hcalc|]. split; [exact Hload|].
  split; [exact Hcell|]. split.
  { rewrite (board_state_pure b' Hg' Hl'). f_equal.
    by apply fen_placement_ext. }
  split; [exact Hmat|].
  destruct (raises_load_fen (beside_position b0) (fen_placement b) b0 eq_refl)
    as (e & b'' & Hload' & Hkept).
  rewrite Hload in Hload'. injection Hload' as _ <-. exact Hkept.
Qed.

Lemma board_state_load_fen_round_trip_witness :
  wf_grid (grid new_board) /\ live new_board /\ wf_grid (grid blank_board)
  /\ exists s v b',
       board_state None new_board = Ret s new_board
       /\ calculate_material new_board = Ret v new_board
       /\ load_fen s blank_board = Raise AttributeError b'
       /\ (forall pos, in_bounds pos -> cell b' pos = cell new_board pos)
       /\ board_state None b' = Ret s b'
       /\ material_differential b' = v
       /\ beside_position b' = beside_position blank_board.
Proof.
  split; [apply (wf_shape _ new_board_wf)|].
  split; [apply new_board_live|].
  split; [apply empty_grid_wf|].
  apply (board_state_load_fen_round_trip new_board blank_board
           (wf_shape _ new_board_wf) new_board_live empty_grid_wf).
Defined.

(** ** [load_fen] on the full FEN of [board_state(active_color)] *)

Lemma join_slash_snoc l x :
  l <> [] -> join_slash (l ++ [x]) = append (join_slash l) (String "/" x).
Proof.
  induction l as [|y l IH]; [done|]. intros _.
  destruct l as [|z l]; [done|].
  change (join_slash ((y :: z :: l) ++ [x]))
    with (append y (String "/" (join_slash ((z :: l) ++ [x])))).
  rewrite IH by done.
  change (join_slash (y :: z :: l))
    with (append y (String "/" (join_slash (z :: l)))).
  by rewrite append_assoc.
Qed.

Lemma fen_placement_join b :
  fen_placement b = join_slash (map (fen_row b) range8_down).
Proof.
  unfold fen_placement. rewrite fold_rows_join, append_nil_l.
  by rewrite drop_last_rows.
Qed.

Lemma split_join_suffix (l : list string) (x t : string) :
  l <> [] -> Forall (fun s => no_slash s = true) l ->
  no_slash x = true -> no_slash t = true ->
  split "/" (append (join_slash (l ++ [x])) t) = l ++ [append x t].
Proof.
  intros Hne Hl Hx Ht.
  rewrite join_slash_snoc by done. rewrite append_assoc.
  change (append (String "/" x) t) with (String "/" (append x t)).
  rewrite <- join_slash_snoc by done.
  apply split_join_slash; [by destruct l|].
  apply Forall_app. split; [done|].
  apply Forall_singleton. by rewrite no_slash_append, Hx, Ht.
Qed.

Lemma rows_down b :
  map (fen_row b) range8_down
  = map (fen_row b) [7; 6; 5; 4; 3; 2; 1] ++ [fen_row b 0].
Proof. reflexivity. Qed.

(** The placement followed by a text without slash splits into the rows of
    ranks 8 to 2 and the row of rank 1 with the text appended. *)
Lemma split_placement_suffix b t :
  no_slash t = true ->
  split "/" (append (fen_placement b) t)
  = map (fen_row b) [7; 6; 5; 4; 3; 2; 1] ++ [append (fen_row b 0) t].
Proof.
  intros Ht. rewrite fen_placement_join, rows_down.
  apply split_join_suffix; [done| | |done].
  - rewrite Forall_forall. intros s Hs.
    apply list_elem_of_In, in_map_iff in Hs. destruct Hs as (r & <- & _).
    rewrite fen_row_enc. by apply no_slash_enc.
  - rewrite fen_row_enc. by apply no_slash_enc.
Qed.

Lemma no_slash_file_letter f :
  0 <= f < 8 ->
  Ascii.eqb (ascii_of_nat (Z.to_nat (97 + f))) "/" = false.
Proof.
  intros H.
  assert (f = 0 \/ f = 1 \/ f = 2 \/ f = 3 \/ f = 4 \/ f = 5 \/ f = 6
          \/ f = 7) as Hc by lia.
  repeat destruct Hc as [->|Hc]; try subst f; reflexivity.
Qed.

(** What [board_state] appends to the placement when it is given the colour
    to move. *)
Definition fen_tail (c : Color) (b : Board) : string :=
  (let turn_char := if bool_decide (c = WHITE) then "w" else "b" in
   let en_passant :=
     match en_passant_target b with
     | Some (f, r) =>
         String (ascii_of_nat (Z.to_nat (97 + f))) (str_int (r + 1))
     | None => "-"
     end in
   append turn_char
     (append " " (append "-"
       (append " " (append en_passant
         (append " " (append (str_int 0)
           (append " " (str_int 1)))))))))%string.

Lemma no_slash_fen_tail c b :
  (forall t, en_passant_target b = Some t -> in_bounds t) ->
  no_slash (fen_tail c b) = true.
Proof.
  intros Hep. unfold fen_tail.
  destruct (en_passant_target b) as [[f r]|].
  - destruct (Hep (f, r) eq_refl) as [Hf Hr]. simpl in Hf, Hr.
    rewrite !no_slash_append. cbn [no_slash].
    rewrite (no_slash_file_letter f Hf).
    rewrite (no_slash_str_int_digit (r + 1)) by lia.
    by destruct (bool_decide (c = WHITE)).
  - by destruct (bool_decide (c = WHITE)).
Qed.

Lemma board_state_full c b :
  wf_grid (grid b) -> live b ->
  board_state (Some c) b
  = Ret (append (fen_placement b) (String " " (fen_tail c b))) b.
Proof.
  intros Hg Hlive.
  pose proof (board_state_pure b Hg Hlive) as Hpure.
  unfold board_state in Hpure |- *.
  unfold bind in Hpure |- *.
  destruct (for_fold range8_down _ EmptyString b) as [s b1|e b1|];
    [|done|done].
  unfold ret in Hpure. injection Hpure as Hs Hb. subst b1.
  unfold get_board, ret. rewrite Hs. reflexivity.
Qed.

Lemma load_fen_char_space ri fi b :
  load_fen_char ri fi " " b = Raise KeyError b.
Proof. reflexivity. Qed.

(** A row that goes on with a space after a part that was read. *)
Lemma load_fen_row_space ri (row rest : string) b1 fi' b2 :
  for_fold (list_ascii_of_string row) (load_fen_char ri) 0 b1 = Ret fi' b2 ->
  load_fen_row ri (append row (String " " rest)) b1 = Raise KeyError b2.
Proof.
  intros Hrun. unfold load_fen_row. rewrite chars_append, for_fold_app.
  rewrite (bind_Ret _ _ _ _ _ Hrun). cbn [list_ascii_of_string for_fold].
  by rewrite (bind_Raise _ _ _ _ _ (load_fen_char_space ri fi' b2)).
Qed.

Lemma enumerate_cons {A} (x : A) (l : list A) :
  enumerate (x :: l)
  = (0, x) :: combine (map Z.of_nat (seq 1 (length l))) l.
Proof. reflexivity. Qed.

Lemma for_each_head_raises {A} (x : A) (l : list A) (body : A -> M unit)
    b e b' :
  body x b = Raise e b' -> for_each (x :: l) body b = Raise e b'.
Proof. intros H. unfold for_each. cbn [for_fold]. by apply bind_Raise. Qed.

(** [load_fen] does not read what [board_state(active_color)] writes.  For a
    board with an 8 by 8 grid whose occupants are piece objects and whose
    en-passant target, if any, is a square of the board, [board_state] with a
    colour returns the placement followed by a space and the other FEN
    fields; [load_fen] on that string, on any 8 by 8 board, raises
    [KeyError] at that space, in the row of rank 1, which it reads first.
    The board it leaves has the first rank of the board that was written and
    nothing on the other ranks, and [material_differential] has not been
    recomputed. *)
Theorem load_fen_rejects_full_fen (c : Color) (b b0 : Board) :
  wf_grid (grid b) -> live b -> wf_grid (grid b0) ->
  (forall t, en_passant_target b = Some t -> in_bounds t) ->
  exists s b',
    board_state (Some c) b = Ret s b
    /\ load_fen s b0 = Raise KeyError b'
    /\ (forall pos, in_bounds pos ->
          cell b' pos = if decide (snd pos = 0) then cell b pos else None)
    /\ material_differential b' = material_differential b0.
Proof.
  intros Hg Hlive Hg0 Hep.
  assert (Ht : no_slash (String " " (fen_tail c b)) = true).
  { cbn [no_slash]. by rewrite no_slash_fen_tail. }
  destruct (load_fen_row_enc (fun f => cell b (f, 0)) 0 ltac:(lia)
              8%nat 0 0 (set_grid empty_grid b0) eq_refl ltac:(lia)
              empty_grid_wf (empty_board_live b0))
    as (fi' & b2 & Hrun & Hg2 & Hl2 & Hcell2).
  { intros f Hf. apply empty_board_cell. unfold in_bounds; simpl; lia. }
  rewrite <- fen_row_enc in Hrun. change (0 - 0) with 0 in Hrun.
  pose proof (load_fen_row_space 0 (fen_row b 0) (fen_tail c b) _ fi' b2 Hrun)
    as Hrow.
  assert (Hmat : material_differential b2 = material_differential b0).
  { pose proof (preserves_for_fold
                  (fun b' => material_differential b' = material_differential b0)
                  (list_ascii_of_string (fen_row b 0)) (load_fen_char 0)
                  (fun fi ch =>
                     preserves_load_fen_char
                       (fun b' =>
                          material_differential b' = material_differential b0)
                       0 fi ch (fun _ _ H => H) (fun _ _ H => H))
                  0 (set_grid empty_grid b0) eq_refl) as Hpres.
    by rewrite Hrun in Hpres. }
  exists (append (fen_placement b) (String " " (fen_tail c b))), b2.
  split; [by apply board_state_full|]. split.
  { unfold load_fen.
    rewrite (bind_Ret _ _ _ _ _ (load_fen_rebuild b0 Hg0)).
    rewrite (split_placement_suffix b _ Ht).
    rewrite rev_unit, enumerate_cons.
    apply bind_Raise. apply for_each_head_raises.
    by apply bind_Raise. }
  split; [|exact Hmat].
  intros pos Hpos. rewrite (Hcell2 pos Hpos).
  destruct pos as [pf pr]. destruct Hpos as [Hpf Hpr]. simpl in *.
  destruct (decide (pr = 0)) as [->|Hne].
  - by rewrite decide_True by lia.
  - rewrite decide_False by lia. apply empty_board_cell. by split.
Qed.

Lemma load_fen_rejects_full_fen_witness :
  wf_grid (grid new_board) /\ live new_board /\ wf_grid (grid blank_board)
  /\ en_passant_target new_board = None
  /\ exists s b',
       board_state (Some WHITE) new_board = Ret s new_board
       /\ load_fen s blank_board = Raise KeyError b'.
Proof.
  split; [apply (wf_shape _ new_board_wf)|].
  split; [apply new_board_live|].
  split; [apply empty_grid_wf|]. split; [reflexivity|].
  destruct (load_fen_rejects_full_fen WHITE new_board blank_board
              (wf_shape _ new_board_wf) new_board_live empty_grid_wf)
    as (s & b' & Hs & Hload & _).
  { intros t Ht. discriminate Ht. }
  exists s, b'. split; [exact Hs|exact Hload].
Defined.

(** ** [reset_board] *)

(** The first loop of [reset_board] replaces every tile of an 8 by 8 grid by
    a fresh empty one. *)
Lemma reset_board_rebuild b :
  wf_grid (grid b) ->
  for_each range8 (fun rank =>
    for_each range8 (fun file =>
      let is_light := (file + rank) mod 2 =? 1 in
      set_tile file rank (mkTile file rank is_light None false false false))) b
  = Ret tt (set_grid empty_grid b).
Proof.
  intros [Hl Hrows]. destruct b as [g ps sel fl ept mh ci md cm sm mc rs].
  simpl in Hl, Hrows.
  destruct g as [|r0 g]; [discriminate|]. destruct g as [|r1 g]; [discriminate|].
  destruct g as [|r2 g]; [discriminate|]. destruct g as [|r3 g]; [discriminate|].
  destruct g as [|r4 g]; [discriminate|]. destruct g as [|r5 g]; [discriminate|].
  destruct g as [|r6 g]; [discriminate|]. destruct g as [|r7 g]; [discriminate|].
  destruct g; [|discriminate].
  repeat match goal with
  | H : Forall _ (_ :: _) |- _ => apply Forall_cons in H; destruct H as [? H]
  end.
  destruct_len8 r0 H. destruct_len8 r1 H0. destruct_len8 r2 H1.
  destruct_len8 r3 H2. destruct_len8 r4 H3. destruct_len8 r5 H4.
  destruct_len8 r6 H5. destruct_len8 r7 H6.
  vm_compute. reflexivity.
Qed.

(** [reset_board] on an 8 by 8 grid does not set the starting position up.
    It empties the 64 tiles and resets the fields, then its call of
    [remove_check_indicators] raises [AttributeError] before
    [initialize_pieces] is reached: the board it leaves has no piece on any
    square, an empty history and [current_index = -1]. *)
Theorem reset_board_leaves_empty_board (b : Board) :
  wf_grid (grid b) ->
  reset_board b = Raise AttributeError (set_pieces (pieces b) blank_board)
  /\ (forall pos, occupant (grid (set_pieces (pieces b) blank_board)) pos = None)
  /\ move_history (set_pieces (pieces b) blank_board) = [].
Proof.
  intros Hg. split; [|split; [|done]].
  - unfold reset_board.
    rewrite (bind_Ret _ _ _ _ _ (reset_board_rebuild b Hg)).
    unfold modify, bind.
    rewrite remove_check_indicators_AttributeError by apply empty_grid_wf.
    reflexivity.
  - intros pos. unfold occupant. simpl grid.
    destruct (tile_at empty_grid (fst pos) (snd pos)) as [t|] eqn:Ht; [|done].
    unfold tile_at in Ht.
    destruct (py_index _ (snd pos)) as [ri|]; [|done].
    destruct (empty_grid !! ri) as [row|] eqn:Hrow; [|done].
    destruct (py_index _ (fst pos)) as [fi|]; [|done].
    apply (empty_grid_vacant fi ri). unfold gget. by rewrite Hrow.
Qed.

Lemma reset_board_leaves_empty_board_witness :
  wf_grid (grid new_board)
  /\ reset_board new_board
     = Raise AttributeError (set_pieces (pieces new_board) blank_board).
Proof.
  split; [apply (wf_shape _ new_board_wf)|].
  apply (proj1 (reset_board_leaves_empty_board new_board
                  (wf_shape _ new_board_wf))).
Defined.

(** ** The view *)

(** [screen_to_board_coords] and [board_to_screen_coords] undo each other,
    for either colour of the user, and each maps the squares of the board
    onto the squares of the board. *)
Theorem screen_board_coords_inverse (user_color : Color) (f r : Z) :
  screen_to_board_coords user_color
    (fst (board_to_screen_coords user_color f r))
    (snd (board_to_screen_coords user_color f r)) = (f, r)
  /\ board_to_screen_coords user_color
       (fst (screen_to_board_coords user_color f r))
       (snd (screen_to_board_coords user_color f r)) = (f, r)
  /\ (in_bounds (f, r) <-> in_bounds (screen_to_board_coords user_color f r))
  /\ (in_bounds (f, r) <-> in_bounds (board_to_screen_coords user_color f r)).
Proof.
  unfold screen_to_board_coords, board_to_screen_coords, in_bounds.
  destruct (bool_decide (user_color = BLACK)); simpl;
    repeat split; try (f_equal; lia); lia.
Qed.

Lemma history_at_Some b i move :
  0 <= i -> move_history b !! Z.to_nat i = Some move ->
  history_at i b = Ret move b.
Proof.
  intros Hi H. unfold history_at.
  rewrite py_index_in_range; [by rewrite H|].
  apply lookup_lt_Some in H. lia.
Qed.

(** What [show_prev_move] and [show_next_move] do once the index is set: the
    record is fetched and its FEN is loaded; [load_fen] raises, so that
    [build_from_board] is not reached. *)
Lemma browse_to_record (b bh : Board) (move : MoveRecord) :
  wf_grid (grid b) -> wf_grid (grid bh) -> live bh ->
  0 <= current_index b ->
  move_history b !! Z.to_nat (current_index b) = Some move ->
  board_state None bh = Ret (mr_FEN move) bh ->
  exists b',
    (b1 <- get_board ;;
     move <- history_at (current_index b1) ;;
     load_fen (mr_FEN move) ;;;
     build_from_board) b = Raise AttributeError b'
    /\ current_index b' = current_index b
    /\ move_history b' = move_history b
    /\ (forall pos, in_bounds pos -> cell b' pos = cell bh pos)
    /\ board_state None b' = Ret (mr_FEN move) b'.
Proof.
  intros Hg Hgh Hlh Hi Hmove Hfen.
  rewrite (board_state_pure bh Hgh Hlh) in Hfen.
  injection Hfen as Hfen.
  unfold get_board at 1. unfold bind at 1.
  rewrite (bind_Ret _ _ _ _ _ (history_at_Some b _ move Hi Hmove)).
  destruct (fen_round_trip bh b Hgh Hlh Hg)
    as (_ & b' & Hload & Hg' & Hl' & Hcell & _).
  destruct (raises_load_fen (beside_position b) (fen_placement bh) b eq_refl)
    as (e & b'' & Hload' & Hkept).
  rewrite Hload in Hload'. injection Hload' as _ <-.
  rewrite <- Hfen. rewrite (bind_Raise _ _ _ _ _ Hload).
  exists b'. split; [done|].
  unfold beside_position in Hkept.
  split; [congruence|]. split; [congruence|]. split; [exact Hcell|].
  rewrite (board_state_pure b' Hg' Hl').
  by rewrite (fen_placement_ext b' bh Hcell).
Qed.

(** History browsing, [show_prev_move] and [show_next_move] of the view.  At
    the first record [show_prev_move] does nothing, at the last record
    [show_next_move] does nothing.  Otherwise the index moves by one and the
    FEN of the record it reaches is loaded: when that FEN is what
    [board_state()] returned on some board, every square then holds a piece
    of the colour and kind it held there and [board_state()] returns the
    recorded FEN; the history itself is not changed.  The call ends in the
    [AttributeError] of [load_fen], before the sprites are rebuilt. *)
Theorem history_browsing_effect (b bh : Board) (move : MoveRecord) :
  wf_grid (grid b) -> wf_grid (grid bh) -> live bh ->
  board_state None bh = Ret (mr_FEN move) bh ->
  (current_index b <= 0 -> show_prev_move b = Ret tt b)
  /\ (Z.of_nat (length (move_history b)) - 1 <= current_index b ->
      show_next_move b = Ret tt b)
  /\ (0 < current_index b ->
      move_history b !! Z.to_nat (current_index b - 1) = Some move ->
      exists b',
        show_prev_move b = Raise AttributeError b'
        /\ current_index b' = current_index b - 1
        /\ move_history b' = move_history b
        /\ (forall pos, in_bounds pos -> cell b' pos = cell bh pos)
        /\ board_state None b' = Ret (mr_FEN move) b')
  /\ (-1 <= current_index b < Z.of_nat (length (move_history b)) - 1 ->
      move_history b !! Z.to_nat (current_index b + 1) = Some move ->
      exists b',
        show_next_move b = Raise AttributeError b'
        /\ current_index b' = current_index b + 1
        /\ move_history b' = move_history b
        /\ (forall pos, in_bounds pos -> cell b' pos = cell bh pos)
        /\ board_state None b' = Ret (mr_FEN move) b').
Proof.
  intros Hg Hgh Hlh Hfen.
  split; [|split; [|split]].
  - intros Hi. unfold show_prev_move, bind, get_board.
    by rewrite (proj2 (Z.ltb_ge 0 (current_index b))).
  - intros Hi. unfold show_next_move, bind, get_board.
    by rewrite (proj2 (Z.ltb_ge (current_index b) _)).
  - intros Hi Hmove. unfold show_prev_move.
    unfold get_board at 1. unfold bind at 1.
    rewrite (proj2 (Z.ltb_lt 0 (current_index b))) by done.
    unfold modify at 1. unfold bind at 1.
    apply (browse_to_record (set_current_index (current_index b - 1) b) bh
             move); try done.
    simpl. lia.
  - intros Hi Hmove. unfold show_next_move.
    unfold get_board at 1. unfold bind at 1.
    rewrite (proj2 (Z.ltb_lt (current_index b) _)) by lia.
    unfold modify at 1. unfold bind at 1.
    apply (browse_to_record (set_current_index (current_index b + 1) b) bh
             move); try done.
    simpl. lia.
Qed.

Lemma history_browsing_effect_witness :
  wf_grid (grid (set_current_index 1 history_view))
  /\ wf_grid (grid new_board) /\ live new_board
  /\ board_state None new_board
     = Ret "rnbqkbnr/pppppppp/8/8/8/8/PPPPPPPP/RNBQKBNR"%string new_board
  /\ exists b',
       show_prev_move (set_current_index 1 history_view)
       = Raise AttributeError b'
       /\ current_index b' = 0
       /\ forall pos, in_bounds pos -> cell b' pos = cell new_board pos.
Proof.
  assert (Hfen : board_state None new_board
                 = Ret "rnbqkbnr/pppppppp/8/8/8/8/PPPPPPPP/RNBQKBNR"%string
                     new_board).
  { vm_compute. reflexivity. }
  split; [apply (wf_shape _ new_board_wf)|].
  split; [apply (wf_shape _ new_board_wf)|].
  split; [apply new_board_live|]. split; [exact Hfen|].
  destruct (history_browsing_effect (set_current_index 1 history_view)
              new_board
              (mkMoveRecord None None None None
                 "rnbqkbnr/pppppppp/8/8/8/8/PPPPPPPP/RNBQKBNR")
              (wf_shape _ new_board_wf) (wf_shape _ new_board_wf)
              new_board_live Hfen) as (_ & _ & Hprev & _).
  destruct (Hprev ltac:(simpl; lia) eq_refl)
    as (b' & Hrun & Hidx & _ & Hcell & _).
  exists b'. split; [exact Hrun|]. split; [exact Hidx|exact Hcell].
Defined.

(** What [grid[rank][file].piece_here = o] leaves on the tile, for any
    indices Python accepts. *)
Lemma tile_at_grid_put g f r o g' :
  grid_put g f r o = Some g' ->
  exists t, tile_at g' f r = Some t /\ piece_here t = o.
Proof.
  unfold grid_put, tile_at.
  destruct (py_index (length g) r) as [ri|] eqn:Hri; [|done].
  destruct (g !! ri) as [row|] eqn:Hrow; [|done].
  destruct (py_index (length row) f) as [fi|] eqn:Hfi; [|done].
  intros [= <-]. rewrite length_alter, Hri.
  rewrite list_lookup_alter_eq, Hrow. simpl.
  rewrite length_alter, Hfi, list_lookup_alter_eq.
  destruct (lookup_lt_is_Some_2 row fi) as [t Ht].
  { by apply (py_index_Some_lt _ f). }
  rewrite Ht. simpl. by eexists.
Qed.

(** With nothing on the target tile [move_piece] never calls
    [piece.delete()]. *)
Lemma move_piece_no_capture
    (gm : ref -> Board -> list Pos)
    (pm : ref -> Pos -> Board -> Board) (pd pd' : ref -> Board -> Board)
    (fuel : nat) (f r : Z) (b : Board) :
  (forall t, tile_at (grid b) f r = Some t -> piece_here t = None) ->
  move_piece gm pm pd fuel f r b = move_piece gm pm pd' fuel f r b.
Proof.
  intros Hnone. unfold move_piece, bind, get_board, deref, get_tile.
  destruct (negb (is_curr_pos b)); [reflexivity|].
  destruct (selected_piece b) as [sel|]; [|reflexivity].
  destruct (pieces b !! sel) as [S0|]; [|reflexivity].
  destruct (tile_at (grid b) f r) as [t|] eqn:Ht; [|reflexivity].
  rewrite (Hnone t eq_refl). reflexivity.
Qed.

Lemma bind_ext_run {A B} (m : M A) (k k' : A -> M B) b :
  (forall a b', m b = Ret a b' -> k a b' = k' a b') ->
  bind m k b = bind m k' b.
Proof.
  intros H. unfold bind. destruct (m b) as [a b'|e b'|]; [by apply H|done|done].
Qed.

(** Moves made through the view never reach the capture branch of
    [move_piece]: [move_piece_and_update_sprites] empties the target tile
    before it calls [move_piece], which therefore finds no piece to capture.
    Whatever [piece.delete()] would do makes no difference to the outcome, on
    any board and for any target: the hook is never called. *)
Theorem view_never_captures
    (gm : ref -> Board -> list Pos)
    (pm : ref -> Pos -> Board -> Board) (pd pd' pp : ref -> Board -> Board)
    (fuel : nat) (f r : Z) (b : Board) :
  move_piece_and_update_sprites gm pm pd pp fuel f r b
  = move_piece_and_update_sprites gm pm pd' pp fuel f r b.
Proof.
  unfold move_piece_and_update_sprites.
  apply bind_ext_run. intros b0 b1 Hb.
  unfold get_board in Hb. injection Hb as <- <-.
  destruct (checkmate b || stalemate b); [done|].
  apply bind_ext_run. intros t b1 Ht.
  unfold get_tile in Ht.
  destruct (tile_at (grid b) f r) as [t0|] eqn:Htile; [|done].
  injection Ht as <- <-.
  apply bind_ext_run. intros [] b2 Hpre.
  assert (Hempty : forall t', tile_at (grid b2) f r = Some t' ->
                     piece_here t' = None).
  { destruct (piece_here t0) as [q|] eqn:Hq.
    - unfold set_piece_here in Hpre.
      destruct (grid_put (grid b) f r None) as [g'|] eqn:Hput; [|done].
      injection Hpre as <-. simpl grid.
      destruct (tile_at_grid_put _ _ _ _ _ Hput) as (t1 & Ht1 & Hp1).
      intros t' Ht'. rewrite Ht1 in Ht'. by simplify_eq.
    - unfold ret in Hpre. injection Hpre as <-.
      intros t' Ht'. rewrite Htile in Ht'. by simplify_eq. }
  unfold bind at 1 3.
  by rewrite (move_piece_no_capture gm pm pd pd' fuel f r b2 Hempty).
Qed.

(** Dropping a piece on an occupied square while an earlier position is
    displayed.  [move_piece_and_update_sprites] has no [is_curr_pos] guard of
    its own: it empties the target tile first, and [move_piece] then returns
    at once without moving anything.  The call returns normally; the piece
    that stood on the target is gone from the grid, no piece has moved, and
    nothing is recorded: apart from that tile and the [prev] marks, which
    [build_from_board] clears, the board is as before. *)
Theorem view_move_while_browsing
    (gm : ref -> Board -> list Pos)
    (pm : ref -> Pos -> Board -> Board) (pd pp : ref -> Board -> Board)
    (fuel : nat) (f r : Z) (q : ref) (b : Board) :
  wf_grid (grid b) -> in_bounds (f, r) ->
  is_curr_pos b = false -> checkmate b = false -> stalemate b = false ->
  occupant (grid b) (f, r) = Some q ->
  move_piece_and_update_sprites gm pm pd pp fuel f r b
  = Ret tt (set_grid (map (map clear_prev) (put (grid b) (f, r) None)) b).
Proof.
  intros Hg Hb Hcur Hcm Hsm Hocc.
  unfold move_piece_and_update_sprites.
  unfold get_board at 1. unfold bind at 1. rewrite Hcm, Hsm. cbn [orb].
  destruct (get_tile_in_bounds b (f, r) Hg Hb) as (t & Ht & Hget).
  cbn [fst snd] in Hget. rewrite (bind_Ret _ _ _ _ _ Hget).
  rewrite occupant_gget in Hocc by done. rewrite Ht in Hocc. rewrite Hocc.
  rewrite (bind_Ret _ _ _ _ _ (set_piece_here_put b (f, r) None Hg Hb)).
  set (b1 := set_grid (put (grid b) (f, r) None) b).
  assert (Hg1 : wf_grid (grid b1)) by by apply wf_grid_put.
  assert (Hmove : move_piece gm pm pd fuel f r b1 = Ret tt b1).
  { unfold move_piece, bind, get_board.
    change (is_curr_pos b1) with (is_curr_pos b). by rewrite Hcur. }
  rewrite (bind_Ret _ _ _ _ _ Hmove).
  destruct (get_tile_in_bounds b1 (f, r) Hg1 Hb) as (t1 & Ht1 & Hget1).
  cbn [fst snd] in Hget1. rewrite (bind_Ret _ _ _ _ _ Hget1).
  assert (Hp1 : get_piece_here t1 = None).
  { pose proof (occupant_put_eq (grid b) (f, r) None Hg Hb) as Ho.
    rewrite occupant_gget in Ho by (done || by apply wf_grid_put).
    unfold b1 in Ht1. simpl grid in Ht1. by rewrite Ht1 in Ho. }
  rewrite Hp1. unfold ret at 1. unfold bind at 1.
  unfold build_from_board, remove_prev.
  by rewrite (for_each_tile b1 clear_prev Hg1).
Qed.

Lemma view_move_while_browsing_witness :
  wf_grid (grid history_view) /\ in_bounds (4, 6)
  /\ is_curr_pos history_view = false
  /\ occupant (grid history_view) (4, 6) = Some 9%nat
  /\ move_piece_and_update_sprites std_get_moves std_piece_move
       std_piece_delete std_piece_delete 2 4 6 history_view
     = Ret tt
         (set_grid (map (map clear_prev) (put (grid history_view) (4, 6) None))
            history_view).
Proof.
  assert (Hg : wf_grid (grid history_view)).
  { apply (wf_shape _ new_board_wf). }
  assert (Hb : in_bounds (4, 6)) by (unfold in_bounds; simpl; lia).
  split; [exact Hg|]. split; [exact Hb|]. split; [reflexivity|].
  split; [reflexivity|].
  apply (view_move_while_browsing std_get_moves std_piece_move
           std_piece_delete std_piece_delete 2 4 6 9%nat history_view Hg Hb);
    reflexivity.
Defined.

(** ** [highlight_king_in_check] *)

(** [highlight_king_in_check(c)] never marks a tile.  On a well-formed board
    it hands the board back unchanged: it returns when [check_for_checks(c)]
    answers [False], and when the answer is [True] it raises
    [AttributeError] on the king's tile, which has no [set_check]. *)
Theorem highlight_king_in_check_never_marks
    (gm : ref -> Board -> list Pos)
    (Hgm : forall p b m, wf_board b -> m ∈ gm p b -> in_bounds m)
    (n : nat) (c : Color) (b : Board) :
  wf_board b ->
  exists v,
    check_for_checks gm (S (S n)) c b = Ret v b
    /\ highlight_king_in_check gm (S (S n)) c b
       = if v then Raise AttributeError b else Ret tt b.
Proof.
  intros Hwf. pose proof (wf_shape b Hwf) as Hg.
  pose proof (wf_board_live b Hwf) as Hlive.
  destruct (check_for_checks_stable gm Hgm n c b Hwf) as [v Hv].
  exists v. split; [exact Hv|].
  unfold highlight_king_in_check. rewrite (bind_Ret _ _ _ _ _ Hv).
  destruct v; [|done].
  destruct (find_king_stable c b Hg Hlive) as [o Ho].
  rewrite (bind_Ret _ _ _ _ _ Ho).
  destruct o as [kp|].
  - destruct (find_king_Some c b kp Hg Hlive Ho) as [Hkp _].
    destruct (get_tile_in_bounds b kp Hg Hkp) as (t & _ & Hget).
    by rewrite (bind_Ret _ _ _ _ _ Hget).
  - assert (Hno : check_for_checks gm (S (S n)) c b = Ret false b).
    { apply check_for_checks_king_missing.
      pose proof (find_king_pure c b Hg Hlive) as Hp.
      pose proof (find_king_pure c (set_checking_for_checks true b) Hg Hlive)
        as Hp1.
      change (king_here c (set_checking_for_checks true b))
        with (king_here c b) in Hp1.
      rewrite Ho in Hp. injection Hp as Hp. by rewrite <- Hp in Hp1. }
    rewrite Hv in Hno. discriminate Hno.
Qed.

Lemma highlight_king_in_check_never_marks_witness :
  wf_board new_board
  /\ exists v,
       check_for_checks std_get_moves 2 WHITE new_board = Ret v new_board
       /\ highlight_king_in_check std_get_moves 2 WHITE new_board
          = if v then Raise AttributeError new_board else Ret tt new_board.
Proof.
  split; [apply new_board_wf|].
  apply (highlight_king_in_check_never_marks std_get_moves
           std_get_moves_in_bounds 0 WHITE new_board new_board_wf).
Defined.

(** ** [check_if_danger] *)

From stdpp Require Import gmap.

(** [Board.check_if_danger].  The method reads nothing of the board: it
    answers from its arguments and adds the square to the set
    [visited_squares], a fresh set when the caller passes none.  The pair is
    the answer and the set as the call leaves it. *)
Definition check_if_danger (square : Pos) (enemy_moves : list Pos)
    (visited_squares : option (gset Pos)) : bool * gset Pos :=
  let visited_squares :=
    match visited_squares with
    | None => ∅
    | Some v => v
    end in
  if bool_decide (square ∈ visited_squares) then (false, visited_squares)
  else
    let visited_squares := {[square]} ∪ visited_squares in
    if bool_decide (square ∈ enemy_moves) then (true, visited_squares)
    else (false, visited_squares).

(** [check_if_danger]: without a set of visited squares the answer is
    whether the square is in [enemy_moves].  With a set, the answer is
    [True] only for a square of [enemy_moves] not visited before; the square
    is in the set afterwards, nothing is removed from the set, and a second
    call for the same square with that set answers [False] whatever the
    enemy moves are. *)
Theorem check_if_danger_visits
    (square : Pos) (enemy_moves enemy_moves' : list Pos)
    (visited : gset Pos) :
  fst (check_if_danger square enemy_moves None)
  = bool_decide (square ∈ enemy_moves)
  /\ fst (check_if_danger square enemy_moves (Some visited))
     = bool_decide ((square ∉ visited) /\ (square ∈ enemy_moves))
  /\ snd (check_if_danger square enemy_moves (Some visited))
     = {[square]} ∪ visited
  /\ fst (check_if_danger square enemy_moves'
            (Some (snd (check_if_danger square enemy_moves (Some visited)))))
     = false.
Proof.
  unfold check_if_danger.
  split; [|split; [|split]].
  - rewrite bool_decide_eq_false_2 by apply not_elem_of_empty.
    by destruct (bool_decide (square ∈ enemy_moves)).
  - destruct (decide (square ∈ visited)) as [Hv|Hv].
    + rewrite (bool_decide_eq_true_2 _ Hv). simpl.
      symmetry. apply bool_decide_eq_false_2. tauto.
    + rewrite (bool_decide_eq_false_2 _ Hv).
      destruct (decide (square ∈ enemy_moves)) as [He|He].
      * rewrite (bool_decide_eq_true_2 _ He). simpl.
        symmetry. by apply bool_decide_eq_true_2.
      * rewrite (bool_decide_eq_false_2 _ He). simpl.
        symmetry. apply bool_decide_eq_false_2. tauto.
  - destruct (decide (square ∈ visited)) as [Hv|Hv].
    + rewrite (bool_decide_eq_true_2 _ Hv). simpl.
      symmetry. apply subseteq_union_1_L. by apply singleton_subseteq_l.
    + rewrite (bool_decide_eq_false_2 _ Hv).
      by destruct (bool_decide (square ∈ enemy_moves)).
  - assert (Hin : square ∈ snd (if bool_decide (square ∈ visited)
                              then (false, visited)
                              else if bool_decide (square ∈ enemy_moves)
                                   then (true, {[square]} ∪ visited)
                                   else (false, {[square]} ∪ visited))).
    { destruct (decide (square ∈ visited)) as [Hv|Hv].
      - by rewrite (bool_decide_eq_true_2 _ Hv).
      - rewrite (bool_decide_eq_false_2 _ Hv).
        destruct (bool_decide (square ∈ enemy_moves)); simpl;
          apply elem_of_union_l; by apply elem_of_singleton. }
    by rewrite (bool_decide_eq_true_2 _ Hin).
Qed.
